(** * rss_mm_bot: the poll / dedup / filter / deliver pipeline of [main.py]

    A shallow embedding of [main.py] and the properties of its seen-state
    handling.  Python values are modelled as follows.

    - [str] is a sequence of code points; it is held as the [string] of
      its UTF-8 bytes, and decoded into its code points where the program
      looks inside it ([strip_html]).
    - [int] is [Z].
    - [dict[str, list[str]]] (the seen-state) is [gmap string (list string)];
      the key order of the dict is not observable by anything proved here.
    - The network (feedparser, requests) is an oracle indexed by a call
      counter, so that the same request may get different answers at
      different times; every call advances the counter.  Webhook posts are
      recorded, with their outcome, in an outbox.
    - The file system is a map from paths to file contents. *)

From Stdlib Require Import ZArith DecimalString DecimalPos DecimalZ Ascii String.
From stdpp Require Import gmap strings list.

Local Open Scope string_scope.
Local Open Scope Z_scope.
Local Open Scope list_scope.

(** ** Text and its encoding

    A Python [str] is a sequence of code points.  The program only looks
    inside a text in [strip_html], which is modelled on the code points;
    everywhere else a text is carried around, compared and concatenated,
    and is held as the [string] of its UTF-8 bytes. *)

Module Utf8.

Local Open Scope N_scope.

(** The bytes of one code point. *)
Definition encode_cp (c : N) : list N :=
  if c <? 128 then [c]
  else if c <? 2048 then [192 + c / 64; 128 + c mod 64]
  else if c <? 65536 then
    [224 + c / 4096; 128 + (c / 64) mod 64; 128 + c mod 64]
  else
    [240 + c / 262144; 128 + (c / 4096) mod 64; 128 + (c / 64) mod 64;
     128 + c mod 64].

Definition encode (l : list N) : string :=
  string_of_list_ascii (ascii_of_N <$> (l ≫= encode_cp)).

(** What a lead byte announces: the number of continuation bytes that
    follow it and the bits it carries itself. *)
Definition lead (b : N) : nat * N :=
  if b <? 128 then (0%nat, b)
  else if b <? 224 then (1%nat, b mod 32)
  else if b <? 240 then (2%nat, b mod 16)
  else (3%nat, b mod 8).

(** [need] continuation bytes are still to come for the code point whose
    bits so far are [acc]. *)
Fixpoint decode_go (need : nat) (acc : N) (s : list N) : list N :=
  match s with
  | [] => []
  | b :: s' =>
      match need with
      | O =>
          match lead b with
          | (O, c) => c :: decode_go O 0 s'
          | (n, c) => decode_go n c s'
          end
      | S n =>
          let acc' := acc * 64 + b mod 64 in
          match n with
          | O => acc' :: decode_go O 0 s'
          | _ => decode_go n acc' s'
          end
      end
  end.

Definition decode (s : string) : list N :=
  decode_go 0 0 (N_of_ascii <$> list_ascii_of_string s).

(** The code points that have an encoding: all of Unicode (below
    [0x110000]) and more. *)
Definition valid (l : list N) : Prop := Forall (fun c => c < 2097152) l.

End Utf8.

(** ** Python built-ins used by the program *)

Module Py.

(** Code points for which [str.isspace] holds, which are also the ones
    [\s] matches in a [str] pattern: U+0009..U+000D, U+001C..U+0020,
    U+0085, U+00A0, U+1680, U+2000..U+200A, U+2028, U+2029, U+202F,
    U+205F and U+3000. *)
Definition isspace (c : N) : bool :=
  ((9 <=? c) && (c <=? 13) || (28 <=? c) && (c <=? 32)
   || (c =? 133) || (c =? 160) || (c =? 5760)
   || (8192 <=? c) && (c <=? 8202)
   || (c =? 8232) || (c =? 8233) || (c =? 8239) || (c =? 8287)
   || (c =? 12288))%N.

(** [s.lstrip()], [s.rstrip()] and [s.strip()] on the code points. *)
Fixpoint lstrip (s : list N) : list N :=
  match s with
  | c :: s' => if isspace c then lstrip s' else s
  | [] => []
  end.

Definition rstrip (s : list N) : list N := rev (lstrip (rev s)).

Definition strip (s : list N) : list N := rstrip (lstrip s).

(** Truth value of a string: only the empty string is falsy. *)
Definition truthy (s : string) : bool :=
  match s with EmptyString => false | _ => true end.

(** [a or b] on strings. *)
Definition or_str (a b : string) : string := if truthy a then a else b.

(** [str(n)] and [int(s)] for integers.  [int] raises on a string that is
    not a numeral; every string the program passes to it was produced by
    [str], so that case is given the value 0 here. *)
Definition str (n : Z) : string := NilZero.string_of_int (Z.to_int n).

Definition int (s : string) : Z :=
  match NilZero.int_of_string s with
  | Some d => Z.of_int d
  | None => 0
  end.

(** [sep.join(l)]. *)
Fixpoint join (sep : string) (l : list string) : string :=
  match l with
  | [] => ""
  | [x] => x
  | x :: l' => x +:+ sep +:+ join sep l'
  end.

(** [l[-n:]] for a positive [n]: the last [n] elements, the whole list
    when it is shorter. *)
Definition last_n {A} (n : nat) (l : list A) : list A :=
  drop (length l - n) l.

End Py.

(** ** The regular expressions of [strip_html]

    The four patterns only use literal characters, character classes and
    greedy quantifiers; [regex] covers exactly that fragment, with the
    backtracking semantics of Python's [re].  A pattern is matched against
    the code points of a text. *)

Module Re.

Inductive regex : Type :=
| Chr (p : N -> bool)           (* one character of a class *)
| Cat (r1 r2 : regex)           (* r1 r2 *)
| Opt (r : regex)               (* r?   *)
| Rep (min : nat) (r : regex).  (* r{min,}, so r* is Rep 0 and r+ is Rep 1 *)

(** The code point of a character written in the source. *)
Definition code (c : ascii) : N := N_of_ascii c.

Definition lit (c : ascii) : regex := Chr (N.eqb (code c)).

(** The literal string [s] followed by [r]. *)
Fixpoint lits (s : string) (r : regex) : regex :=
  match s with
  | String c EmptyString => Cat (lit c) r
  | String c s' => Cat (lit c) (lits s' r)
  | EmptyString => r
  end.

(** [matchk r s k]: match [r] at the start of [s] and hand the rest of
    the input to the continuation [k]; alternatives are tried in the
    order of a backtracking matcher (greedy first).  An iteration of a
    repetition has to consume input. *)
Fixpoint matchk (r : regex) (s : list N)
    (k : list N -> option (list N)) : option (list N) :=
  match r with
  | Chr p =>
      match s with
      | c :: s' => if p c then k s' else None
      | [] => None
      end
  | Cat r1 r2 => matchk r1 s (fun s' => matchk r2 s' k)
  | Opt r1 =>
      match matchk r1 s k with
      | Some rest => Some rest
      | None => k s
      end
  | Rep min r1 =>
      (fix loop (n : nat) (min : nat) (s : list N) : option (list N) :=
         let stop := match min with O => k s | S _ => None end in
         match n with
         | O => stop
         | S n' =>
             match matchk r1 s (fun s' =>
                     if (length s' <? length s)%nat
                     then loop n' (Nat.pred min) s' else None) with
             | Some rest => Some rest
             | None => stop
             end
         end) (length s) min s
  end.

(** Length of the match of [r] at the start of [s], if there is one. *)
Definition match_len (r : regex) (s : list N) : option nat :=
  match matchk r s Some with
  | Some rest => Some (length s - length rest)%nat
  | None => None
  end.

(** [re.sub(r, repl, s)]: scan left to right; [skip] counts the
    characters of the current match still to be dropped. *)
Fixpoint sub_go (r : regex) (repl : list N) (skip : nat)
    (s : list N) : list N :=
  match s with
  | [] =>
      match skip, match_len r [] with
      | O, Some _ => repl
      | _, _ => []
      end
  | c :: s' =>
      match skip with
      | S k => sub_go r repl k s'
      | O =>
          match match_len r s with
          | Some (S k) => repl ++ sub_go r repl k s'
          | Some O => repl ++ c :: sub_go r repl O s'
          | None => c :: sub_go r repl O s'
          end
      end
  end.

(** The replacement is written in the source, the text is any [str]. *)
Definition sub (r : regex) (repl : string) (s : list N) : list N :=
  sub_go r (code <$> list_ascii_of_string repl) O s.

End Re.

(** ** GeekNews (RSS): formatting *)

Definition newline : ascii := ascii_of_nat 10.
Definition nl : string := String newline EmptyString.

(** [<li>\s*] *)
Definition re_li : Re.regex :=
  Re.lits "<li>" (Re.Rep 0 (Re.Chr Py.isspace)).

(** [<br\s*/?>] *)
Definition re_br : Re.regex :=
  Re.lits "<br"
    (Re.Cat (Re.Rep 0 (Re.Chr Py.isspace))
       (Re.Cat (Re.Opt (Re.lit "/")) (Re.lit ">"))).

(** [<[^>]+>] *)
Definition re_tag : Re.regex :=
  Re.Cat (Re.lit "<")
    (Re.Cat (Re.Rep 1 (Re.Chr (fun c => negb (N.eqb c (Re.code ">")))))
       (Re.lit ">")).

(** [\n{3,}] *)
Definition re_blank : Re.regex := Re.Rep 3 (Re.lit newline).

Module Text.

(** [strip_html] on the code points of its argument. *)
Definition strip_html (html : list N) : list N :=
  let text := Re.sub re_li "- " html in
  let text := Re.sub re_br nl text in
  let text := Re.sub re_tag "" text in
  let text := Re.sub re_blank (nl +:+ nl) text in
  Py.strip text.

End Text.

(** [strip_html] on encoded texts, as the rest of the program sees it. *)
Definition strip_html (html : string) : string :=
  Utf8.encode (Text.strip_html (Utf8.decode html)).


(** A feed entry as [feedparser] gives it: a dict of which the program
    reads the keys below; an absent key is [None]. *)
Record content_item : Type := { c_value : option string }.

Record entry : Type := {
  e_id : option string;
  e_link : option string;
  e_title : option string;
  e_author : option string;
  e_published : option string;
  e_content : option (list content_item);
  e_summary : option string
}.

(** [entry.get("id") or entry.get("link", "")], the identifier used both
    for the dedup check and for what is recorded as seen. *)
Definition entry_id (e : entry) : string :=
  Py.or_str (default "" (e_id e)) (default "" (e_link e)).

Definition format_geeknews (e : entry) : string :=
  let title := default "(no title)" (e_title e) in
  let link := default "" (e_link e) in
  let author := default "" (e_author e) in
  let published := default "" (e_published e) in
  let content_html :=
    match e_content e with
    | Some (c :: _) => default "" (c_value c)
    | _ =>
        match e_summary e with
        | Some s => s
        | None => ""
        end
    end in
  let summary := strip_html content_html in
  let lines := ["#### [" +:+ title +:+ "](" +:+ link +:+ ")"] in
  let lines := if Py.truthy summary then lines ++ [nl +:+ summary] else lines in
  let meta := [] in
  let meta := if Py.truthy author then meta ++ ["by **" +:+ author +:+ "**"] else meta in
  let meta := if Py.truthy published then meta ++ [published] else meta in
  let lines :=
    match meta with
    | [] => lines
    | _ => lines ++ [nl +:+ "> " +:+ Py.join " | " meta]
    end in
  Py.join nl lines.

(** ** Hacker News (API): items and formatting *)

(** The JSON object of an item: the keys the program reads, and whether
    the object has any other key (which only matters for its truth
    value). *)
Record hn_item : Type := {
  it_title : option string;
  it_url : option string;
  it_by : option string;
  it_score : option Z;
  it_descendants : option Z;
  it_id : option Z;
  it_dead : option bool;
  it_deleted : option bool;
  it_other_keys : bool
}.

(** [key in d] for a key stored as an optional field. *)
Definition has_key {A} (o : option A) : bool :=
  match o with Some _ => true | None => false end.

(** Truth value of the dict: false exactly when it has no key. *)
Definition item_truthy (it : hn_item) : bool :=
  has_key (it_title it) || has_key (it_url it)
  || has_key (it_by it) || has_key (it_score it)
  || has_key (it_descendants it) || has_key (it_id it)
  || has_key (it_dead it) || has_key (it_deleted it)
  || it_other_keys it.

(** Truth value of [item.get(flag)] for a boolean flag. *)
Definition flag (f : option bool) : bool := default false f.

Definition format_hackernews (item : hn_item) : string :=
  let title := default "(no title)" (it_title item) in
  let url := default "" (it_url item) in
  let author := default "" (it_by item) in
  let score := default 0 (it_score item) in
  let descendants := default 0 (it_descendants item) in
  let item_id := default 0 (it_id item) in
  let comments_url := "https://news.ycombinator.com/item?id=" +:+ Py.str item_id in
  let link := Py.or_str url comments_url in
  let lines := ["#### [" +:+ title +:+ "](" +:+ link +:+ ")"] in
  let meta := [] in
  let meta := meta ++ [Py.str score +:+ " points"] in
  let meta := if Py.truthy author then meta ++ ["by **" +:+ author +:+ "**"] else meta in
  let meta := meta ++ ["[" +:+ Py.str descendants +:+ " comments](" +:+ comments_url +:+ ")"] in
  let lines := lines ++ ["> " +:+ Py.join " | " meta] in
  Py.join nl lines.

(** ** The outside world *)

(** Result of an HTTP call made through [requests]: the call raised a
    [RequestException] (transport error, bad status, undecodable body), or
    it gave a body. *)
Inductive http (A : Type) : Type :=
| RequestException
| Response (body : A).
Arguments RequestException {A}.
Arguments Response {A} body.

(** What [feedparser.parse] gives back. *)
Record feed : Type := { bozo : bool; entries : list entry }.

(** The network at every instant: the answer each request gets when it
    is the [n]-th call the program makes. *)
Record network : Type := {
  net_feed : nat -> string -> option feed;        (* None: parse raised *)
  net_topstories : nat -> http (list Z);
  net_item : nat -> Z -> http (option hn_item);   (* Response None: JSON null *)
  net_post : nat -> string -> string -> http unit
}.

(** A recorded webhook call. *)
Record post : Type := { p_url : string; p_text : string; p_ok : bool }.

(** A path of [pathlib]: the directory and the file name. *)
Record path : Type := { parent : string; name : string }.

Global Instance path_eq_dec : EqDecision path.
Proof. solve_decision. Defined.

Global Instance path_countable : Countable path.
Proof.
  refine (inj_countable' (fun p => (parent p, name p))
                         (fun q => {| parent := q.1; name := q.2 |}) _).
  by intros [].
Defined.

Record world : Type := {
  clock : nat;                 (* network calls made so far *)
  outbox : list post;          (* webhook calls made so far, oldest first *)
  files : gmap path string     (* the file system *)
}.

(** Computations that act on the world. *)
Definition io (A : Type) : Type := world -> A * world.

Definition ret {A} (a : A) : io A := fun w => (a, w).

Definition bind {A B} (c : io A) (k : A -> io B) : io B :=
  fun w => let r := c w in k r.1 r.2.

Notation "'do' x <- c ; k" := (bind c (fun x => k))
  (at level 10, x name, c at level 100, k at level 200).

(** Make one network call: read the clock and advance it. *)
Definition call {A} (answer : nat -> A) : io A :=
  fun w => (answer (clock w),
            {| clock := S (clock w); outbox := outbox w; files := files w |}).

Definition record_post (p : post) : io unit :=
  fun w => (tt, {| clock := clock w; outbox := outbox w ++ [p]; files := files w |}).

(** [for x in l: acc = body(x, acc)]. *)
Fixpoint for_each {A S} (body : A -> S -> io S) (l : list A) (acc : S) : io S :=
  match l with
  | [] => ret acc
  | x :: l' => do acc' <- body x acc; for_each body l' acc'
  end.

(** ** Constants *)

Definition GEEKNEWS_FEED_URL : string := "https://feeds.feedburner.com/geeknews-feed".
Definition HN_API_BASE : string := "https://hacker-news.firebaseio.com/v0".
Definition HN_STATE_KEY : string := "hackernews_top".
Definition MAX_IDS_PER_FEED : nat := 1000.

(** The settings read from the environment at start-up. *)
Record config : Type := {
  HN_MIN_SCORE_COMMENTS : Z;
  GEEKNEWS_WEBHOOK : string;
  HACKERNEWS_WEBHOOK : string;
  POLL_INTERVAL : Z;
  DATA_DIR : string
}.

(** ** File system operations used by [save_state] *)

Inductive fs_op : Type :=
| Mkdir (dir : string)               (* mkdir(parents=True, exist_ok=True) *)
| OpenW (p : path)                   (* open(p, "w"): create or truncate *)
| FWrite (p : path) (chunk : string) (* f.write(chunk) *)
| Replace (src dst : path).          (* src.replace(dst): atomic rename *)

Definition fs_step (fs : gmap path string) (op : fs_op) : gmap path string :=
  match op with
  | Mkdir _ => fs
  | OpenW p => <[p := ""]> fs
  | FWrite p chunk => <[p := default "" (fs !! p) +:+ chunk]> fs
  | Replace src dst =>
      match fs !! src with
      | Some data => <[dst := data]> (delete src fs)
      | None => fs
      end
  end.

Definition fs_run (ops : list fs_op) (fs : gmap path string) : gmap path string :=
  foldl fs_step fs ops.

(** [PurePath.suffix] of a file name: from the last dot on, unless there
    is none, or it is the first or the last character. *)
Fixpoint rfind_dot (s : list ascii) (i : nat) (found : option nat) : option nat :=
  match s with
  | [] => found
  | c :: s' => rfind_dot s' (S i) (if Ascii.eqb c "." then Some i else found)
  end.

Definition suffix_start (nm : string) : nat :=
  let n := String.length nm in
  match rfind_dot (list_ascii_of_string nm) 0 None with
  | Some i => if ((0 <? i) && (i <? n - 1))%nat then i else n
  | None => n
  end.

(** [p.with_suffix(suffix)]. *)
Definition with_suffix (p : path) (suffix : string) : path :=
  {| parent := parent p;
     name := String.substring 0 (suffix_start (name p)) (name p) +:+ suffix |}.

(** ** The program *)

Section Program.

Variable cfg : config.
Variable net : network.

(** [json.dump(state, f, ensure_ascii=False, indent=2)], as the sequence
    of chunks it writes to [f]. *)
Variable json_dump : gmap string (list string) -> list string.

Definition STATE_FILE : path := {| parent := DATA_DIR cfg; name := "sent.json" |}.

(** *** State *)

Definition save_state_ops (state : gmap string (list string)) : list fs_op :=
  let tmp := with_suffix STATE_FILE ".tmp" in
  [Mkdir (DATA_DIR cfg); OpenW tmp]
  ++ (FWrite tmp <$> json_dump state)
  ++ [Replace tmp STATE_FILE].

Definition save_state (state : gmap string (list string)) : io unit :=
  fun w => (tt, {| clock := clock w; outbox := outbox w;
                   files := fs_run (save_state_ops state) (files w) |}).

(** *** Mattermost *)

Definition send_to_mattermost (webhook_url text : string) : io bool :=
  do resp <- call (fun n => net_post net n webhook_url text);
  let ok := match resp with Response _ => true | RequestException => false end in
  do _ <- record_post {| p_url := webhook_url; p_text := text; p_ok := ok |};
  ret ok.

(** *** GeekNews (RSS) *)

(** [[e for e in entries if (e.get("id") or e.get("link", "")) not in seen_set]]
    with [seen_set = set(seen_list)], computed once before any entry is
    processed. *)
Definition geeknews_new_entries (seen_list : list string) (l : list entry) : list entry :=
  let seen_set : gset string := list_to_set seen_list in
  filter (fun e => entry_id e ∉ seen_set) l.

(** Body of the delivery loop; [seen_list] is the list being appended to. *)
Definition geeknews_deliver (e : entry) (seen_list : list string) : io (list string) :=
  let entry_id := entry_id e in
  let text := format_geeknews e in
  do ok <- send_to_mattermost (GEEKNEWS_WEBHOOK cfg) text;
  ret (if ok then seen_list ++ [entry_id] else seen_list).

(** In the steady state [seen_list] is the very list stored in [state],
    so the appends of the loop are visible in [state] before the final
    assignment; no call made in between can raise, so only the state
    after the assignment is observable and [state] is passed by value. *)
Definition poll_geeknews (state : gmap string (list string))
  : io (gmap string (list string)) :=
  do parsed <- call (fun n => net_feed net n GEEKNEWS_FEED_URL);
  match parsed with
  | None => ret state
  | Some feed =>
      if bozo feed && bool_decide (entries feed = []) then ret state else
      let first_run := bool_decide (state !! GEEKNEWS_FEED_URL = None) in
      let seen_list := default [] (state !! GEEKNEWS_FEED_URL) in
      let new_entries := geeknews_new_entries seen_list (entries feed) in
      if bool_decide (new_entries = []) then ret state else
      if first_run then
        let seen_list := foldl (fun l e => l ++ [entry_id e]) seen_list new_entries in
        ret (<[GEEKNEWS_FEED_URL := Py.last_n MAX_IDS_PER_FEED seen_list]> state)
      else
        do seen_list <- for_each geeknews_deliver (reverse new_entries) seen_list;
        ret (<[GEEKNEWS_FEED_URL := Py.last_n MAX_IDS_PER_FEED seen_list]> state)
  end.

(** *** Hacker News (API) *)

Definition fetch_hn_top_ids : io (list Z) :=
  do resp <- call (net_topstories net);
  ret (match resp with Response ids => ids | RequestException => [] end).

Definition fetch_hn_item (item_id : Z) : io (option hn_item) :=
  do resp <- call (fun n => net_item net n item_id);
  ret (match resp with Response item => item | RequestException => None end).

(** [[str(sid) for sid in top_ids if str(sid) not in seen_set]] with
    [seen_set = set(seen_list)]. *)
Definition hackernews_new_ids (seen_list : list string) (top_ids : list Z) : list string :=
  let seen_set : gset string := list_to_set seen_list in
  filter (fun s => s ∉ seen_set) (Py.str <$> top_ids).

(** [not item or item.get("dead") or item.get("deleted")] *)
Definition unavailable (item : option hn_item) : bool :=
  match item with
  | None => true
  | Some it => negb (item_truthy it) || flag (it_dead it) || flag (it_deleted it)
  end.

(** Body of the processing loop. *)
Definition hackernews_process (str_id : string) (seen_list : list string)
  : io (list string) :=
  do item <- fetch_hn_item (Py.int str_id);
  match item with
  | Some it =>
      if unavailable item then ret (seen_list ++ [str_id]) else
      let score := default 0 (it_score it) in
      let descendants := default 0 (it_descendants it) in
      if score + descendants <? HN_MIN_SCORE_COMMENTS cfg then ret seen_list else
      let text := format_hackernews it in
      do ok <- send_to_mattermost (HACKERNEWS_WEBHOOK cfg) text;
      ret (if ok then seen_list ++ [str_id] else seen_list)
  | None => ret (seen_list ++ [str_id])
  end.

Definition poll_hackernews (state : gmap string (list string))
  : io (gmap string (list string)) :=
  do top_ids <- fetch_hn_top_ids;
  if bool_decide (top_ids = []) then ret state else
  let first_run := bool_decide (state !! HN_STATE_KEY = None) in
  let seen_list := default [] (state !! HN_STATE_KEY) in
  let new_ids := hackernews_new_ids seen_list top_ids in
  if bool_decide (new_ids = []) then ret state else
  if first_run then
    let seen_list := seen_list ++ new_ids in
    ret (<[HN_STATE_KEY := Py.last_n MAX_IDS_PER_FEED seen_list]> state)
  else
    do seen_list <- for_each hackernews_process (reverse new_ids) seen_list;
    ret (<[HN_STATE_KEY := Py.last_n MAX_IDS_PER_FEED seen_list]> state).

(** *** Main *)

Definition poll_once (state : gmap string (list string))
  : io (gmap string (list string)) :=
  do state <- (if Py.truthy (GEEKNEWS_WEBHOOK cfg) then poll_geeknews state else ret state);
  do state <- (if Py.truthy (HACKERNEWS_WEBHOOK cfg) then poll_hackernews state else ret state);
  do _ <- save_state state;
  ret state.

(** [n] turns of the loop of [run]; the sleep between two turns has no
    effect on the world modelled here. *)
Fixpoint run_cycles (n : nat) (state : gmap string (list string))
  : io (gmap string (list string)) :=
  match n with
  | O => ret state
  | S n' => do state <- poll_once state; run_cycles n' state
  end.

End Program.

(** ** Observations used in the statements *)

(** The world after one more network call. *)
Definition tick (w : world) : world :=
  {| clock := S (clock w); outbox := outbox w; files := files w |}.

(** [sub in s] for strings. *)
Fixpoint contains (sub s : string) : bool :=
  String.prefix sub s ||
  match s with
  | EmptyString => false
  | String _ s' => contains sub s'
  end.

(** [s.split("\n")]. *)
Fixpoint lines_go (cur : string) (s : string) : list string :=
  match s with
  | EmptyString => [cur]
  | String c s' =>
      if Ascii.eqb c newline then cur :: lines_go "" s'
      else lines_go (cur +:+ String c "") s'
  end.

Definition lines (s : string) : list string := lines_go "" s.

(** [a] and [b] occur on two different lines of [s]. *)
Definition on_separate_lines (a b s : string) : bool :=
  let ls := lines s in
  existsb (fun i =>
    existsb (fun j =>
      negb (i =? j)%nat
      && contains a (default "" (ls !! i))
      && contains b (default "" (ls !! j)))
      (seq 0 (length ls)))
    (seq 0 (length ls)).

(** Some HTML tag, in the sense of the pattern of [strip_html], is left
    somewhere in [s]. *)
Fixpoint has_tag_go (s : list N) : bool :=
  match Re.match_len re_tag s with
  | Some _ => true
  | None => match s with [] => false | _ :: s' => has_tag_go s' end
  end.

Definition has_tag (s : string) : bool := has_tag_go (Utf8.decode s).

(** The content written by [json.dump] once all its chunks are out. *)
Definition json_text (chunks : list string) : string := foldr String.append "" chunks.

(** The seen-sequence [stored] is what a cap of [n] keeps of [full]: the
    newest entries, the ones dropped being the oldest, and none dropped
    unless the cap is reached. *)
Definition fifo_capped (n : nat) (full stored : list string) : Prop :=
  exists dropped,
    full = dropped ++ stored /\
    (length stored <= n)%nat /\
    (dropped <> [] -> length stored = n).

(** Every stored seen-sequence respects the cap. *)
Definition bounded (state : gmap string (list string)) : Prop :=
  forall k l, state !! k = Some l -> (length l <= MAX_IDS_PER_FEED)%nat.

(** A loop body that, whatever the accumulated list, either appends the
    identifier of its item or leaves the list alone. *)
Definition appends_own_id {A} (ident : A -> string)
    (body : A -> list string -> io (list string)) : Prop :=
  forall x acc w,
    (body x acc w).1 = acc ++ [ident x] \/ (body x acc w).1 = acc.

(** ** Concrete settings and worlds *)

Definition example_cfg : config :=
  {| HN_MIN_SCORE_COMMENTS := 100;
     GEEKNEWS_WEBHOOK := "https://chat.example/hooks/geeknews";
     HACKERNEWS_WEBHOOK := "https://chat.example/hooks/hackernews";
     POLL_INTERVAL := 300;
     DATA_DIR := "./data" |}.

Definition example_world : world := {| clock := 0; outbox := []; files := ∅ |}.

(** A state in which both sources have been polled before. *)
Definition two_sources : gmap string (list string) :=
  {[ GEEKNEWS_FEED_URL := ["a"]; HN_STATE_KEY := ["1"] ]}.

(** A network on which every request fails. *)
Definition dead_net : network :=
  {| net_feed := fun _ _ => None;
     net_topstories := fun _ => RequestException;
     net_item := fun _ _ => RequestException;
     net_post := fun _ _ _ => RequestException |}.

(** A ranking of 1001 items, one more than the cap. *)
Definition flood_net : network :=
  {| net_feed := fun _ _ => None;
     net_topstories := fun _ => Response (seqZ 1 1001);
     net_item := fun _ _ => RequestException;
     net_post := fun _ _ _ => RequestException |}.

(** A ranking of three items. *)
Definition three_net : network :=
  {| net_feed := fun _ _ => None;
     net_topstories := fun _ => Response [101; 102; 103];
     net_item := fun _ _ => RequestException;
     net_post := fun _ _ _ => RequestException |}.

(** A story with the given score and number of comments, and flags. *)
Definition story (id score comments : Z) (dead : option bool) : hn_item :=
  {| it_title := Some "A story"; it_url := None; it_by := Some "pg";
     it_score := Some score; it_descendants := Some comments; it_id := Some id;
     it_dead := dead; it_deleted := None; it_other_keys := true |}.

(** A ranking of four items: 101 is below the threshold of 100 by one,
    the fetch of 102 fails, 103 is exactly at the threshold, 104 is dead.
    Posts succeed. *)
Definition ranked_net : network :=
  {| net_feed := fun _ _ => None;
     net_topstories := fun _ => Response [101; 102; 103; 104];
     net_item := fun _ id =>
       if id =? 101 then Response (Some (story 101 80 19 None))
       else if id =? 103 then Response (Some (story 103 80 20 None))
       else if id =? 104 then Response (Some (story 104 500 300 (Some true)))
       else RequestException;
     net_post := fun _ _ _ => Response tt |}.

(** A state in which the ranked source has been polled before. *)
Definition ranked_before : gmap string (list string) := {[ HN_STATE_KEY := ["7"] ]}.

(** Feed entries: two share the identifier [a]. *)
Definition feed_entry (id title : string) : entry :=
  {| e_id := Some id; e_link := Some ("https://news.example/" +:+ id);
     e_title := Some title; e_author := None; e_published := None;
     e_content := None; e_summary := Some "<li>one</li><li>two</li>" |}.

Definition dup_feed : feed :=
  {| bozo := false;
     entries := [feed_entry "a" "First"; feed_entry "b" "Other"; feed_entry "a" "Again"] |}.

(** The feed above, with every post accepted. *)
Definition dup_net : network :=
  {| net_feed := fun _ _ => Some dup_feed;
     net_topstories := fun _ => RequestException;
     net_item := fun _ _ => RequestException;
     net_post := fun _ _ _ => Response tt |}.

(** The feed above, the first post of the cycle failing. *)
Definition dup_flaky_net : network :=
  {| net_feed := fun _ _ => Some dup_feed;
     net_topstories := fun _ => RequestException;
     net_item := fun _ _ => RequestException;
     net_post := fun n _ _ => if (n =? 1)%nat then RequestException else Response tt |}.

(** A state in which the feed source has been polled before. *)
Definition feed_before : gmap string (list string) := {[ GEEKNEWS_FEED_URL := ["z"] ]}.

(** A serializer writing the text in three chunks, and a file system
    holding an earlier state file. *)
Definition example_dump (state : gmap string (list string)) : list string :=
  ["{"; "..."; "}"].

Definition example_files : gmap path string :=
  {[ {| parent := "./data"; name := "sent.json" |} := "{old}" ]}.

(** The source being polled: what the feed parser and the ranking give. *)
Definition feed_fetch_failed_or_empty (net : network) (w : world) : Prop :=
  net_feed net (clock w) GEEKNEWS_FEED_URL = None \/
  exists f, net_feed net (clock w) GEEKNEWS_FEED_URL = Some f /\ entries f = [].

Definition ranking_fetch_failed_or_empty (net : network) (w : world) : Prop :=
  net_topstories net (clock w) = RequestException \/
  net_topstories net (clock w) = Response [].

(** Between [state] and [state'], every key either keeps its entry or
    gets the capped list of its old entry followed by appended
    identifiers. *)
Definition capped_update (state state' : gmap string (list string)) : Prop :=
  forall k,
    state' !! k = state !! k \/
    exists appended stored,
      state' !! k = Some stored /\
      fifo_capped MAX_IDS_PER_FEED (default [] (state !! k) ++ appended) stored.

(** The operation only creates or writes the file [p]. *)
Definition writes_only_to (p : path) (op : fs_op) : Prop :=
  match op with
  | Mkdir _ => True
  | OpenW q => q = p
  | FWrite q _ => q = p
  | Replace _ _ => False
  end.

(** In the cycle that starts with [state] in the world [w], the ranked
    source is in its steady state with the seen-sequence [seen], and the
    identifier [str_id] comes up in the processing loop after the
    identifiers [pre], when the loop has accumulated the list [sl] and
    left the world [w1]. *)
Definition hackernews_turn (cfg : config) (net : network)
    (state : gmap string (list string)) (w : world) (seen : list string)
    (pre : list string) (str_id : string) (post : list string)
    (sl : list string) (w1 : world) : Prop :=
  state !! HN_STATE_KEY = Some seen /\
  reverse (hackernews_new_ids seen (fetch_hn_top_ids net w).1) = pre ++ str_id :: post /\
  for_each (hackernews_process cfg net) pre seen (tick w) = (sl, w1).

(** The same for the feed source, whose parsed feed is [f], and the
    entry [e]. *)
Definition geeknews_turn (cfg : config) (net : network)
    (state : gmap string (list string)) (w : world) (f : feed) (seen : list string)
    (pre : list entry) (e : entry) (post : list entry)
    (sl : list string) (w1 : world) : Prop :=
  state !! GEEKNEWS_FEED_URL = Some seen /\
  net_feed net (clock w) GEEKNEWS_FEED_URL = Some f /\
  reverse (geeknews_new_entries seen (entries f)) = pre ++ e :: post /\
  for_each (geeknews_deliver cfg net) pre seen (tick w) = (sl, w1).

(** The seen-sequence stored for [key] is what the cap keeps of [full]. *)
Definition stored_capped (state : gmap string (list string)) (key : string)
    (full : list string) : Prop :=
  state !! key = Some (Py.last_n MAX_IDS_PER_FEED full).

(** The loop over [ranked_net] started from [ranked_before], when 102
    comes up: 104 and 103 have had their turn. *)
Definition ranked_at_102 : list string * world :=
  for_each (hackernews_process example_cfg ranked_net) ["104"; "103"] ["7"]
    (tick example_world).

(** The same loop at its start, when 104 comes up. *)
Definition ranked_at_104 : list string * world := (["7"], tick example_world).

(** The same loop when 103 comes up. *)
Definition ranked_at_103 : list string * world :=
  for_each (hackernews_process example_cfg ranked_net) ["104"] ["7"]
    (tick example_world).

(** The same loop when 101 comes up. *)
Definition ranked_at_101 : list string * world :=
  for_each (hackernews_process example_cfg ranked_net) ["104"; "103"; "102"] ["7"]
    (tick example_world).

(** The post recording a webhook call for [text] with outcome [ok]. *)
Definition posted (url text : string) (ok : bool) : post :=
  {| p_url := url; p_text := text; p_ok := ok |}.

(** ** Further observations *)

Abbreviation lt_sign := (Re.code "<").
Abbreviation gt_sign := (Re.code ">").
Abbreviation line_break := (Re.code newline).

(** Greedy repetition of the character class [p], at least [min] times,
    then [k], trying the longest repetition first: what the matcher does
    for [Rep min (Chr p)], by recursion on the input. *)
Fixpoint rep_chr (p : N -> bool) (k : list N -> option (list N))
    (min : nat) (s : list N) : option (list N) :=
  let stop := match min with O => k s | S _ => None end in
  match s with
  | c :: s1 =>
      if p c then
        match rep_chr p k (Nat.pred min) s1 with
        | Some r => Some r
        | None => stop
        end
      else stop
  | [] => stop
  end.

(** Number of characters of the class [p] at the start of [s]. *)
Fixpoint run_len (p : N -> bool) (s : list N) : nat :=
  match s with
  | c :: s1 => if p c then S (run_len p s1) else O
  | [] => O
  end.

(** Three line breaks in a row somewhere in [s]. *)
Fixpoint has_blank_run_go (s : list N) : bool :=
  match s with
  | a :: s1 =>
      match s1 with
      | b :: c :: _ =>
          (N.eqb a line_break && N.eqb b line_break && N.eqb c line_break)
          || has_blank_run_go s1
      | _ => false
      end
  | [] => false
  end.

Definition has_blank_run (s : string) : bool :=
  has_blank_run_go (Utf8.decode s).

(** No [<] of [s] opens a tag: each is directly followed by [>] or has no
    [>] after it. *)
Fixpoint tag_free (s : list N) : Prop :=
  match s with
  | [] => True
  | c :: s1 =>
      (c = lt_sign -> (exists s2, s1 = gt_sign :: s2) \/ gt_sign ∉ s1) /\ tag_free s1
  end.

(** [o] is [s] with some of its line breaks taken out. *)
Inductive drops_newlines : list N -> list N -> Prop :=
| drops_nil : drops_newlines [] []
| drops_keep c s o : drops_newlines s o -> drops_newlines (c :: s) (c :: o)
| drops_drop s o : drops_newlines s o -> drops_newlines (line_break :: s) o.

(** A text that neither begins nor ends with white space. *)
Definition trimmed (s : list N) : Prop :=
  match s with
  | [] => True
  | c :: s1 => Py.isspace c = false /\ Py.isspace (List.last (c :: s1) c) = false
  end.

(** The bits gathered so far leave room for the continuation bytes still
    to come. *)
Definition room (need : nat) (acc : N) : Prop :=
  match need with
  | 0%nat => True
  | 1%nat => (acc < 32768)%N
  | 2%nat => (acc < 512)%N
  | 3%nat => (acc < 8)%N
  | _ => False
  end.


(** ** Start-up *)

Section Startup.

Variable cfg : config.
Variable net : network.
Variable json_dump : gmap string (list string) -> list string.

(** [json.load(f)] on the text of the state file: the mapping it decodes
    to, or [None] when it raises [JSONDecodeError]. *)
Variable json_load : string -> option (gmap string (list string)).

Definition load_state : io (gmap string (list string)) :=
  fun w =>
    (match files w !! STATE_FILE cfg with
     | Some text =>
         match json_load text with
         | Some state => state
         | None => ∅
         end
     | None => ∅
     end, w).

(** How [run] is left: by [SystemExit], or still in its loop with the
    state it holds. *)
Inductive run_result : Type :=
| SystemExit (code : Z)
| Looping (state : gmap string (list string)).

(** [run], observed after [n] turns of its loop. *)
Definition run (n : nat) : io run_result :=
  if negb (Py.truthy (GEEKNEWS_WEBHOOK cfg)) && negb (Py.truthy (HACKERNEWS_WEBHOOK cfg))
  then ret (SystemExit 1)
  else
    do state <- load_state;
    do state <- run_cycles cfg net json_dump n state;
    ret (Looping state).

End Startup.

(** The world [w] with the file system [fs]. *)
Definition with_files (w : world) (fs : gmap path string) : world :=
  {| clock := clock w; outbox := outbox w; files := fs |}.

(** The identifiers recorded by a delivery loop over [l] whose posts were
    [posts]: those of the entries whose post succeeded, in order. *)
Fixpoint delivered_ids (l : list entry) (posts : list post) : list string :=
  match l, posts with
  | e :: l1, p :: posts1 =>
      (if p_ok p then [entry_id e] else []) ++ delivered_ids l1 posts1
  | _, _ => []
  end.

(** A serializer and a parser that undo each other on the empty state
    and on [ranked_before]: the text names the seen-sequence of the ranked
    source. *)
Definition sample_dump (state : gmap string (list string)) : list string :=
  match state !! HN_STATE_KEY with
  | Some l => "hn:" :: l
  | None => ["none"]
  end.

Definition sample_load (text : string) : option (gmap string (list string)) :=
  if String.eqb text "none" then Some ∅
  else if String.eqb text "hn:7" then Some {[ HN_STATE_KEY := ["7"] ]}
  else None.


(** ** What a loop and a cycle append *)

(** What the loop over [l] appends to the list it is given, and the
    world it leaves, when it starts in the world [w].  Both processing
    loops append to their list without reading it, so the list they start
    with plays no part. *)
Definition appended_by {A} (body : A -> list string -> io (list string))
    (l : list A) (w : world) : list string :=
  (for_each body l [] w).1.

Definition world_after {A} (body : A -> list string -> io (list string))
    (l : list A) (w : world) : world :=
  (for_each body l [] w).2.

(** A loop body that appends to its list without reading it. *)
Definition appends_regardless {A}
    (body : A -> list string -> io (list string)) : Prop :=
  forall x acc w, body x acc w = (acc ++ (body x [] w).1, (body x [] w).2).

(** The webhook calls recorded after the world [w], up to the later
    world [w']. *)
Definition posts_since (w w' : world) : list post :=
  drop (length (outbox w)) (outbox w').

(** The new entries of the feed source in the cycle that starts with
    [state] in the world [w], and the identifiers the cycle appends for
    them: all of them on the first poll, those of the entries delivered,
    in the order of delivery, afterwards. *)
Definition geeknews_batch (net : network) (state : gmap string (list string))
    (w : world) : list entry :=
  match net_feed net (clock w) GEEKNEWS_FEED_URL with
  | Some f => geeknews_new_entries (default [] (state !! GEEKNEWS_FEED_URL)) (entries f)
  | None => []
  end.

Definition geeknews_appended (cfg : config) (net : network)
    (state : gmap string (list string)) (w : world) : list string :=
  match state !! GEEKNEWS_FEED_URL with
  | None => entry_id <$> geeknews_batch net state w
  | Some _ =>
      appended_by (geeknews_deliver cfg net) (reverse (geeknews_batch net state w))
        (tick w)
  end.

(** The same for the ranked source. *)
Definition hackernews_batch (net : network) (state : gmap string (list string))
    (w : world) : list string :=
  hackernews_new_ids (default [] (state !! HN_STATE_KEY)) (fetch_hn_top_ids net w).1.

Definition hackernews_appended (cfg : config) (net : network)
    (state : gmap string (list string)) (w : world) : list string :=
  match state !! HN_STATE_KEY with
  | None => hackernews_batch net state w
  | Some _ =>
      appended_by (hackernews_process cfg net) (reverse (hackernews_batch net state w))
        (tick w)
  end.

(** What a cycle stores for [key]: the last 1000 of the old entry
    followed by the identifiers [appended], and the old state when the
    [batch] of new items is empty. *)
Definition cycle_update {A} (key : string) (batch : list A) (appended : list string)
    (state : gmap string (list string)) : gmap string (list string) :=
  match batch with
  | [] => state
  | _ => <[key := Py.last_n MAX_IDS_PER_FEED (default [] (state !! key) ++ appended)]> state
  end.

(** ** Further worlds *)

(** A ranking of one item, exactly at the threshold of 100, while the
    webhook is down. *)
Definition webhook_down_net : network :=
  {| net_feed := fun _ _ => None;
     net_topstories := fun _ => Response [103];
     net_item := fun _ id =>
       if id =? 103 then Response (Some (story 103 80 20 None)) else RequestException;
     net_post := fun _ _ _ => RequestException |}.

(** A feed of 1001 entries with the identifiers 1 to 1001, every post
    accepted. *)
Definition numbered_entry (n : Z) : entry :=
  {| e_id := Some (Py.str n); e_link := None; e_title := None; e_author := None;
     e_published := None; e_content := None; e_summary := None |}.

Definition long_feed : feed :=
  {| bozo := false; entries := numbered_entry <$> seqZ 1 1001 |}.

Definition long_net : network :=
  {| net_feed := fun _ _ => Some long_feed;
     net_topstories := fun _ => RequestException;
     net_item := fun _ _ => RequestException;
     net_post := fun _ _ _ => Response tt |}.

(** * Properties *)

(** ** Numerals *)

Lemma int_str (z : Z) : Py.int (Py.str z) = z.
Proof.
  unfold Py.int, Py.str.
  rewrite NilZero.isi.
  - apply DecimalZ.of_to.
  - destruct z; simpl; try discriminate. intros E. injection E as E.
    by apply DecimalPos.Unsigned.to_uint_nonnil in E.
  - destruct z; simpl; try discriminate. intros E. injection E as E.
    by apply DecimalPos.Unsigned.to_uint_nonnil in E.
Qed.

Lemma str_inj (a b : Z) : Py.str a = Py.str b -> a = b.
Proof. intros E. by rewrite <- (int_str a), <- (int_str b), E. Qed.

(** ** Slices *)

Lemma last_n_length {A} (n : nat) (l : list A) :
  length (Py.last_n n l) = Nat.min n (length l).
Proof. unfold Py.last_n. rewrite length_drop. lia. Qed.

Lemma last_n_split {A} (n : nat) (l : list A) :
  l = take (length l - n) l ++ Py.last_n n l.
Proof. unfold Py.last_n. by rewrite take_drop. Qed.

Lemma last_n_short {A} (n : nat) (l : list A) :
  (length l <= n)%nat -> Py.last_n n l = l.
Proof.
  intros Hle. unfold Py.last_n.
  replace (length l - n)%nat with 0%nat by lia. done.
Qed.

Lemma elem_of_last_n {A} (n : nat) (l : list A) (x : A) :
  x ∈ Py.last_n n l -> x ∈ l.
Proof.
  intros Hx. rewrite (last_n_split n l). apply elem_of_app. by right.
Qed.

Lemma last_n_fifo (n : nat) (l : list string) :
  fifo_capped n l (Py.last_n n l).
Proof.
  exists (take (length l - n) l). split; [apply last_n_split|].
  split; [rewrite last_n_length; lia|].
  intros Hne. rewrite last_n_length.
  destruct (decide (length l <= n)%nat) as [Hle|Hgt]; [|lia].
  exfalso. apply Hne.
  replace (length l - n)%nat with 0%nat by lia. done.
Qed.

(** ** Loops *)

Lemma for_each_app {A S} (body : A -> S -> io S) (l1 l2 : list A) (acc : S) (w : world) :
  for_each body (l1 ++ l2) acc w =
  for_each body l2 (for_each body l1 acc w).1 (for_each body l1 acc w).2.
Proof.
  revert acc w. induction l1 as [|x l1 IH]; intros acc w; simpl; [done|].
  unfold bind. apply IH.
Qed.

Lemma for_each_cons {A S} (body : A -> S -> io S) (x : A) (l : list A) (acc : S) (w : world) :
  for_each body (x :: l) acc w =
  for_each body l (body x acc w).1 (body x acc w).2.
Proof. reflexivity. Qed.

Lemma for_each_appends {A} (ident : A -> string)
    (body : A -> list string -> io (list string)) :
  appends_own_id ident body ->
  forall l acc w, exists app,
    (for_each body l acc w).1 = acc ++ app /\ sublist app (ident <$> l).
Proof.
  intros Hbody l. induction l as [|x l IH]; intros acc w.
  - exists []. simpl. by rewrite app_nil_r.
  - rewrite for_each_cons.
    destruct (IH (body x acc w).1 (body x acc w).2) as (app & -> & Hsub).
    destruct (Hbody x acc w) as [-> | ->].
    + exists (ident x :: app). rewrite <- app_assoc. split; [done|].
      rewrite fmap_cons. by apply sublist_skip.
    + exists app. split; [done|]. rewrite fmap_cons. by apply sublist_cons.
Qed.

Lemma foldl_append_ids {A} (ident : A -> string) (l : list A) (acc : list string) :
  foldl (fun sl e => sl ++ [ident e]) acc l = acc ++ (ident <$> l).
Proof.
  revert acc. induction l as [|x l IH]; intros acc; simpl.
  - by rewrite app_nil_r.
  - rewrite IH. by rewrite <- app_assoc.
Qed.

Lemma bind_call {A B} (answer : nat -> A) (k : A -> io B) (w : world) :
  bind (call answer) k w = k (answer (clock w)) (tick w).
Proof. reflexivity. Qed.

Lemma bind_eq {A B} (c : io A) (k : A -> io B) (w : world) :
  bind c k w = k (c w).1 (c w).2.
Proof. reflexivity. Qed.

(** ** Delivery *)

Lemma send_to_mattermost_eq (net : network) (url text : string) (w : world) :
  send_to_mattermost net url text w =
  let ok := match net_post net (clock w) url text with
            | Response _ => true
            | RequestException => false
            end in
  (ok, {| clock := S (clock w);
          outbox := outbox w ++ [{| p_url := url; p_text := text; p_ok := ok |}];
          files := files w |}).
Proof. reflexivity. Qed.

Lemma geeknews_deliver_appends (cfg : config) (net : network) :
  appends_own_id entry_id (geeknews_deliver cfg net).
Proof.
  intros e acc w. unfold geeknews_deliver, bind, ret.
  rewrite send_to_mattermost_eq. simpl.
  destruct (net_post _ _ _ _); simpl; auto.
Qed.

Lemma hackernews_process_appends (cfg : config) (net : network) :
  appends_own_id (fun s => s) (hackernews_process cfg net).
Proof.
  intros s acc w. unfold hackernews_process, fetch_hn_item, bind, ret, call.
  simpl. destruct (net_item _ _ _) as [|[it|]]; simpl; auto.
  destruct (negb _ || _ || _); simpl; auto.
  destruct (_ <? _); simpl; auto.
  destruct (net_post _ _ _ _); simpl; auto.
Qed.

(** ** The two pollers, case by case *)

Section Pollers.

Variable cfg : config.
Variable net : network.

Lemma poll_geeknews_parse_raised state w :
  net_feed net (clock w) GEEKNEWS_FEED_URL = None ->
  poll_geeknews cfg net state w = (state, tick w).
Proof. intros H. unfold poll_geeknews. rewrite bind_call. by rewrite H. Qed.

Lemma poll_geeknews_nothing_new state w f :
  net_feed net (clock w) GEEKNEWS_FEED_URL = Some f ->
  geeknews_new_entries (default [] (state !! GEEKNEWS_FEED_URL)) (entries f) = [] ->
  poll_geeknews cfg net state w = (state, tick w).
Proof.
  intros H Hnew. unfold poll_geeknews. rewrite bind_call, H.
  destruct (bozo f && _); [done|]. rewrite Hnew. done.
Qed.

Lemma geeknews_new_entries_nil seen : geeknews_new_entries seen [] = [].
Proof. done. Qed.

Lemma geeknews_new_entries_fresh l : geeknews_new_entries [] l = l.
Proof.
  unfold geeknews_new_entries. induction l as [|e l IH]; [done|].
  rewrite filter_cons_True; [by rewrite IH|]. set_solver.
Qed.

Lemma poll_geeknews_first_run state w f :
  state !! GEEKNEWS_FEED_URL = None ->
  net_feed net (clock w) GEEKNEWS_FEED_URL = Some f ->
  entries f <> [] ->
  poll_geeknews cfg net state w =
  (<[GEEKNEWS_FEED_URL := Py.last_n MAX_IDS_PER_FEED (entry_id <$> entries f)]> state,
   tick w).
Proof.
  intros Hst H Hne. unfold poll_geeknews. rewrite bind_call, H, Hst.
  rewrite (bool_decide_eq_false_2 _ Hne), andb_false_r.
  simpl default. rewrite geeknews_new_entries_fresh.
  rewrite (bool_decide_eq_false_2 _ Hne).
  rewrite bool_decide_eq_true_2 by done.
  by rewrite foldl_append_ids.
Qed.

Lemma poll_geeknews_steady state w f seen :
  state !! GEEKNEWS_FEED_URL = Some seen ->
  net_feed net (clock w) GEEKNEWS_FEED_URL = Some f ->
  geeknews_new_entries seen (entries f) <> [] ->
  poll_geeknews cfg net state w =
  (<[GEEKNEWS_FEED_URL :=
       Py.last_n MAX_IDS_PER_FEED
         (for_each (geeknews_deliver cfg net)
            (reverse (geeknews_new_entries seen (entries f))) seen (tick w)).1]> state,
   (for_each (geeknews_deliver cfg net)
      (reverse (geeknews_new_entries seen (entries f))) seen (tick w)).2).
Proof.
  intros Hst H Hne. unfold poll_geeknews. rewrite bind_call, H, Hst.
  assert (entries f <> []) as Hne'.
  { intros E. apply Hne. by rewrite E. }
  rewrite (bool_decide_eq_false_2 _ Hne'), andb_false_r.
  simpl default. rewrite (bool_decide_eq_false_2 _ Hne).
  rewrite bool_decide_eq_false_2 by done.
  done.
Qed.

Lemma fetch_hn_top_ids_eq w :
  fetch_hn_top_ids net w =
  (match net_topstories net (clock w) with
   | Response ids => ids
   | RequestException => []
   end, tick w).
Proof. reflexivity. Qed.

Lemma fetch_hn_item_eq item_id w :
  fetch_hn_item net item_id w =
  (match net_item net (clock w) item_id with
   | Response item => item
   | RequestException => None
   end, tick w).
Proof. reflexivity. Qed.

Lemma poll_hackernews_no_ids state w :
  (fetch_hn_top_ids net w).1 = [] ->
  poll_hackernews cfg net state w = (state, tick w).
Proof.
  intros H. unfold poll_hackernews. rewrite bind_eq.
  rewrite fetch_hn_top_ids_eq in *. cbn [fst snd] in *. by rewrite H.
Qed.

Lemma poll_hackernews_nothing_new state w :
  hackernews_new_ids (default [] (state !! HN_STATE_KEY)) (fetch_hn_top_ids net w).1 = [] ->
  poll_hackernews cfg net state w = (state, tick w).
Proof.
  intros H. unfold poll_hackernews. rewrite bind_eq.
  rewrite fetch_hn_top_ids_eq in *. cbn [fst snd] in *.
  destruct (bool_decide _); [done|]. by rewrite H.
Qed.

Lemma hackernews_new_ids_fresh l : hackernews_new_ids [] l = Py.str <$> l.
Proof.
  unfold hackernews_new_ids. induction l as [|e l IH]; [done|].
  rewrite fmap_cons, filter_cons_True; [by rewrite IH|]. set_solver.
Qed.

Lemma poll_hackernews_first_run state w :
  state !! HN_STATE_KEY = None ->
  (fetch_hn_top_ids net w).1 <> [] ->
  poll_hackernews cfg net state w =
  (<[HN_STATE_KEY :=
       Py.last_n MAX_IDS_PER_FEED (Py.str <$> (fetch_hn_top_ids net w).1)]> state,
   tick w).
Proof.
  intros Hst Hne. unfold poll_hackernews. rewrite bind_eq.
  rewrite fetch_hn_top_ids_eq in *. cbn [fst snd] in *.
  rewrite (bool_decide_eq_false_2 _ Hne), Hst. simpl default.
  rewrite hackernews_new_ids_fresh.
  rewrite bool_decide_eq_false_2.
  2:{ intros E. apply Hne. by apply fmap_nil_inv in E. }
  by rewrite bool_decide_eq_true_2.
Qed.

Lemma poll_hackernews_steady state w seen :
  state !! HN_STATE_KEY = Some seen ->
  hackernews_new_ids seen (fetch_hn_top_ids net w).1 <> [] ->
  poll_hackernews cfg net state w =
  (<[HN_STATE_KEY :=
       Py.last_n MAX_IDS_PER_FEED
         (for_each (hackernews_process cfg net)
            (reverse (hackernews_new_ids seen (fetch_hn_top_ids net w).1)) seen (tick w)).1]> state,
   (for_each (hackernews_process cfg net)
      (reverse (hackernews_new_ids seen (fetch_hn_top_ids net w).1)) seen (tick w)).2).
Proof.
  intros Hst Hne. unfold poll_hackernews. rewrite bind_eq.
  rewrite fetch_hn_top_ids_eq in *. cbn [fst snd] in *.
  assert (match net_topstories net (clock w) with
          | Response ids => ids | RequestException => [] end <> []) as Hne'.
  { intros E. apply Hne. by rewrite E. }
  rewrite (bool_decide_eq_false_2 _ Hne'), Hst. simpl default.
  rewrite (bool_decide_eq_false_2 _ Hne).
  rewrite bool_decide_eq_false_2 by done.
  done.
Qed.

End Pollers.

(** ** What one poll can do to the state *)

Section Shape.

Variable cfg : config.
Variable net : network.

(** A poll either leaves the state alone or reassigns its own key, to the
    capped list of what was there followed by some appended identifiers. *)
Lemma poll_geeknews_shape state w :
  (poll_geeknews cfg net state w).1 = state \/
  exists app,
    (poll_geeknews cfg net state w).1 =
    <[GEEKNEWS_FEED_URL :=
        Py.last_n MAX_IDS_PER_FEED (default [] (state !! GEEKNEWS_FEED_URL) ++ app)]> state.
Proof.
  destruct (net_feed net (clock w) GEEKNEWS_FEED_URL) as [f|] eqn:Hf.
  2:{ left. by rewrite poll_geeknews_parse_raised. }
  destruct (decide (geeknews_new_entries (default [] (state !! GEEKNEWS_FEED_URL))
                      (entries f) = [])) as [Hnew|Hnew].
  { left. by rewrite (poll_geeknews_nothing_new _ _ _ _ f). }
  right. destruct (state !! GEEKNEWS_FEED_URL) as [seen|] eqn:Hst.
  - rewrite (poll_geeknews_steady _ _ _ _ f seen) by done. cbn [fst default].
    destruct (for_each_appends entry_id _ (geeknews_deliver_appends cfg net)
                (reverse (geeknews_new_entries seen (entries f))) seen (tick w))
      as (app & -> & _).
    by exists app.
  - rewrite (poll_geeknews_first_run _ _ _ _ f); [|done|done|].
    + by exists (entry_id <$> entries f).
    + intros E. apply Hnew. by rewrite E.
Qed.

Lemma poll_hackernews_shape state w :
  (poll_hackernews cfg net state w).1 = state \/
  exists app,
    (poll_hackernews cfg net state w).1 =
    <[HN_STATE_KEY :=
        Py.last_n MAX_IDS_PER_FEED (default [] (state !! HN_STATE_KEY) ++ app)]> state.
Proof.
  destruct (decide (hackernews_new_ids (default [] (state !! HN_STATE_KEY))
                      (fetch_hn_top_ids net w).1 = [])) as [Hnew|Hnew].
  { left. by rewrite poll_hackernews_nothing_new. }
  right. destruct (state !! HN_STATE_KEY) as [seen|] eqn:Hst.
  - rewrite (poll_hackernews_steady _ _ _ _ seen) by done. cbn [fst default].
    destruct (for_each_appends (fun s => s) _ (hackernews_process_appends cfg net)
                (reverse (hackernews_new_ids seen (fetch_hn_top_ids net w).1)) seen (tick w))
      as (app & -> & _).
    by exists app.
  - rewrite poll_hackernews_first_run; [|done|].
    + by exists (Py.str <$> (fetch_hn_top_ids net w).1).
    + intros E. apply Hnew. by rewrite E.
Qed.

Lemma poll_geeknews_frame state w k :
  k <> GEEKNEWS_FEED_URL ->
  (poll_geeknews cfg net state w).1 !! k = state !! k.
Proof.
  intros Hk. destruct (poll_geeknews_shape state w) as [-> | (app & ->)]; [done|].
  by rewrite lookup_insert_ne.
Qed.

Lemma poll_hackernews_frame state w k :
  k <> HN_STATE_KEY ->
  (poll_hackernews cfg net state w).1 !! k = state !! k.
Proof.
  intros Hk. destruct (poll_hackernews_shape state w) as [-> | (app & ->)]; [done|].
  by rewrite lookup_insert_ne.
Qed.

(** The state after the feed source, then after the ranked source. *)
Lemma poll_once_state json_dump state w :
  (poll_once cfg net json_dump state w).1 =
  let r1 := if Py.truthy (GEEKNEWS_WEBHOOK cfg)
            then poll_geeknews cfg net state w else (state, w) in
  (if Py.truthy (HACKERNEWS_WEBHOOK cfg)
   then poll_hackernews cfg net r1.1 r1.2 else r1).1.
Proof.
  unfold poll_once, bind, ret.
  by destruct (Py.truthy (GEEKNEWS_WEBHOOK cfg)), (Py.truthy (HACKERNEWS_WEBHOOK cfg)).
Qed.

Lemma key_changes_fifo (state : gmap string (list string)) key app k :
  let state' := <[key := Py.last_n MAX_IDS_PER_FEED (default [] (state !! key) ++ app)]> state in
  state' !! k = state !! k \/
  exists appended stored,
    state' !! k = Some stored /\
    fifo_capped MAX_IDS_PER_FEED (default [] (state !! k) ++ appended) stored.
Proof.
  intros state'. subst state'. destruct (decide (k = key)) as [->|Hne].
  - right. eexists app, _. rewrite lookup_insert_eq. split; [done|]. apply last_n_fifo.
  - left. by rewrite lookup_insert_ne.
Qed.

End Shape.

(** ** Failed and empty fetches *)

Lemma state_keys_differ : GEEKNEWS_FEED_URL <> HN_STATE_KEY.
Proof. done. Qed.

Lemma poll_geeknews_failed_or_empty cfg net state w :
  feed_fetch_failed_or_empty net w ->
  poll_geeknews cfg net state w = (state, tick w).
Proof.
  intros [Hf | (f & Hf & He)].
  - by apply poll_geeknews_parse_raised.
  - apply (poll_geeknews_nothing_new _ _ _ _ f Hf). by rewrite He.
Qed.

Lemma poll_hackernews_failed_or_empty cfg net state w :
  ranking_fetch_failed_or_empty net w ->
  poll_hackernews cfg net state w = (state, tick w).
Proof.
  intros H. apply poll_hackernews_no_ids. rewrite fetch_hn_top_ids_eq. cbn [fst].
  by destruct H as [-> | ->].
Qed.

(** C8.  When the fetch of a source fails or gives no item, the poll of
    that source returns the state it was given and posts nothing; and at
    the end of the whole cycle the entry of that source in the state is
    what it was at the start (absent if it was absent).  The ranked source
    is polled in the world the feed source left. *)
Theorem failed_or_empty_fetch_keeps_entry
    (cfg : config) (net : network) json_dump (state : gmap string (list string)) (w : world) :
  (feed_fetch_failed_or_empty net w ->
   poll_geeknews cfg net state w = (state, tick w)) /\
  (ranking_fetch_failed_or_empty net w ->
   poll_hackernews cfg net state w = (state, tick w)) /\
  (Py.truthy (GEEKNEWS_WEBHOOK cfg) = true ->
   feed_fetch_failed_or_empty net w ->
   (poll_once cfg net json_dump state w).1 !! GEEKNEWS_FEED_URL
   = state !! GEEKNEWS_FEED_URL) /\
  (Py.truthy (HACKERNEWS_WEBHOOK cfg) = true ->
   ranking_fetch_failed_or_empty net
     (if Py.truthy (GEEKNEWS_WEBHOOK cfg)
      then poll_geeknews cfg net state w else (state, w)).2 ->
   (poll_once cfg net json_dump state w).1 !! HN_STATE_KEY
   = state !! HN_STATE_KEY).
Proof.
  split; [apply poll_geeknews_failed_or_empty|].
  split; [apply poll_hackernews_failed_or_empty|].
  split.
  - intros Hon Hfail. rewrite poll_once_state, Hon. cbv zeta.
    rewrite (poll_geeknews_failed_or_empty _ _ _ _ Hfail). cbn [fst snd].
    destruct (Py.truthy (HACKERNEWS_WEBHOOK cfg)); [|done].
    apply poll_hackernews_frame, state_keys_differ.
  - intros Hon Hfail. rewrite poll_once_state, Hon. cbv zeta.
    rewrite (poll_hackernews_failed_or_empty _ _ _ _ Hfail). cbn [fst].
    destruct (Py.truthy (GEEKNEWS_WEBHOOK cfg)); [|done].
    apply poll_geeknews_frame. by intros E.
Qed.

Lemma failed_or_empty_fetch_keeps_entry_witness :
  (poll_once example_cfg dead_net (fun _ => []) two_sources example_world).1
    !! GEEKNEWS_FEED_URL = Some ["a"] /\
  (poll_once example_cfg dead_net (fun _ => []) two_sources example_world).1
    !! HN_STATE_KEY = Some ["1"].
Proof.
  pose proof (failed_or_empty_fetch_keeps_entry example_cfg dead_net (fun _ => [])
                two_sources example_world) as (_ & _ & Hfeed & Hrank).
  split.
  - rewrite Hfeed; [reflexivity | reflexivity | left; reflexivity].
  - rewrite Hrank; [reflexivity | reflexivity | left; reflexivity].
Defined.

(** ** Bounded retention *)

Lemma capped_update_refl state : capped_update state state.
Proof. intros k. by left. Qed.

Lemma capped_update_insert (state : gmap string (list string)) key app :
  capped_update state
    (<[key := Py.last_n MAX_IDS_PER_FEED (default [] (state !! key) ++ app)]> state).
Proof. intros k. apply key_changes_fifo. Qed.

Lemma poll_geeknews_capped cfg net state w :
  capped_update state (poll_geeknews cfg net state w).1.
Proof.
  destruct (poll_geeknews_shape cfg net state w) as [-> | (app & ->)].
  - apply capped_update_refl.
  - apply capped_update_insert.
Qed.

Lemma poll_hackernews_capped cfg net state w :
  capped_update state (poll_hackernews cfg net state w).1.
Proof.
  destruct (poll_hackernews_shape cfg net state w) as [-> | (app & ->)].
  - apply capped_update_refl.
  - apply capped_update_insert.
Qed.

Lemma poll_once_capped cfg net json_dump state w :
  capped_update state (poll_once cfg net json_dump state w).1.
Proof.
  rewrite poll_once_state. cbv zeta. intros k.
  destruct (Py.truthy (GEEKNEWS_WEBHOOK cfg)), (Py.truthy (HACKERNEWS_WEBHOOK cfg));
    cbn [fst snd].
  - destruct (decide (k = HN_STATE_KEY)) as [->|Hk].
    + rewrite <- (poll_geeknews_frame cfg net state w HN_STATE_KEY) by done.
      apply poll_hackernews_capped.
    + rewrite poll_hackernews_frame by done. apply poll_geeknews_capped.
  - apply poll_geeknews_capped.
  - apply poll_hackernews_capped.
  - by left.
Qed.

Lemma capped_update_bounded state state' :
  capped_update state state' -> bounded state -> bounded state'.
Proof.
  intros Hup Hb k l Hl. destruct (Hup k) as [Heq | (app & stored & Hs & Hfifo)].
  - apply (Hb k). by rewrite <- Heq.
  - rewrite Hl in Hs. injection Hs as <-.
    by destruct Hfifo as (dropped & _ & Hlen & _).
Qed.

Lemma run_cycles_bounded cfg net json_dump n state w :
  bounded state -> bounded (run_cycles cfg net json_dump n state w).1.
Proof.
  revert state w. induction n as [|n IH]; intros state w Hb; [done|].
  simpl. rewrite bind_eq. apply IH.
  apply (capped_update_bounded state); [apply poll_once_capped | done].
Qed.

(** ** First poll of a source *)

(** Claim C2 does not hold when more than 1000 items are fetched: of a
    ranking of 1001 items polled with an empty state, the first one is
    not in the seen-sequence after the poll. *)
Lemma first_poll_beyond_cap_forgets_oldest :
  (∅ : gmap string (list string)) !! HN_STATE_KEY = None /\
  (fetch_hn_top_ids flood_net example_world).1 = seqZ 1 1001 /\
  ~ (forall sid, sid ∈ seqZ 1 1001 ->
       exists stored,
         (poll_hackernews example_cfg flood_net ∅ example_world).1 !! HN_STATE_KEY
         = Some stored /\
         Py.str sid ∈ stored).
Proof.
  set (r := poll_hackernews example_cfg flood_net ∅ example_world).
  split; [done|]. split; [done|]. intros H.
  destruct (H 1) as (stored & Hs & Hin).
  { apply (bool_decide_unpack _). by vm_compute. }
  assert (bool_decide (Py.str 1 ∈ default [] (r.1 !! HN_STATE_KEY)) = false) as Hno
    by (by vm_compute).
  rewrite Hs in Hno. simpl default in Hno.
  by rewrite bool_decide_eq_true_2 in Hno.
Qed.

(** C2, amended.  For a source whose key is absent from the state, a poll
    that fetches a non-empty list of items stores for that key the last
    1000 of the fetched identifiers, in fetch order, so every fetched
    identifier when there are at most 1000; and it posts nothing. *)
Theorem first_poll_marks_newest_without_delivery
    (cfg : config) (net : network) (state : gmap string (list string)) (w : world) :
  (forall f,
     state !! GEEKNEWS_FEED_URL = None ->
     net_feed net (clock w) GEEKNEWS_FEED_URL = Some f ->
     entries f <> [] ->
     let r := poll_geeknews cfg net state w in
     let ids := entry_id <$> entries f in
     r.1 = <[GEEKNEWS_FEED_URL := Py.last_n MAX_IDS_PER_FEED ids]> state /\
     outbox r.2 = outbox w /\
     ((length ids <= MAX_IDS_PER_FEED)%nat -> r.1 !! GEEKNEWS_FEED_URL = Some ids)) /\
  (forall top_ids,
     state !! HN_STATE_KEY = None ->
     net_topstories net (clock w) = Response top_ids ->
     top_ids <> [] ->
     let r := poll_hackernews cfg net state w in
     let ids := Py.str <$> top_ids in
     r.1 = <[HN_STATE_KEY := Py.last_n MAX_IDS_PER_FEED ids]> state /\
     outbox r.2 = outbox w /\
     ((length ids <= MAX_IDS_PER_FEED)%nat -> r.1 !! HN_STATE_KEY = Some ids)).
Proof.
  split.
  - intros f Hst Hf Hne r ids. subst r ids.
    rewrite (poll_geeknews_first_run cfg net state w f Hst Hf Hne). cbn [fst snd].
    split; [done|]. split; [done|].
    intros Hlen. by rewrite lookup_insert_eq, last_n_short.
  - intros top_ids Hst Htop Hne r ids. subst r ids.
    assert ((fetch_hn_top_ids net w).1 = top_ids) as Hids.
    { rewrite fetch_hn_top_ids_eq. cbn [fst]. by rewrite Htop. }
    rewrite (poll_hackernews_first_run cfg net state w Hst) by (by rewrite Hids).
    rewrite Hids. cbn [fst snd].
    split; [done|]. split; [done|].
    intros Hlen. by rewrite lookup_insert_eq, last_n_short.
Qed.

Lemma first_poll_marks_newest_without_delivery_witness :
  (poll_hackernews example_cfg three_net ∅ example_world).1 !! HN_STATE_KEY
  = Some ["101"; "102"; "103"] /\
  outbox (poll_hackernews example_cfg three_net ∅ example_world).2 = [].
Proof.
  destruct (first_poll_marks_newest_without_delivery example_cfg three_net ∅ example_world)
    as [_ Hhn].
  destruct (Hhn [101; 102; 103]) as (_ & Hout & Hall).
  - reflexivity.
  - reflexivity.
  - discriminate.
  - split; [|exact Hout]. apply Hall. unfold MAX_IDS_PER_FEED. simpl. lia.
Defined.

(** ** Formatting of list items *)

(** Claim C3 does not hold: nothing puts the two items of
    [<li>one</li><li>two</li>] on separate lines. *)
Lemma strip_html_list_items_share_a_line :
  on_separate_lines "- one" "- two" (strip_html "<li>one</li><li>two</li>") = false.
Proof. by vm_compute. Qed.

(** C3, amended.  For the body [<li>one</li><li>two</li>] the stripped
    text is [- one- two]: it contains [- one] and [- two], no tag is
    left, and it is a single line. *)
Theorem strip_html_list_items :
  strip_html "<li>one</li><li>two</li>" = "- one- two" /\
  contains "- one" (strip_html "<li>one</li><li>two</li>") = true /\
  contains "- two" (strip_html "<li>one</li><li>two</li>") = true /\
  has_tag (strip_html "<li>one</li><li>two</li>") = false /\
  lines (strip_html "<li>one</li><li>two</li>") = ["- one- two"].
Proof. repeat split; by vm_compute. Qed.

(** With a line break between the items in the source, each item gets a
    line of its own. *)
Lemma strip_html_list_items_on_lines :
  strip_html ("<ul>" +:+ nl +:+ "<li>one</li>" +:+ nl +:+ "<li>two</li>" +:+ nl +:+ "</ul>")
  = "- one" +:+ nl +:+ "- two".
Proof. by vm_compute. Qed.

(** ** Saving the state *)

Lemma string_app_assoc (a b c : string) : (a +:+ b) +:+ c = a +:+ (b +:+ c).
Proof.
  induction a as [|x a IH]; [done|].
  change (String x ((a +:+ b) +:+ c) = String x (a +:+ (b +:+ c))). by rewrite IH.
Qed.

Lemma string_app_nil_r (a : string) : a +:+ "" = a.
Proof.
  induction a as [|x a IH]; [done|].
  change (String x (a +:+ "") = String x a). by rewrite IH.
Qed.

Lemma fs_run_app (ops1 ops2 : list fs_op) (fs : gmap path string) :
  fs_run (ops1 ++ ops2) fs = fs_run ops2 (fs_run ops1 fs).
Proof. unfold fs_run. apply foldl_app. Qed.

Lemma fs_step_other (p q : path) (op : fs_op) (fs : gmap path string) :
  writes_only_to p op -> q <> p -> fs_step fs op !! q = fs !! q.
Proof.
  destruct op as [d|p'|p' chunk|src dst]; simpl; intros Hop Hq;
    [done| subst p' | subst p' | done]; by rewrite lookup_insert_ne.
Qed.

Lemma fs_run_other (p q : path) (ops : list fs_op) (fs : gmap path string) :
  Forall (writes_only_to p) ops -> q <> p -> fs_run ops fs !! q = fs !! q.
Proof.
  intros Hops Hq. revert fs. induction Hops as [|op ops Hop _ IH]; intros fs; [done|].
  unfold fs_run in *. simpl. rewrite IH. by apply (fs_step_other p).
Qed.

Lemma fs_run_writes (p : path) (chunks : list string) (data : string) (fs : gmap path string) :
  fs !! p = Some data ->
  fs_run (FWrite p <$> chunks) fs !! p = Some (data +:+ json_text chunks).
Proof.
  unfold json_text.
  revert data fs. induction chunks as [|c chunks IH]; intros data fs Hp; simpl.
  - by rewrite string_app_nil_r.
  - unfold fs_run in *. simpl. rewrite (IH (data +:+ c)).
    + by rewrite string_app_assoc.
    + by rewrite Hp, lookup_insert_eq.
Qed.

Lemma fs_run_replace (src dst : path) (data : string) (fs : gmap path string) :
  fs !! src = Some data -> fs_run [Replace src dst] fs !! dst = Some data.
Proof. intros H. unfold fs_run. simpl. rewrite H. by rewrite lookup_insert_eq. Qed.

Section Save.

Variable cfg : config.
Variable json_dump : gmap string (list string) -> list string.

Lemma tmp_is_sent_tmp :
  with_suffix (STATE_FILE cfg) ".tmp" = {| parent := DATA_DIR cfg; name := "sent.tmp" |}.
Proof. reflexivity. Qed.

Lemma tmp_not_canonical : STATE_FILE cfg <> with_suffix (STATE_FILE cfg) ".tmp".
Proof. rewrite tmp_is_sent_tmp. unfold STATE_FILE. intros E. by inversion E. Qed.

(** The operations of [save_state] before the rename. *)
Lemma save_state_ops_split state :
  save_state_ops cfg json_dump state =
  ([Mkdir (DATA_DIR cfg); OpenW (with_suffix (STATE_FILE cfg) ".tmp")]
   ++ (FWrite (with_suffix (STATE_FILE cfg) ".tmp") <$> json_dump state))
  ++ [Replace (with_suffix (STATE_FILE cfg) ".tmp") (STATE_FILE cfg)].
Proof. unfold save_state_ops. by rewrite <- app_assoc. Qed.

Lemma before_rename_only_tmp state :
  Forall (writes_only_to (with_suffix (STATE_FILE cfg) ".tmp"))
    ([Mkdir (DATA_DIR cfg); OpenW (with_suffix (STATE_FILE cfg) ".tmp")]
     ++ (FWrite (with_suffix (STATE_FILE cfg) ".tmp") <$> json_dump state)).
Proof.
  apply Forall_app. split.
  - repeat constructor.
  - apply Forall_fmap, Forall_forall. by intros c _.
Qed.

Lemma before_rename_tmp_complete state fs :
  fs_run ([Mkdir (DATA_DIR cfg); OpenW (with_suffix (STATE_FILE cfg) ".tmp")]
          ++ (FWrite (with_suffix (STATE_FILE cfg) ".tmp") <$> json_dump state)) fs
    !! with_suffix (STATE_FILE cfg) ".tmp"
  = Some (json_text (json_dump state)).
Proof.
  rewrite fs_run_app. rewrite (fs_run_writes _ _ "").
  - done.
  - unfold fs_run. simpl. by rewrite lookup_insert_eq.
Qed.

Lemma save_state_ops_length state :
  length (save_state_ops cfg json_dump state) = S (2 + length (json_dump state)).
Proof.
  rewrite save_state_ops_split, length_app, length_app, length_fmap. simpl. lia.
Qed.

(** C7.  [save_state] writes the serialized state to [sent.tmp] and then
    renames it to [sent.json] in one step.  Stopping it after any number
    [n] of its file operations leaves [sent.json] with its previous
    content, unless all of them were done, in which case it holds the
    complete new text; in particular, stopped once the temporary file is
    written and before the rename, [sent.json] is as it was and
    [sent.tmp] holds the complete new text. *)
Theorem save_state_canonical_old_or_new
    (state : gmap string (list string)) (w : world) (n : nat) :
  let canonical := STATE_FILE cfg in
  let tmp := with_suffix canonical ".tmp" in
  let ops := save_state_ops cfg json_dump state in
  let new := json_text (json_dump state) in
  ((n < length ops)%nat /\
   fs_run (take n ops) (files w) !! canonical = files w !! canonical
   \/
   (length ops <= n)%nat /\
   fs_run (take n ops) (files w) !! canonical = Some new) /\
  last ops = Some (Replace tmp canonical) /\
  fs_run (take (length ops - 1) ops) (files w) !! canonical = files w !! canonical /\
  fs_run (take (length ops - 1) ops) (files w) !! tmp = Some new /\
  files (save_state cfg json_dump state w).2 !! canonical = Some new.
Proof.
  intros canonical tmp ops new.
  assert (fs_run ops (files w) !! canonical = Some new) as Hdone.
  { subst ops. rewrite save_state_ops_split, fs_run_app.
    apply fs_run_replace, before_rename_tmp_complete. }
  assert (forall m, (m < length ops)%nat ->
            Forall (writes_only_to tmp) (take m ops)) as Hpre.
  { intros m Hm. subst ops. rewrite save_state_ops_length in Hm.
    rewrite save_state_ops_split, take_app_le.
    - apply Forall_take, before_rename_only_tmp.
    - rewrite length_app, length_fmap. simpl. lia. }
  split; [|split; [|split; [|split]]].
  - destruct (decide (n < length ops)%nat) as [Hlt|Hge].
    + left. split; [done|].
      apply (fs_run_other tmp); [by apply Hpre | apply tmp_not_canonical].
    + right. split; [lia|]. rewrite take_ge by lia. done.
  - subst ops. rewrite save_state_ops_split. by rewrite last_snoc.
  - apply (fs_run_other tmp); [|apply tmp_not_canonical].
    apply Hpre. subst ops. rewrite save_state_ops_length. lia.
  - subst ops. rewrite save_state_ops_length, save_state_ops_split.
    rewrite take_app_length'.
    + apply before_rename_tmp_complete.
    + rewrite length_app, length_fmap. simpl. lia.
  - done.
Qed.

End Save.

(** Stopped after the temporary file is complete (five operations out of
    six), the state file still has its old content; after the rename it
    has the new one and the temporary file is gone. *)
Lemma save_state_stopped_before_rename :
  fs_run (take 5 (save_state_ops example_cfg example_dump ∅)) example_files
  = {[ {| parent := "./data"; name := "sent.json" |} := "{old}";
       {| parent := "./data"; name := "sent.tmp" |} := "{...}" ]} /\
  fs_run (save_state_ops example_cfg example_dump ∅) example_files
  = {[ {| parent := "./data"; name := "sent.json" |} := "{...}" ]}.
Proof. split; apply map_eq; intros p; by vm_compute. Qed.

(** ** One turn of the processing loops *)

Section Turns.

Variable cfg : config.
Variable net : network.

Lemma geeknews_deliver_eq e sl w :
  geeknews_deliver cfg net e sl w =
  (if (send_to_mattermost net (GEEKNEWS_WEBHOOK cfg) (format_geeknews e) w).1
   then sl ++ [entry_id e] else sl,
   (send_to_mattermost net (GEEKNEWS_WEBHOOK cfg) (format_geeknews e) w).2).
Proof. reflexivity. Qed.

Lemma hackernews_process_unavailable str_id sl w :
  unavailable (fetch_hn_item net (Py.int str_id) w).1 = true ->
  hackernews_process cfg net str_id sl w = (sl ++ [str_id], tick w).
Proof.
  unfold hackernews_process. rewrite bind_eq, fetch_hn_item_eq. cbn [fst snd].
  destruct (match net_item net (clock w) (Py.int str_id) with
            | Response item => item | RequestException => None end) as [it|]; [|done].
  by intros ->.
Qed.

Lemma hackernews_process_below str_id sl w it :
  (fetch_hn_item net (Py.int str_id) w).1 = Some it ->
  unavailable (Some it) = false ->
  default 0 (it_score it) + default 0 (it_descendants it) < HN_MIN_SCORE_COMMENTS cfg ->
  hackernews_process cfg net str_id sl w = (sl, tick w).
Proof.
  unfold hackernews_process. rewrite bind_eq, fetch_hn_item_eq. cbn [fst snd].
  intros -> -> Hlt. apply Z.ltb_lt in Hlt. by rewrite Hlt.
Qed.

Lemma hackernews_process_relevant str_id sl w it :
  (fetch_hn_item net (Py.int str_id) w).1 = Some it ->
  unavailable (Some it) = false ->
  HN_MIN_SCORE_COMMENTS cfg <= default 0 (it_score it) + default 0 (it_descendants it) ->
  hackernews_process cfg net str_id sl w =
  (if (send_to_mattermost net (HACKERNEWS_WEBHOOK cfg) (format_hackernews it) (tick w)).1
   then sl ++ [str_id] else sl,
   (send_to_mattermost net (HACKERNEWS_WEBHOOK cfg) (format_hackernews it) (tick w)).2).
Proof.
  unfold hackernews_process. rewrite bind_eq, fetch_hn_item_eq. cbn [fst snd].
  intros -> -> Hge. apply Z.ltb_ge in Hge. by rewrite Hge.
Qed.

(** What the loop leaves once the item [x], reached with [sl] and [w1],
    has had its turn. *)
Lemma for_each_turn {A} (body : A -> list string -> io (list string))
    (pre : list A) (x : A) (post : list A) (seen sl : list string) (w0 w1 : world) :
  for_each body pre seen w0 = (sl, w1) ->
  for_each body (pre ++ x :: post) seen w0 =
  for_each body post (body x sl w1).1 (body x sl w1).2.
Proof. intros H. by rewrite for_each_app, H, for_each_cons. Qed.

Lemma hackernews_turn_unseen state w seen pre str_id post sl w1 :
  hackernews_turn cfg net state w seen pre str_id post sl w1 -> str_id ∉ seen.
Proof.
  intros (_ & Hsplit & _).
  assert (str_id ∈ hackernews_new_ids seen (fetch_hn_top_ids net w).1) as Hin.
  { apply elem_of_reverse. rewrite Hsplit. set_solver. }
  unfold hackernews_new_ids in Hin. apply list_elem_of_filter in Hin as [Hin _].
  set_solver.
Qed.

Lemma geeknews_turn_unseen state w f seen pre e post sl w1 :
  geeknews_turn cfg net state w f seen pre e post sl w1 -> entry_id e ∉ seen.
Proof.
  intros (_ & _ & Hsplit & _).
  assert (e ∈ geeknews_new_entries seen (entries f)) as Hin.
  { apply elem_of_reverse. rewrite Hsplit. set_solver. }
  unfold geeknews_new_entries in Hin. apply list_elem_of_filter in Hin as [Hin _].
  set_solver.
Qed.

(** The state at the end of the cycle, seen from one turn of the loop:
    what is stored is the cap of what the turn left followed by what the
    later turns appended. *)
Lemma hackernews_turn_stored state w seen pre str_id post sl w1 :
  hackernews_turn cfg net state w seen pre str_id post sl w1 ->
  exists app_pre app_post,
    sl = seen ++ app_pre /\ sublist app_pre pre /\ sublist app_post post /\
    stored_capped (poll_hackernews cfg net state w).1 HN_STATE_KEY
      ((hackernews_process cfg net str_id sl w1).1 ++ app_post).
Proof.
  intros (Hst & Hsplit & Hpre).
  destruct (for_each_appends (fun s => s) _ (hackernews_process_appends cfg net)
              pre seen (tick w)) as (app_pre & Happ_pre & Hsub_pre).
  rewrite Hpre in Happ_pre. cbn [fst] in Happ_pre.
  destruct (for_each_appends (fun s => s) _ (hackernews_process_appends cfg net)
              post (hackernews_process cfg net str_id sl w1).1
              (hackernews_process cfg net str_id sl w1).2)
    as (app_post & Happ_post & Hsub_post).
  rewrite list_fmap_id in Hsub_pre, Hsub_post.
  exists app_pre, app_post. repeat split; [done..|].
  unfold stored_capped.
  rewrite (poll_hackernews_steady cfg net state w seen Hst).
  - cbn [fst]. rewrite lookup_insert_eq, Hsplit.
    by rewrite (for_each_turn _ _ _ _ _ _ _ _ Hpre), Happ_post.
  - intros E. rewrite E in Hsplit. by destruct pre.
Qed.

End Turns.

(** ** Items that cannot be fetched, and dead or deleted items *)

Lemma unavailable_marked cfg net state w seen pre str_id post sl w1 :
  hackernews_turn cfg net state w seen pre str_id post sl w1 ->
  unavailable (fetch_hn_item net (Py.int str_id) w1).1 = true ->
  (str_id ∉ seen) /\
  exists later,
    stored_capped (poll_hackernews cfg net state w).1 HN_STATE_KEY
      (sl ++ str_id :: later).
Proof.
  intros Hturn Hun. split; [by eapply hackernews_turn_unseen|].
  destruct (hackernews_turn_stored _ _ _ _ _ _ _ _ _ _ Hturn)
    as (app_pre & app_post & _ & _ & _ & Hstored).
  rewrite (hackernews_process_unavailable cfg net str_id sl w1 Hun) in Hstored.
  cbn [fst] in Hstored. rewrite <- app_assoc in Hstored. by exists app_post.
Qed.

(** Claim C1 does not hold: in the cycle over [ranked_net] the fetch of
    item 102 fails, 102 was not seen before, and 102 is in the
    seen-sequence at the end of the cycle. *)
Lemma fetch_failure_is_marked_seen :
  hackernews_turn example_cfg ranked_net ranked_before example_world
    ["7"] ["104"; "103"] "102" ["101"] (ranked_at_102.1) (ranked_at_102.2) /\
  (fetch_hn_item ranked_net (Py.int "102") (ranked_at_102.2)).1 = None /\
  ("102" ∉ ["7"]) /\
  ~ (forall stored,
       (poll_hackernews example_cfg ranked_net ranked_before example_world).1
         !! HN_STATE_KEY = Some stored ->
       "102" ∉ stored).
Proof.
  split; [by vm_compute|]. split; [by vm_compute|].
  split; [apply (bool_decide_unpack _); by vm_compute|].
  intros H. apply (H ["7"; "104"; "103"; "102"]); [by vm_compute|].
  apply (bool_decide_unpack _). by vm_compute.
Qed.

(** C9.  A ranked item whose fetched detail carries the dead flag or the
    deleted flag has its identifier appended to the seen-sequence by its
    turn of the loop, which makes no delivery call; the identifier is
    part of what is stored, under the cap, at the end of the cycle. *)
Theorem dead_or_deleted_marked_without_delivery (cfg : config) (net : network) :
  (forall str_id sl w1 it,
     (fetch_hn_item net (Py.int str_id) w1).1 = Some it ->
     flag (it_dead it) = true \/ flag (it_deleted it) = true ->
     hackernews_process cfg net str_id sl w1 = (sl ++ [str_id], tick w1) /\
     outbox (hackernews_process cfg net str_id sl w1).2 = outbox w1) /\
  (forall state w seen pre str_id post sl w1 it,
     hackernews_turn cfg net state w seen pre str_id post sl w1 ->
     (fetch_hn_item net (Py.int str_id) w1).1 = Some it ->
     flag (it_dead it) = true \/ flag (it_deleted it) = true ->
     exists later,
       stored_capped (poll_hackernews cfg net state w).1 HN_STATE_KEY
         (sl ++ str_id :: later)).
Proof.
  assert (forall it, flag (it_dead it) = true \/ flag (it_deleted it) = true ->
                     unavailable (Some it) = true) as Hun.
  { intros it [H | H]; unfold unavailable; rewrite H.
    - by rewrite orb_true_r.
    - by rewrite orb_true_r. }
  split.
  - intros str_id sl w1 it Hit Hflag.
    rewrite hackernews_process_unavailable by (rewrite Hit; by apply Hun). done.
  - intros state w seen pre str_id post sl w1 it Hturn Hit Hflag.
    apply (unavailable_marked _ _ _ _ _ _ _ _ _ _ Hturn). rewrite Hit. by apply Hun.
Qed.

Lemma dead_or_deleted_marked_without_delivery_witness :
  hackernews_process example_cfg ranked_net "104" (ranked_at_104.1) (ranked_at_104.2)
  = (["7"; "104"], tick (ranked_at_104.2)) /\
  outbox (hackernews_process example_cfg ranked_net "104" (ranked_at_104.1)
            (ranked_at_104.2)).2 = [] /\
  exists later,
    stored_capped
      (poll_hackernews example_cfg ranked_net ranked_before example_world).1
      HN_STATE_KEY ((ranked_at_104.1) ++ "104" :: later).
Proof.
  destruct (dead_or_deleted_marked_without_delivery example_cfg ranked_net)
    as [Hbody Hcycle].
  destruct (Hbody "104" (ranked_at_104.1) (ranked_at_104.2) (story 104 500 300 (Some true)))
    as [Hstep Hout]; [reflexivity | left; reflexivity |].
  split; [exact Hstep|]. split; [exact Hout|].
  apply (Hcycle ranked_before example_world ["7"] [] "104" ["103"; "102"; "101"]
           (ranked_at_104.1) (ranked_at_104.2) (story 104 500 300 (Some true))).
  - repeat split; reflexivity.
  - reflexivity.
  - left; reflexivity.
Defined.

(** ** Delivery outcome and the seen-sequence *)

Lemma last_n_keeps {A} (n : nat) (l1 l2 : list A) (x : A) :
  (length l2 < n)%nat -> x ∈ Py.last_n n (l1 ++ x :: l2).
Proof.
  intros Hlen. unfold Py.last_n. rewrite drop_app_le.
  - apply elem_of_app. right. set_solver.
  - rewrite length_app. simpl. lia.
Qed.

Lemma absent_when_not_appended (n : nat)
    (seen app_pre app_post ids_pre ids_post : list string) (x : string) :
  x ∉ seen ->
  NoDup (ids_pre ++ x :: ids_post) ->
  sublist app_pre ids_pre ->
  sublist app_post ids_post ->
  x ∉ Py.last_n n ((seen ++ app_pre) ++ app_post).
Proof.
  intros Hseen Hnd Hpre Hpost Hin. apply elem_of_last_n in Hin.
  apply NoDup_app in Hnd as (_ & Hdisj & Hnd). apply NoDup_cons in Hnd as [Hx _].
  apply elem_of_app in Hin as [Hin | Hin]; [apply elem_of_app in Hin as [Hin | Hin]|].
  - done.
  - apply (Hdisj x); [by eapply elem_of_sublist | set_solver].
  - apply Hx. by eapply elem_of_sublist.
Qed.

(** ** Entries of one batch with the same identifier *)

Lemma new_entries_split seen l1 e1 l2 e2 l3 :
  entry_id e1 ∉ seen ->
  entry_id e2 ∉ seen ->
  geeknews_new_entries seen (l1 ++ e1 :: l2 ++ e2 :: l3) =
  geeknews_new_entries seen l1 ++ e1 ::
  geeknews_new_entries seen l2 ++ e2 :: geeknews_new_entries seen l3.
Proof.
  intros H1 H2. unfold geeknews_new_entries.
  rewrite filter_app, filter_cons_True by set_solver.
  by rewrite filter_app, filter_cons_True by set_solver.
Qed.

Lemma reverse_two_marked {A} (la : list A) (a : A) (lb : list A) (b : A) (lc : list A) :
  reverse (la ++ a :: lb ++ b :: lc) =
  reverse lc ++ b :: reverse lb ++ a :: reverse la.
Proof.
  rewrite reverse_app, reverse_cons, reverse_app, reverse_cons.
  by rewrite <- !app_assoc.
Qed.

Lemma geeknews_deliver_outbox cfg net e sl w :
  outbox (geeknews_deliver cfg net e sl w).2 =
  outbox w ++ [posted (GEEKNEWS_WEBHOOK cfg) (format_geeknews e)
                 (send_to_mattermost net (GEEKNEWS_WEBHOOK cfg) (format_geeknews e) w).1].
Proof. by rewrite geeknews_deliver_eq, send_to_mattermost_eq. Qed.

Lemma geeknews_loop_outbox cfg net l sl w :
  exists extra,
    outbox (for_each (geeknews_deliver cfg net) l sl w).2 = outbox w ++ extra.
Proof.
  revert sl w. induction l as [|e l IH]; intros sl w.
  - exists []. simpl. by rewrite app_nil_r.
  - rewrite for_each_cons.
    destruct (IH (geeknews_deliver cfg net e sl w).1 (geeknews_deliver cfg net e sl w).2)
      as [extra ->].
    rewrite geeknews_deliver_outbox, <- app_assoc. by eexists.
Qed.

(** ** What the loops append, exactly *)

Lemma for_each_from_nil {A} (body : A -> list string -> io (list string)) :
  appends_regardless body ->
  forall l acc w,
    for_each body l acc w = (acc ++ appended_by body l w, world_after body l w).
Proof.
  intros Hbody l. unfold appended_by, world_after.
  induction l as [|x l IH]; intros acc w.
  - simpl. unfold ret. by rewrite app_nil_r.
  - rewrite !for_each_cons. rewrite (Hbody x acc w). cbn [fst snd].
    rewrite (IH (acc ++ (body x [] w).1) (body x [] w).2).
    rewrite (IH (body x [] w).1 (body x [] w).2). cbn [fst snd].
    by rewrite app_assoc.
Qed.

Lemma appended_by_cons {A} (body : A -> list string -> io (list string)) x l w :
  appends_regardless body ->
  appended_by body (x :: l) w = (body x [] w).1 ++ appended_by body l (body x [] w).2 /\
  world_after body (x :: l) w = world_after body l (body x [] w).2.
Proof.
  intros Hbody. split.
  - unfold appended_by at 1. by rewrite for_each_cons, (for_each_from_nil body Hbody).
  - unfold world_after at 1. by rewrite for_each_cons, (for_each_from_nil body Hbody).
Qed.

Lemma appended_by_app {A} (body : A -> list string -> io (list string)) l1 l2 w :
  appends_regardless body ->
  appended_by body (l1 ++ l2) w =
    appended_by body l1 w ++ appended_by body l2 (world_after body l1 w) /\
  world_after body (l1 ++ l2) w = world_after body l2 (world_after body l1 w).
Proof.
  intros Hbody. split.
  - unfold appended_by at 1. by rewrite for_each_app, (for_each_from_nil body Hbody).
  - unfold world_after at 1. by rewrite for_each_app, (for_each_from_nil body Hbody).
Qed.

Lemma appended_by_sublist {A} (ident : A -> string)
    (body : A -> list string -> io (list string)) l w :
  appends_own_id ident body -> sublist (appended_by body l w) (ident <$> l).
Proof.
  intros Hbody. unfold appended_by.
  by destruct (for_each_appends ident body Hbody l [] w) as (app & -> & Hsub).
Qed.

Lemma posts_since_app w w' p : outbox w' = outbox w ++ p -> posts_since w w' = p.
Proof. intros H. unfold posts_since. rewrite H. apply drop_app_length. Qed.

Lemma posts_since_outbox w w' p :
  outbox w' = outbox w ++ p -> outbox w' = outbox w ++ posts_since w w'.
Proof. intros H. by rewrite (posts_since_app w w' p H). Qed.

Lemma not_new_when_seen seen top_ids x :
  x ∈ seen -> x ∉ hackernews_new_ids seen top_ids.
Proof.
  intros Hin Hnew. unfold hackernews_new_ids in Hnew.
  apply list_elem_of_filter in Hnew as [Hnot _]. set_solver.
Qed.

Section Exact.

Variable cfg : config.
Variable net : network.

Lemma geeknews_deliver_regardless : appends_regardless (geeknews_deliver cfg net).
Proof.
  intros e acc w. rewrite !geeknews_deliver_eq. cbn [fst snd].
  destruct (send_to_mattermost _ _ _ _).1; [done|by rewrite app_nil_r].
Qed.

Lemma hackernews_process_regardless : appends_regardless (hackernews_process cfg net).
Proof.
  intros s acc w. unfold hackernews_process. rewrite !bind_eq, fetch_hn_item_eq.
  cbn [fst snd].
  destruct (match net_item net (clock w) (Py.int s) with
            | Response item => item | RequestException => None end) as [it|]; [|done].
  destruct (unavailable (Some it)); [done|].
  destruct (_ <? _); [unfold ret; by rewrite app_nil_r|].
  rewrite !bind_eq. unfold ret. cbn [fst snd].
  destruct (send_to_mattermost _ _ _ _).1; [done|by rewrite app_nil_r].
Qed.

Lemma hackernews_process_outbox str_id sl w :
  exists p, outbox (hackernews_process cfg net str_id sl w).2 = outbox w ++ p.
Proof.
  unfold hackernews_process. rewrite !bind_eq, fetch_hn_item_eq. cbn [fst snd].
  destruct (match net_item net (clock w) (Py.int str_id) with
            | Response item => item | RequestException => None end) as [it|];
    [|exists []; by rewrite app_nil_r].
  destruct (unavailable (Some it)); [exists []; by rewrite app_nil_r|].
  destruct (_ <? _); [exists []; by rewrite app_nil_r|].
  rewrite !bind_eq, send_to_mattermost_eq. unfold ret. cbn. by eexists.
Qed.

Lemma hackernews_loop_outbox l sl w :
  exists extra,
    outbox (for_each (hackernews_process cfg net) l sl w).2 = outbox w ++ extra.
Proof.
  revert sl w. induction l as [|e l IH]; intros sl w.
  - exists []. simpl. by rewrite app_nil_r.
  - rewrite for_each_cons.
    destruct (IH (hackernews_process cfg net e sl w).1 (hackernews_process cfg net e sl w).2)
      as [extra ->].
    destruct (hackernews_process_outbox e sl w) as [p ->].
    rewrite <- app_assoc. by eexists.
Qed.

Lemma geeknews_loop_posts l w :
  outbox (world_after (geeknews_deliver cfg net) l w) =
  outbox w ++ posts_since w (world_after (geeknews_deliver cfg net) l w).
Proof.
  destruct (geeknews_loop_outbox cfg net l [] w) as [extra H].
  by apply (posts_since_outbox _ _ extra).
Qed.

Lemma hackernews_loop_posts l w :
  outbox (world_after (hackernews_process cfg net) l w) =
  outbox w ++ posts_since w (world_after (hackernews_process cfg net) l w).
Proof.
  destruct (hackernews_loop_outbox l [] w) as [extra H].
  by apply (posts_since_outbox _ _ extra).
Qed.

(** The cycle seen from one turn of its loop: what is stored is the cap
    of what the turn left followed by what the loop over the later items
    appends. *)
Lemma geeknews_turn_exact state w f seen pre e post sl w1 :
  geeknews_turn cfg net state w f seen pre e post sl w1 ->
  poll_geeknews cfg net state w =
  (<[GEEKNEWS_FEED_URL :=
       Py.last_n MAX_IDS_PER_FEED
         ((geeknews_deliver cfg net e sl w1).1 ++
          appended_by (geeknews_deliver cfg net) post
            (geeknews_deliver cfg net e sl w1).2)]> state,
   world_after (geeknews_deliver cfg net) post (geeknews_deliver cfg net e sl w1).2).
Proof.
  intros (Hst & Hf & Hsplit & Hpre).
  rewrite (poll_geeknews_steady cfg net state w f seen Hst Hf).
  - rewrite Hsplit, (for_each_turn _ _ _ _ _ _ _ _ Hpre).
    by rewrite (for_each_from_nil _ geeknews_deliver_regardless).
  - intros E. rewrite E in Hsplit. by destruct pre.
Qed.

Lemma hackernews_turn_exact state w seen pre str_id post sl w1 :
  hackernews_turn cfg net state w seen pre str_id post sl w1 ->
  poll_hackernews cfg net state w =
  (<[HN_STATE_KEY :=
       Py.last_n MAX_IDS_PER_FEED
         ((hackernews_process cfg net str_id sl w1).1 ++
          appended_by (hackernews_process cfg net) post
            (hackernews_process cfg net str_id sl w1).2)]> state,
   world_after (hackernews_process cfg net) post
     (hackernews_process cfg net str_id sl w1).2).
Proof.
  intros (Hst & Hsplit & Hpre).
  rewrite (poll_hackernews_steady cfg net state w seen Hst).
  - rewrite Hsplit, (for_each_turn _ _ _ _ _ _ _ _ Hpre).
    by rewrite (for_each_from_nil _ hackernews_process_regardless).
  - intros E. rewrite E in Hsplit. by destruct pre.
Qed.

(** What the turn found in its list: the seen-sequence of the start of
    the cycle followed by identifiers of earlier items of the batch. *)
Lemma geeknews_turn_list state w f seen pre e post sl w1 :
  geeknews_turn cfg net state w f seen pre e post sl w1 ->
  sl = seen ++ appended_by (geeknews_deliver cfg net) pre (tick w).
Proof.
  intros (_ & _ & _ & Hpre).
  rewrite (for_each_from_nil _ geeknews_deliver_regardless) in Hpre. congruence.
Qed.

Lemma hackernews_turn_list state w seen pre str_id post sl w1 :
  hackernews_turn cfg net state w seen pre str_id post sl w1 ->
  sl = seen ++ appended_by (hackernews_process cfg net) pre (tick w).
Proof.
  intros (_ & _ & Hpre).
  rewrite (for_each_from_nil _ hackernews_process_regardless) in Hpre. congruence.
Qed.

(** What a poll stores, whatever the case. *)
Lemma poll_geeknews_exact state w :
  (poll_geeknews cfg net state w).1 =
  cycle_update GEEKNEWS_FEED_URL (geeknews_batch net state w)
    (geeknews_appended cfg net state w) state.
Proof.
  unfold geeknews_appended, geeknews_batch.
  destruct (net_feed net (clock w) GEEKNEWS_FEED_URL) as [f|] eqn:Hf.
  2:{ rewrite poll_geeknews_parse_raised by done. by destruct (state !! _). }
  destruct (decide (geeknews_new_entries (default [] (state !! GEEKNEWS_FEED_URL))
                      (entries f) = [])) as [Hnew|Hnew].
  { rewrite (poll_geeknews_nothing_new _ _ _ _ f) by done. by rewrite Hnew. }
  assert (forall app,
            cycle_update GEEKNEWS_FEED_URL
              (geeknews_new_entries (default [] (state !! GEEKNEWS_FEED_URL)) (entries f))
              app state =
            <[GEEKNEWS_FEED_URL :=
                Py.last_n MAX_IDS_PER_FEED
                  (default [] (state !! GEEKNEWS_FEED_URL) ++ app)]> state) as Hup.
  { intros app. unfold cycle_update. by destruct (geeknews_new_entries _ _). }
  rewrite Hup. destruct (state !! GEEKNEWS_FEED_URL) as [seen|] eqn:Hst; cbn [default] in *.
  - rewrite (poll_geeknews_steady _ _ _ _ f seen) by done. cbn [fst].
    by rewrite (for_each_from_nil _ geeknews_deliver_regardless).
  - rewrite (poll_geeknews_first_run _ _ _ _ f); [|done|done|].
    + by rewrite geeknews_new_entries_fresh.
    + intros E. apply Hnew. by rewrite E.
Qed.

Lemma poll_hackernews_exact state w :
  (poll_hackernews cfg net state w).1 =
  cycle_update HN_STATE_KEY (hackernews_batch net state w)
    (hackernews_appended cfg net state w) state.
Proof.
  unfold hackernews_appended, hackernews_batch.
  destruct (decide (hackernews_new_ids (default [] (state !! HN_STATE_KEY))
                      (fetch_hn_top_ids net w).1 = [])) as [Hnew|Hnew].
  { rewrite poll_hackernews_nothing_new by done. by rewrite Hnew. }
  assert (forall app,
            cycle_update HN_STATE_KEY
              (hackernews_new_ids (default [] (state !! HN_STATE_KEY))
                 (fetch_hn_top_ids net w).1)
              app state =
            <[HN_STATE_KEY :=
                Py.last_n MAX_IDS_PER_FEED
                  (default [] (state !! HN_STATE_KEY) ++ app)]> state) as Hup.
  { intros app. unfold cycle_update. by destruct (hackernews_new_ids _ _). }
  rewrite Hup. destruct (state !! HN_STATE_KEY) as [seen|] eqn:Hst; cbn [default] in *.
  - rewrite (poll_hackernews_steady _ _ _ _ seen) by done. cbn [fst].
    by rewrite (for_each_from_nil _ hackernews_process_regardless).
  - rewrite poll_hackernews_first_run; [|done|].
    + by rewrite hackernews_new_ids_fresh.
    + intros E. apply Hnew. by rewrite E.
Qed.

End Exact.

(** ** Bounded retention, oldest first *)

Lemma last_n_oldest_dropped {A} (n : nat) (full : list A) :
  full = take (length full - n) full ++ Py.last_n n full /\
  length (Py.last_n n full) = Nat.min n (length full).
Proof.
  unfold Py.last_n. split; [by rewrite take_drop|]. rewrite length_drop. lia.
Qed.

(** C5.  A poll that finds new items stores, for the key of its source,
    the last 1000 of the old sequence followed by the identifiers the
    cycle appends, and a poll that finds none leaves the state as it is;
    a whole cycle is the poll of the feed source followed by the poll of
    the ranked source.  The last 1000 of a sequence are the sequence
    without its first entries, the oldest, and are the whole sequence
    when it has at most 1000 entries.  So a state whose sequences are
    within the bound stays within it after one cycle, and after any
    number of cycles. *)
Theorem seen_sequence_capped_fifo (cfg : config) (net : network) json_dump :
  (forall state w,
     (poll_geeknews cfg net state w).1 =
     cycle_update GEEKNEWS_FEED_URL (geeknews_batch net state w)
       (geeknews_appended cfg net state w) state) /\
  (forall state w,
     (poll_hackernews cfg net state w).1 =
     cycle_update HN_STATE_KEY (hackernews_batch net state w)
       (hackernews_appended cfg net state w) state) /\
  (forall state w,
     let r1 := if Py.truthy (GEEKNEWS_WEBHOOK cfg)
               then poll_geeknews cfg net state w else (state, w) in
     (poll_once cfg net json_dump state w).1 =
     (if Py.truthy (HACKERNEWS_WEBHOOK cfg)
      then poll_hackernews cfg net r1.1 r1.2 else r1).1) /\
  (forall full : list string,
     full = take (length full - MAX_IDS_PER_FEED) full
            ++ Py.last_n MAX_IDS_PER_FEED full /\
     length (Py.last_n MAX_IDS_PER_FEED full)
     = Nat.min MAX_IDS_PER_FEED (length full)) /\
  (forall state w,
     bounded state ->
     bounded (poll_once cfg net json_dump state w).1 /\
     forall n, bounded (run_cycles cfg net json_dump n state w).1).
Proof.
  split; [apply poll_geeknews_exact|].
  split; [apply poll_hackernews_exact|].
  split; [intros state w; apply poll_once_state|].
  split; [intros full; apply last_n_oldest_dropped|].
  intros state w Hb. split.
  - apply (capped_update_bounded state); [apply poll_once_capped | done].
  - intros n. by apply run_cycles_bounded.
Qed.

(** Over [long_net] the seen-sequence [z] gets 1001 identifiers appended,
    1001 first and 1 last: the two oldest of the 1002, [z] and 1001, are
    dropped. *)
Lemma seen_sequence_capped_fifo_witness :
  (poll_geeknews example_cfg long_net feed_before example_world).1
  = {[ GEEKNEWS_FEED_URL := Py.str <$> reverse (seqZ 1 1000) ]} /\
  bounded feed_before /\
  bounded (poll_once example_cfg long_net example_dump feed_before example_world).1.
Proof.
  destruct (seen_sequence_capped_fifo example_cfg long_net example_dump)
    as (Hgn & _ & _ & _ & Hb).
  assert (bounded feed_before) as Hfeed.
  { intros k l H. unfold feed_before in H. apply lookup_singleton_Some in H as [_ <-].
    unfold MAX_IDS_PER_FEED. simpl. lia. }
  split; [|split; [exact Hfeed|]].
  - rewrite Hgn. vm_compute. reflexivity.
  - destruct (Hb feed_before example_world Hfeed) as [Hone _]. exact Hone.
Defined.

(** ** Items that cannot be fetched *)

(** C1, amended.  When the detail fetch of an identifier of the new-id
    list fails (no item comes back), the turn of the loop appends that
    identifier to the seen-sequence and makes no delivery call, as it
    does for a dead or deleted item.  The identifier was not in the
    seen-sequence at the start of the cycle; the cycle stores the last
    1000 of what the turn found, the identifier, and what the later turns
    append, so the identifier is stored when fewer than 1000 identifiers
    are appended after it; and as long as it is in the stored sequence
    it is not among the new identifiers of a cycle that starts from the
    state this cycle leaves, whatever the ranking says then: its item is
    not fetched again. *)
Theorem fetch_failure_marks_seen (cfg : config) (net : network) :
  (forall str_id sl w1,
     (fetch_hn_item net (Py.int str_id) w1).1 = None ->
     hackernews_process cfg net str_id sl w1 = (sl ++ [str_id], tick w1) /\
     outbox (hackernews_process cfg net str_id sl w1).2 = outbox w1) /\
  (forall state w seen pre str_id post sl w1,
     hackernews_turn cfg net state w seen pre str_id post sl w1 ->
     (fetch_hn_item net (Py.int str_id) w1).1 = None ->
     let later := appended_by (hackernews_process cfg net) post (tick w1) in
     let stored := Py.last_n MAX_IDS_PER_FEED (sl ++ str_id :: later) in
     (str_id ∉ seen) /\
     sl = seen ++ appended_by (hackernews_process cfg net) pre (tick w) /\
     poll_hackernews cfg net state w =
       (<[HN_STATE_KEY := stored]> state,
        world_after (hackernews_process cfg net) post (tick w1)) /\
     ((length later < MAX_IDS_PER_FEED)%nat -> str_id ∈ stored) /\
     (forall w', str_id ∈ stored ->
                 str_id ∉ hackernews_batch net (poll_hackernews cfg net state w).1 w')).
Proof.
  split.
  - intros str_id sl w1 Hnone.
    rewrite hackernews_process_unavailable by (by rewrite Hnone). done.
  - intros state w seen pre str_id post sl w1 Hturn Hnone later stored.
    split; [by eapply hackernews_turn_unseen|].
    split; [by eapply hackernews_turn_list|].
    assert (poll_hackernews cfg net state w =
            (<[HN_STATE_KEY := stored]> state,
             world_after (hackernews_process cfg net) post (tick w1))) as Hpoll.
    { rewrite (hackernews_turn_exact cfg net _ _ _ _ _ _ _ _ Hturn).
      rewrite hackernews_process_unavailable by (by rewrite Hnone). cbn [fst snd].
      by rewrite <- app_assoc. }
    split; [exact Hpoll|]. split.
    + intros Hlen. by apply last_n_keeps.
    + intros w' Hin. unfold hackernews_batch. rewrite Hpoll. cbn [fst].
      rewrite lookup_insert_eq. by apply not_new_when_seen.
Qed.

Lemma fetch_failure_marks_seen_witness :
  hackernews_process example_cfg ranked_net "102" (ranked_at_102.1) (ranked_at_102.2)
  = (["7"; "104"; "103"; "102"], tick (ranked_at_102.2)) /\
  ("102" ∉ ["7"]) /\
  (poll_hackernews example_cfg ranked_net ranked_before example_world).1
  = {[ HN_STATE_KEY := ["7"; "104"; "103"; "102"] ]} /\
  ("102" ∉ hackernews_batch ranked_net
             (poll_hackernews example_cfg ranked_net ranked_before example_world).1
             example_world).
Proof.
  destruct (fetch_failure_marks_seen example_cfg ranked_net) as [Hbody Hcycle].
  split; [apply (Hbody "102" (ranked_at_102.1) (ranked_at_102.2)); reflexivity|].
  destruct (Hcycle ranked_before example_world ["7"] ["104"; "103"] "102" ["101"]
              (ranked_at_102.1) (ranked_at_102.2))
    as (Hunseen & _ & Hpoll & Hin & Hnot).
  - repeat split; reflexivity.
  - reflexivity.
  - split; [exact Hunseen|]. split.
    + rewrite Hpoll. vm_compute. reflexivity.
    + apply (Hnot example_world). apply Hin. vm_compute. lia.
Defined.

(** ** The relevance threshold *)

(** Claim C4 does not hold: in the cycle over [webhook_down_net] the item
    103 reaches the relevance check with a sum of exactly the threshold,
    the webhook call for it is made and fails, so the item is not
    delivered, and its identifier is not in the seen-sequence at the end
    of the cycle. *)
Lemma threshold_item_undelivered_when_webhook_down :
  hackernews_turn example_cfg webhook_down_net ranked_before example_world
    ["7"] [] "103" [] ["7"] (tick example_world) /\
  (fetch_hn_item webhook_down_net (Py.int "103") (tick example_world)).1
  = Some (story 103 80 20 None) /\
  unavailable (Some (story 103 80 20 None)) = false /\
  default 0 (it_score (story 103 80 20 None))
  + default 0 (it_descendants (story 103 80 20 None))
  = HN_MIN_SCORE_COMMENTS example_cfg /\
  outbox (poll_hackernews example_cfg webhook_down_net ranked_before example_world).2
  = [posted (HACKERNEWS_WEBHOOK example_cfg)
       (format_hackernews (story 103 80 20 None)) false] /\
  ~ (exists p,
       p ∈ outbox (poll_hackernews example_cfg webhook_down_net ranked_before
                     example_world).2 /\
       p_ok p = true) /\
  (poll_hackernews example_cfg webhook_down_net ranked_before example_world).1
  !! HN_STATE_KEY = Some ["7"].
Proof.
  split; [by vm_compute|]. split; [by vm_compute|]. split; [by vm_compute|].
  split; [by vm_compute|]. split; [by vm_compute|]. split; [|by vm_compute].
  intros (p & Hin & Hok).
  assert (outbox (poll_hackernews example_cfg webhook_down_net ranked_before
                    example_world).2
          = [posted (HACKERNEWS_WEBHOOK example_cfg)
               (format_hackernews (story 103 80 20 None)) false]) as Hout
    by (by vm_compute).
  rewrite Hout in Hin. apply list_elem_of_singleton in Hin. by subst p.
Qed.

(** C4, amended.  For an item that is fetched, not empty, not dead and
    not deleted, the turn of the loop makes the webhook call for the item
    exactly when score plus comment count is at least the threshold, so
    at the threshold exactly; the item is delivered, and its identifier
    appended to the seen-sequence, exactly when moreover the call
    succeeds.  Below the threshold no call is made and nothing is
    appended.  The cycle stores the last 1000 of what the turn found,
    what the turn appends, and what the later turns append; the call, if
    made, is recorded after the calls of the earlier turns and before
    those of the later turns. *)
Theorem relevance_threshold
    (cfg : config) (net : network) (state : gmap string (list string)) (w : world)
    (seen pre : list string) (str_id : string) (post sl : list string) (w1 : world)
    (it : hn_item) :
  hackernews_turn cfg net state w seen pre str_id post sl w1 ->
  (fetch_hn_item net (Py.int str_id) w1).1 = Some it ->
  unavailable (Some it) = false ->
  let sum := default 0 (it_score it) + default 0 (it_descendants it) in
  let relevant := HN_MIN_SCORE_COMMENTS cfg <=? sum in
  let sent := send_to_mattermost net (HACKERNEWS_WEBHOOK cfg) (format_hackernews it)
                (tick w1) in
  let called :=
    if relevant
    then [posted (HACKERNEWS_WEBHOOK cfg) (format_hackernews it) sent.1] else [] in
  let marked := if relevant && sent.1 then [str_id] else [] in
  let w2 := if relevant then sent.2 else tick w1 in
  let w3 := world_after (hackernews_process cfg net) post w2 in
  hackernews_process cfg net str_id sl w1 = (sl ++ marked, w2) /\
  outbox w2 = outbox w1 ++ called /\
  (called <> [] <-> HN_MIN_SCORE_COMMENTS cfg <= sum) /\
  (marked = [str_id] <-> HN_MIN_SCORE_COMMENTS cfg <= sum /\ sent.1 = true) /\
  (marked = [] <-> sum < HN_MIN_SCORE_COMMENTS cfg \/ sent.1 = false) /\
  poll_hackernews cfg net state w =
    (<[HN_STATE_KEY :=
         Py.last_n MAX_IDS_PER_FEED
           (sl ++ marked ++ appended_by (hackernews_process cfg net) post w2)]> state,
     w3) /\
  outbox w3 = outbox w1 ++ called ++ posts_since w2 w3.
Proof.
  intros Hturn Hit Hav sum relevant sent called marked w2 w3.
  assert (hackernews_process cfg net str_id sl w1 = (sl ++ marked, w2)) as Hstep.
  { subst marked w2 relevant. destruct (Z.leb_spec (HN_MIN_SCORE_COMMENTS cfg) sum) as [Hle|Hlt].
    - rewrite (hackernews_process_relevant cfg net str_id sl w1 it Hit Hav Hle).
      fold sent. cbn [andb]. destruct sent.1; [done|by rewrite app_nil_r].
    - rewrite (hackernews_process_below cfg net str_id sl w1 it Hit Hav Hlt).
      cbn [andb]. by rewrite app_nil_r. }
  assert (outbox w2 = outbox w1 ++ called) as Hout.
  { subst called w2 relevant sent. destruct (_ <=? _).
    - by rewrite send_to_mattermost_eq.
    - cbn. by rewrite app_nil_r. }
  split; [exact Hstep|]. split; [exact Hout|].
  split; [|split; [|split; [|split]]].
  - subst called relevant. destruct (Z.leb_spec (HN_MIN_SCORE_COMMENTS cfg) sum); split;
      try done; lia.
  - subst marked relevant. destruct (Z.leb_spec (HN_MIN_SCORE_COMMENTS cfg) sum);
      cbn [andb]; [destruct sent.1|]; split; try done; try lia; by intros [? ?].
  - subst marked relevant. destruct (Z.leb_spec (HN_MIN_SCORE_COMMENTS cfg) sum);
      cbn [andb]; [destruct sent.1|]; split; try done; try lia; auto.
  - rewrite (hackernews_turn_exact cfg net _ _ _ _ _ _ _ _ Hturn), Hstep. cbn [fst snd].
    by rewrite <- app_assoc.
  - subst w3. rewrite hackernews_loop_posts, Hout. by rewrite <- app_assoc.
Qed.

(** Over [ranked_net]: 103, exactly at the threshold, is posted and
    marked; 101, one below it, is neither. *)
Lemma relevance_threshold_witness :
  (hackernews_process example_cfg ranked_net "103" (ranked_at_103.1) (ranked_at_103.2)
   = (["7"; "104"; "103"],
      (send_to_mattermost ranked_net (HACKERNEWS_WEBHOOK example_cfg)
         (format_hackernews (story 103 80 20 None)) (tick (ranked_at_103.2))).2)) /\
  (hackernews_process example_cfg ranked_net "101" (ranked_at_101.1) (ranked_at_101.2)
   = (ranked_at_101.1, tick (ranked_at_101.2))) /\
  outbox (poll_hackernews example_cfg ranked_net ranked_before example_world).2
  = [posted (HACKERNEWS_WEBHOOK example_cfg)
       (format_hackernews (story 103 80 20 None)) true] /\
  (poll_hackernews example_cfg ranked_net ranked_before example_world).1
  = {[ HN_STATE_KEY := ["7"; "104"; "103"; "102"] ]}.
Proof.
  destruct (relevance_threshold example_cfg ranked_net ranked_before example_world
              ["7"] ["104"] "103" ["102"; "101"] (ranked_at_103.1) (ranked_at_103.2)
              (story 103 80 20 None))
    as (Hat & _ & _ & _ & _ & Hpoll & Hout);
    [repeat split; reflexivity | reflexivity | reflexivity |].
  destruct (relevance_threshold example_cfg ranked_net ranked_before example_world
              ["7"] ["104"; "103"; "102"] "101" [] (ranked_at_101.1) (ranked_at_101.2)
              (story 101 80 19 None))
    as (Hbelow & _);
    [repeat split; reflexivity | reflexivity | reflexivity |].
  split; [rewrite Hat; vm_compute; reflexivity|].
  split; [rewrite Hbelow; vm_compute; reflexivity|].
  split; [rewrite Hpoll; vm_compute; reflexivity|].
  rewrite Hpoll. vm_compute. reflexivity.
Defined.

(** ** Delivery outcome and the seen-sequence, in a cycle *)

Lemma absent_when_failed (n : nat)
    (seen app_pre app_post ids_pre ids_post : list string) (x : string) :
  x ∉ seen ->
  NoDup (ids_pre ++ x :: ids_post) ->
  sublist app_pre ids_pre ->
  sublist app_post ids_post ->
  x ∉ Py.last_n n ((seen ++ app_pre) ++ [] ++ app_post).
Proof. apply absent_when_not_appended. Qed.

(** Claim C6 does not hold, in either half.  After a failure: in the
    cycle over [dup_flaky_net] the delivery of the entry "Again", with
    identifier [a], fails, and [a] is in the seen-sequence at the end of
    the cycle, the entry "First" with the same identifier having been
    delivered.  After a success: in the cycle over [long_net] the entry
    1001 is delivered first, 1000 more identifiers are appended after
    its own, and its identifier is not in the seen-sequence at the end of
    the cycle. *)
Lemma failed_delivery_yet_seen :
  (geeknews_turn example_cfg dup_flaky_net feed_before example_world dup_feed
     ["z"] [] (feed_entry "a" "Again") [feed_entry "b" "Other"; feed_entry "a" "First"]
     ["z"] (tick example_world) /\
   (send_to_mattermost dup_flaky_net (GEEKNEWS_WEBHOOK example_cfg)
      (format_geeknews (feed_entry "a" "Again")) (tick example_world)).1 = false /\
   ~ (forall stored,
        (poll_geeknews example_cfg dup_flaky_net feed_before example_world).1
          !! GEEKNEWS_FEED_URL = Some stored ->
        entry_id (feed_entry "a" "Again") ∉ stored)) /\
  (geeknews_turn example_cfg long_net feed_before example_world long_feed
     ["z"] [] (numbered_entry 1001) (reverse (numbered_entry <$> seqZ 1 1000))
     ["z"] (tick example_world) /\
   (send_to_mattermost long_net (GEEKNEWS_WEBHOOK example_cfg)
      (format_geeknews (numbered_entry 1001)) (tick example_world)).1 = true /\
   (entry_id (numbered_entry 1001) ∉ ["z"]) /\
   ~ (exists stored,
        (poll_geeknews example_cfg long_net feed_before example_world).1
          !! GEEKNEWS_FEED_URL = Some stored /\
        entry_id (numbered_entry 1001) ∈ stored)).
Proof.
  split.
  - split; [by vm_compute|]. split; [by vm_compute|].
    intros H. apply (H ["z"; "b"; "a"]); [by vm_compute|].
    apply (bool_decide_unpack _). by vm_compute.
  - split; [by vm_compute|]. split; [by vm_compute|].
    split; [apply (bool_decide_unpack _); by vm_compute|].
    intros (stored & Hs & Hin).
    assert ((poll_geeknews example_cfg long_net feed_before example_world).1
              !! GEEKNEWS_FEED_URL = Some (Py.str <$> reverse (seqZ 1 1000))) as Hst
      by (by vm_compute).
    rewrite Hst in Hs. apply (inj Some) in Hs. subst stored.
    revert Hin. apply (bool_decide_unpack _). by vm_compute.
Qed.

(** C6, amended.  For a source in its steady state and an item whose turn
    comes in a cycle and for which the delivery call is made: the
    identifier was absent from the seen-sequence at the start of the
    cycle; the turn appends the identifier if the call returns success
    and nothing if it returns failure; the cycle stores the last 1000 of
    what the turn found, what it appends, and what the later turns
    append.  So after a success the identifier is in the sequence stored
    at the end of the cycle provided fewer than 1000 identifiers are
    appended after it, and after a failure it is absent from that
    sequence provided the identifiers of the batch are pairwise
    distinct. *)
Theorem delivery_outcome_recorded (cfg : config) (net : network) :
  (forall state w f seen pre e post sl w1,
     geeknews_turn cfg net state w f seen pre e post sl w1 ->
     let sent :=
       send_to_mattermost net (GEEKNEWS_WEBHOOK cfg) (format_geeknews e) w1 in
     let marked := if sent.1 then [entry_id e] else [] in
     let later := appended_by (geeknews_deliver cfg net) post sent.2 in
     let stored := Py.last_n MAX_IDS_PER_FEED (sl ++ marked ++ later) in
     (entry_id e ∉ seen) /\
     sl = seen ++ appended_by (geeknews_deliver cfg net) pre (tick w) /\
     geeknews_deliver cfg net e sl w1 = (sl ++ marked, sent.2) /\
     poll_geeknews cfg net state w =
       (<[GEEKNEWS_FEED_URL := stored]> state,
        world_after (geeknews_deliver cfg net) post sent.2) /\
     (sent.1 = true -> (length later < MAX_IDS_PER_FEED)%nat -> entry_id e ∈ stored) /\
     (sent.1 = false -> NoDup (entry_id <$> pre ++ e :: post) ->
      entry_id e ∉ stored)) /\
  (forall state w seen pre str_id post sl w1 it,
     hackernews_turn cfg net state w seen pre str_id post sl w1 ->
     (fetch_hn_item net (Py.int str_id) w1).1 = Some it ->
     unavailable (Some it) = false ->
     HN_MIN_SCORE_COMMENTS cfg <= default 0 (it_score it) + default 0 (it_descendants it) ->
     let sent :=
       send_to_mattermost net (HACKERNEWS_WEBHOOK cfg) (format_hackernews it)
         (tick w1) in
     let marked := if sent.1 then [str_id] else [] in
     let later := appended_by (hackernews_process cfg net) post sent.2 in
     let stored := Py.last_n MAX_IDS_PER_FEED (sl ++ marked ++ later) in
     (str_id ∉ seen) /\
     sl = seen ++ appended_by (hackernews_process cfg net) pre (tick w) /\
     hackernews_process cfg net str_id sl w1 = (sl ++ marked, sent.2) /\
     poll_hackernews cfg net state w =
       (<[HN_STATE_KEY := stored]> state,
        world_after (hackernews_process cfg net) post sent.2) /\
     (sent.1 = true -> (length later < MAX_IDS_PER_FEED)%nat -> str_id ∈ stored) /\
     (sent.1 = false -> NoDup (pre ++ str_id :: post) -> str_id ∉ stored)).
Proof.
  split.
  - intros state w f seen pre e post sl w1 Hturn sent marked later stored.
    assert (geeknews_deliver cfg net e sl w1 = (sl ++ marked, sent.2)) as Hstep.
    { rewrite geeknews_deliver_eq. fold sent. subst marked.
      destruct sent.1; [done|by rewrite app_nil_r]. }
    pose proof (geeknews_turn_list cfg net _ _ _ _ _ _ _ _ _ Hturn) as Hsl.
    split; [by eapply geeknews_turn_unseen|]. split; [exact Hsl|].
    split; [exact Hstep|]. split; [|split].
    + rewrite (geeknews_turn_exact cfg net _ _ _ _ _ _ _ _ _ Hturn), Hstep.
      cbn [fst snd]. by rewrite <- app_assoc.
    + intros Hok Hlen. subst stored marked. rewrite Hok. by apply last_n_keeps.
    + intros Hok Hnd. subst stored marked. rewrite Hok, Hsl.
      rewrite fmap_app, fmap_cons in Hnd.
      apply (absent_when_failed _ _ _ _ (entry_id <$> pre) (entry_id <$> post));
        [by eapply geeknews_turn_unseen | done
        | apply appended_by_sublist, geeknews_deliver_appends
        | apply appended_by_sublist, geeknews_deliver_appends].
  - intros state w seen pre str_id post sl w1 it Hturn Hit Hav Hge sent marked later stored.
    assert (hackernews_process cfg net str_id sl w1 = (sl ++ marked, sent.2)) as Hstep.
    { rewrite (hackernews_process_relevant cfg net str_id sl w1 it Hit Hav Hge).
      fold sent. subst marked. destruct sent.1; [done|by rewrite app_nil_r]. }
    pose proof (hackernews_turn_list cfg net _ _ _ _ _ _ _ _ Hturn) as Hsl.
    split; [by eapply hackernews_turn_unseen|]. split; [exact Hsl|].
    split; [exact Hstep|]. split; [|split].
    + rewrite (hackernews_turn_exact cfg net _ _ _ _ _ _ _ _ Hturn), Hstep.
      cbn [fst snd]. by rewrite <- app_assoc.
    + intros Hok Hlen. subst stored marked. rewrite Hok. by apply last_n_keeps.
    + intros Hok Hnd. subst stored marked. rewrite Hok, Hsl.
      pose proof (appended_by_sublist (fun s => s) _ pre (tick w)
                    (hackernews_process_appends cfg net)) as Hp.
      pose proof (appended_by_sublist (fun s => s) _ post sent.2
                    (hackernews_process_appends cfg net)) as Hq.
      rewrite list_fmap_id in Hp, Hq.
      apply (absent_when_failed _ _ _ _ pre post);
        [by eapply hackernews_turn_unseen | done..].
Qed.

(** Over [ranked_net] the item 103 is delivered and its identifier
    stored; over [webhook_down_net] its delivery fails and its identifier
    is not stored. *)
Lemma delivery_outcome_recorded_witness :
  ("103" ∈ Py.last_n MAX_IDS_PER_FEED
             ((ranked_at_103.1) ++ ["103"] ++
              appended_by (hackernews_process example_cfg ranked_net) ["102"; "101"]
                (send_to_mattermost ranked_net (HACKERNEWS_WEBHOOK example_cfg)
                   (format_hackernews (story 103 80 20 None))
                   (tick (ranked_at_103.2))).2)) /\
  (poll_hackernews example_cfg ranked_net ranked_before example_world).1
  = {[ HN_STATE_KEY := ["7"; "104"; "103"; "102"] ]} /\
  (poll_hackernews example_cfg webhook_down_net ranked_before example_world).1
  = {[ HN_STATE_KEY := ["7"] ]} /\
  ("103" ∉ Py.last_n MAX_IDS_PER_FEED (["7"] ++ [] ++ [])).
Proof.
  destruct (delivery_outcome_recorded example_cfg ranked_net) as [_ Hhn].
  destruct (Hhn ranked_before example_world ["7"] ["104"] "103" ["102"; "101"]
              (ranked_at_103.1) (ranked_at_103.2) (story 103 80 20 None))
    as (_ & _ & _ & Hpoll & Hin & _);
    [repeat split; reflexivity | reflexivity | reflexivity | by vm_compute |].
  destruct (delivery_outcome_recorded example_cfg webhook_down_net) as [_ Hdown].
  destruct (Hdown ranked_before example_world ["7"] [] "103" [] ["7"]
              (tick example_world) (story 103 80 20 None))
    as (_ & _ & _ & Hpoll' & _ & Hout);
    [repeat split; reflexivity | reflexivity | reflexivity | by vm_compute |].
  split; [apply Hin; [reflexivity | vm_compute; lia]|].
  split; [rewrite Hpoll; vm_compute; reflexivity|].
  split; [rewrite Hpoll'; vm_compute; reflexivity|].
  apply Hout; [reflexivity|]. apply (bool_decide_unpack _). by vm_compute.
Defined.

(** ** Entries of one batch with the same identifier, in a cycle *)

(** C10.  The new entries of a cycle are chosen against the seen-sequence
    as it is before any entry is processed.  So when the feed holds two
    entries with one identifier that is not in it, both are new entries
    and each gets its webhook call, the later entry of the feed first;
    the cycle stores the last 1000 of the seen-sequence followed by what
    the loop appends, in which the identifier comes once for each of the
    two calls that succeeds: twice when both do. *)
Theorem duplicates_within_cycle
    (cfg : config) (net : network) (state : gmap string (list string)) (w : world)
    (f : feed) (seen : list string) (l1 : list entry) (e1 : entry) (l2 : list entry)
    (e2 : entry) (l3 : list entry) :
  state !! GEEKNEWS_FEED_URL = Some seen ->
  net_feed net (clock w) GEEKNEWS_FEED_URL = Some f ->
  entries f = l1 ++ e1 :: l2 ++ e2 :: l3 ->
  entry_id e1 = entry_id e2 ->
  entry_id e1 ∉ seen ->
  let deliver := geeknews_deliver cfg net in
  let pre := reverse (geeknews_new_entries seen l3) in
  let mid := reverse (geeknews_new_entries seen l2) in
  let post := reverse (geeknews_new_entries seen l1) in
  let w2 := world_after deliver pre (tick w) in
  let sent2 :=
    send_to_mattermost net (GEEKNEWS_WEBHOOK cfg) (format_geeknews e2) w2 in
  let w1 := world_after deliver mid sent2.2 in
  let sent1 :=
    send_to_mattermost net (GEEKNEWS_WEBHOOK cfg) (format_geeknews e1) w1 in
  let w3 := world_after deliver post sent1.2 in
  let a := appended_by deliver pre (tick w) in
  let b := appended_by deliver mid sent2.2 in
  let c := appended_by deliver post sent1.2 in
  let mark := fun ok : bool => if ok then [entry_id e1] else [] in
  let appended := a ++ mark sent2.1 ++ b ++ mark sent1.1 ++ c in
  geeknews_new_entries seen (entries f) =
    geeknews_new_entries seen l1 ++ e1 ::
    geeknews_new_entries seen l2 ++ e2 :: geeknews_new_entries seen l3 /\
  reverse (geeknews_new_entries seen (entries f)) = pre ++ e2 :: mid ++ e1 :: post /\
  for_each deliver (reverse (geeknews_new_entries seen (entries f))) seen (tick w)
  = (seen ++ appended, w3) /\
  poll_geeknews cfg net state w =
    (<[GEEKNEWS_FEED_URL := Py.last_n MAX_IDS_PER_FEED (seen ++ appended)]> state, w3) /\
  outbox w3 =
    outbox w ++ posts_since (tick w) w2
    ++ posted (GEEKNEWS_WEBHOOK cfg) (format_geeknews e2) sent2.1 :: posts_since sent2.2 w1
    ++ posted (GEEKNEWS_WEBHOOK cfg) (format_geeknews e1) sent1.1 :: posts_since sent1.2 w3 /\
  (sent2.1 = true -> sent1.1 = true ->
   appended = a ++ entry_id e1 :: b ++ entry_id e1 :: c).
Proof.
  intros Hst Hf Hent Hid Hnew deliver pre mid post w2 sent2 w1 sent1 w3 a b c mark appended.
  assert (entry_id e2 ∉ seen) as Hnew2 by (by rewrite <- Hid).
  assert (geeknews_new_entries seen (entries f) =
          geeknews_new_entries seen l1 ++ e1 ::
          geeknews_new_entries seen l2 ++ e2 :: geeknews_new_entries seen l3) as Hsplit.
  { rewrite Hent. by apply new_entries_split. }
  assert (reverse (geeknews_new_entries seen (entries f)) =
          pre ++ e2 :: mid ++ e1 :: post) as Hrev.
  { rewrite Hsplit. apply reverse_two_marked. }
  pose proof (geeknews_deliver_regardless cfg net) as Hreg. fold deliver in Hreg.
  assert (appended_by deliver (pre ++ e2 :: mid ++ e1 :: post) (tick w) = appended /\
          world_after deliver (pre ++ e2 :: mid ++ e1 :: post) (tick w) = w3) as [Happ Hw].
  { destruct (appended_by_app deliver pre (e2 :: mid ++ e1 :: post) (tick w) Hreg)
      as [-> ->]. fold a w2.
    destruct (appended_by_cons deliver e2 (mid ++ e1 :: post) w2 Hreg) as [-> ->].
    assert (deliver e2 [] w2 = (mark sent2.1, sent2.2)) as ->.
    { subst deliver mark. rewrite geeknews_deliver_eq. fold sent2. rewrite Hid.
      by destruct sent2.1. }
    cbn [fst snd].
    destruct (appended_by_app deliver mid (e1 :: post) sent2.2 Hreg) as [-> ->].
    fold b w1.
    destruct (appended_by_cons deliver e1 post w1 Hreg) as [-> ->].
    assert (deliver e1 [] w1 = (mark sent1.1, sent1.2)) as ->.
    { subst deliver mark. rewrite geeknews_deliver_eq. fold sent1.
      by destruct sent1.1. }
    cbn [fst snd]. done. }
  assert (for_each deliver (reverse (geeknews_new_entries seen (entries f))) seen (tick w)
          = (seen ++ appended, w3)) as Hloop.
  { by rewrite Hrev, (for_each_from_nil deliver Hreg), Happ, Hw. }
  split; [done|]. split; [done|]. split; [done|]. split; [|split].
  - rewrite (poll_geeknews_steady cfg net state w f seen Hst Hf).
    + fold deliver. by rewrite Hloop.
    + rewrite Hsplit. by destruct (geeknews_new_entries seen l1).
  - subst w3. unfold deliver. rewrite geeknews_loop_posts. fold deliver.
    subst sent1. rewrite send_to_mattermost_eq. cbn [snd outbox fst].
    subst w1. unfold deliver. rewrite geeknews_loop_posts. fold deliver.
    subst sent2. rewrite send_to_mattermost_eq. cbn [snd outbox fst].
    subst w2. unfold deliver. rewrite geeknews_loop_posts. fold deliver.
    cbn [tick outbox]. by rewrite <- !app_assoc.
  - intros Hok2 Hok1. subst appended mark. cbn beta. by rewrite Hok2, Hok1.
Qed.

(** Over [dup_net]: three calls, for "Again", "Other" and "First", and
    the identifier [a] stored twice. *)
Lemma duplicates_within_cycle_witness :
  (p_text <$> outbox (poll_geeknews example_cfg dup_net feed_before example_world).2
   = [format_geeknews (feed_entry "a" "Again");
      format_geeknews (feed_entry "b" "Other");
      format_geeknews (feed_entry "a" "First")]) /\
  (poll_geeknews example_cfg dup_net feed_before example_world).1
  = {[ GEEKNEWS_FEED_URL := ["z"; "a"; "b"; "a"] ]}.
Proof.
  destruct (duplicates_within_cycle example_cfg dup_net feed_before example_world
              dup_feed ["z"] [] (feed_entry "a" "First") [feed_entry "b" "Other"]
              (feed_entry "a" "Again") [])
    as (_ & _ & _ & Hpoll & _ & _).
  - reflexivity.
  - reflexivity.
  - reflexivity.
  - reflexivity.
  - apply (bool_decide_unpack _). by vm_compute.
  - rewrite Hpoll. split; vm_compute; reflexivity.
Defined.

(** * Further properties *)

(** ** The matcher on the patterns of [strip_html] *)

Lemma matchk_rep_chr_gen p k n : forall min s, (length s <= n)%nat ->
  (fix loop (n : nat) (min : nat) (s : list N) : option (list N) :=
     let stop := match min with O => k s | S _ => None end in
     match n with
     | O => stop
     | S n' =>
         match Re.matchk (Re.Chr p) s (fun s' =>
                 if (length s' <? length s)%nat
                 then loop n' (Nat.pred min) s' else None) with
         | Some rest => Some rest
         | None => stop
         end
     end) n min s = rep_chr p k min s.
Proof.
  induction n as [|n IH]; intros min s Hlen.
  - destruct s; [|simpl in Hlen; lia]. by destruct min.
  - destruct s as [|c s1]; [by destruct min|].
    cbn [Re.matchk rep_chr]. destruct (p c); [|done].
    assert ((length s1 <? length (c :: s1))%nat = true) as ->
      by (apply Nat.ltb_lt; simpl; lia).
    rewrite IH by (simpl in Hlen; lia). done.
Qed.

Lemma matchk_rep_chr p k min s :
  Re.matchk (Re.Rep min (Re.Chr p)) s k = rep_chr p k min s.
Proof. apply (matchk_rep_chr_gen p k (length s)). lia. Qed.

(** With a continuation that accepts everything the repetition takes the
    whole run. *)
Lemma rep_chr_all p min s :
  rep_chr p Some min s =
  if (min <=? run_len p s)%nat then Some (drop (run_len p s) s) else None.
Proof.
  revert min. induction s as [|c s1 IH]; intros min.
  - by destruct min.
  - cbn [rep_chr run_len]. destruct (p c).
    + rewrite IH. destruct min as [|min]; simpl.
      * by destruct (run_len p s1).
      * by destruct (min <=? run_len p s1)%nat.
    + by destruct min.
Qed.

Lemma matchk_cat r1 r2 s k :
  Re.matchk (Re.Cat r1 r2) s k = Re.matchk r1 s (fun s' => Re.matchk r2 s' k).
Proof. reflexivity. Qed.

Lemma matchk_chr_cons p c s k :
  Re.matchk (Re.Chr p) (c :: s) k = if p c then k s else None.
Proof. reflexivity. Qed.

Lemma match_len_le r s m : Re.match_len r s = Some m -> (m <= length s)%nat.
Proof.
  unfold Re.match_len. destruct (Re.matchk r s Some); [|done].
  intros [= <-]. lia.
Qed.

Lemma match_len_blank s :
  Re.match_len re_blank s =
  if (3 <=? run_len (N.eqb line_break) s)%nat
  then Some (run_len (N.eqb line_break) s) else None.
Proof.
  unfold Re.match_len, re_blank, Re.lit. rewrite matchk_rep_chr, rep_chr_all.
  destruct (3 <=? _)%nat; [|done]. f_equal. rewrite length_drop.
  assert (run_len (N.eqb line_break) s <= length s)%nat; [|lia].
  clear. induction s as [|c s IH]; cbn [run_len length]; [lia|].
  destruct (N.eqb line_break c); lia.
Qed.

(** The continuation of [<[^>]+>] after the repetition: a [>]. *)
Lemma match_len_tag s :
  Re.match_len re_tag s =
  match s with
  | c :: s1 =>
      if N.eqb lt_sign c then
        match rep_chr (fun c => negb (N.eqb c gt_sign))
                (fun t => Re.matchk (Re.lit ">") t Some) 1 s1 with
        | Some rest => Some (length s - length rest)%nat
        | None => None
        end
      else None
  | [] => None
  end.
Proof.
  unfold Re.match_len, re_tag. destruct s as [|c s1]; [done|].
  rewrite matchk_cat. unfold Re.lit at 1. rewrite matchk_chr_cons.
  destruct (N.eqb lt_sign c); [|done].
  by rewrite matchk_cat, matchk_rep_chr.
Qed.

Lemma rep_tag_none_without_gt min s :
  gt_sign ∉ s ->
  rep_chr (fun c => negb (N.eqb c gt_sign))
    (fun t => Re.matchk (Re.lit ">") t Some) min s = None.
Proof.
  revert min. induction s as [|c s1 IH]; intros min Hno.
  - by destruct min.
  - cbn [rep_chr]. rewrite IH by set_solver.
    assert (N.eqb gt_sign c = false) as Hc.
    { apply N.eqb_neq. set_solver. }
    unfold Re.lit. cbn [Re.matchk]. rewrite Hc.
    by destruct (negb _), min.
Qed.

Lemma rep_tag_some_with_gt min s :
  gt_sign ∈ s ->
  (min <= run_len (fun c => negb (N.eqb c gt_sign)) s)%nat ->
  is_Some (rep_chr (fun c => negb (N.eqb c gt_sign))
             (fun t => Re.matchk (Re.lit ">") t Some) min s).
Proof.
  revert min. induction s as [|c s1 IH]; intros min Hin Hmin.
  - by apply elem_of_nil in Hin.
  - cbn [rep_chr run_len] in *. destruct (N.eqb c gt_sign) eqn:Hc; simpl in *.
    + apply N.eqb_eq in Hc as ->. assert (min = 0%nat) as -> by lia.
      unfold Re.lit. by cbn.
    + assert (gt_sign ∈ s1) as Hin1.
      { apply elem_of_cons in Hin as [Heq|]; [|done].
        subst c. by rewrite N.eqb_refl in Hc. }
      destruct (IH (Nat.pred min) Hin1) as [r ->]; [lia|]. done.
Qed.

(** A [<] opens a tag exactly when a [>] comes later with something in
    between. *)
Lemma match_len_tag_none c s1 :
  Re.match_len re_tag (c :: s1) = None <->
  (c = lt_sign -> (exists s2, s1 = gt_sign :: s2) \/ gt_sign ∉ s1).
Proof.
  rewrite match_len_tag. split.
  - intros Hnone ->. rewrite N.eqb_refl in Hnone.
    destruct s1 as [|d s2]; [right; set_solver|].
    destruct (N.eqb d gt_sign) eqn:Hd.
    { apply N.eqb_eq in Hd as ->. left. by eexists. }
    right. intros Hin.
    destruct (rep_tag_some_with_gt 1 (d :: s2) Hin) as [r Hr].
    { cbn [run_len]. rewrite Hd. simpl. lia. }
    by rewrite Hr in Hnone.
  - intros H. destruct (N.eqb lt_sign c) eqn:Hc; [|done].
    apply N.eqb_eq in Hc. destruct (H (eq_sym Hc)) as [[s2 ->] | Hno].
    + by cbn.
    + by rewrite rep_tag_none_without_gt.
Qed.

Lemma match_len_tag_nil : Re.match_len re_tag [] = None.
Proof. done. Qed.

(** Patterns that begin with a literal [<] only match at a [<]. *)
Lemma match_len_lit_head c0 r c s1 :
  c <> Re.code c0 -> Re.match_len (Re.Cat (Re.lit c0) r) (c :: s1) = None.
Proof.
  intros Hc. unfold Re.match_len. rewrite matchk_cat. unfold Re.lit.
  rewrite matchk_chr_cons.
  apply N.eqb_neq in Hc. rewrite N.eqb_sym in Hc. by rewrite Hc.
Qed.

Lemma match_len_li_lt c s1 : c <> lt_sign -> Re.match_len re_li (c :: s1) = None.
Proof. intros Hc. unfold re_li. cbn [Re.lits]. by apply match_len_lit_head. Qed.

Lemma match_len_br_lt c s1 : c <> lt_sign -> Re.match_len re_br (c :: s1) = None.
Proof. intros Hc. unfold re_br. cbn [Re.lits]. by apply match_len_lit_head. Qed.

Lemma match_len_tag_lt c s1 : c <> lt_sign -> Re.match_len re_tag (c :: s1) = None.
Proof. intros Hc. by apply match_len_tag_none. Qed.

(** ** Substitution *)

Lemma sub_go_skip r repl k s :
  (k <= length s)%nat -> Re.sub_go r repl k s = Re.sub_go r repl 0 (drop k s).
Proof.
  revert s. induction k as [|k IH]; intros s Hk; [done|].
  destruct s as [|c s1]; [simpl in Hk; lia|].
  cbn [Re.sub_go drop]. apply IH. simpl in Hk. lia.
Qed.

Lemma sub_go_cons r repl c s1 :
  Re.sub_go r repl 0 (c :: s1) =
  match Re.match_len r (c :: s1) with
  | Some (S k) => repl ++ Re.sub_go r repl 0 (drop k s1)
  | Some O => repl ++ c :: Re.sub_go r repl 0 s1
  | None => c :: Re.sub_go r repl 0 s1
  end.
Proof.
  cbn [Re.sub_go]. destruct (Re.match_len r (c :: s1)) as [[|k]|] eqn:Hm; [done| |done].
  rewrite sub_go_skip; [done|]. apply match_len_le in Hm. simpl in Hm. lia.
Qed.

(** Induction on the input of a substitution, following the scan. *)
Lemma sub_go_ind r repl (P : list N -> list N -> Prop) :
  P [] (Re.sub_go r repl 0 []) ->
  (forall c s1,
     Re.match_len r (c :: s1) = None ->
     P s1 (Re.sub_go r repl 0 s1) ->
     P (c :: s1) (c :: Re.sub_go r repl 0 s1)) ->
  (forall c s1,
     Re.match_len r (c :: s1) = Some O ->
     P s1 (Re.sub_go r repl 0 s1) ->
     P (c :: s1) (repl ++ c :: Re.sub_go r repl 0 s1)) ->
  (forall c s1 k,
     Re.match_len r (c :: s1) = Some (S k) ->
     P (drop k s1) (Re.sub_go r repl 0 (drop k s1)) ->
     P (c :: s1) (repl ++ Re.sub_go r repl 0 (drop k s1))) ->
  forall s, P s (Re.sub_go r repl 0 s).
Proof.
  intros Hnil Hnone Hzero Hsome s.
  induction s as [s IH] using (induction_ltof1 _ (@length N)). unfold ltof in IH.
  destruct s as [|c s1]; [done|].
  rewrite sub_go_cons. destruct (Re.match_len r (c :: s1)) as [[|k]|] eqn:Hm.
  - apply Hzero; [done|]. apply IH. simpl. lia.
  - apply Hsome; [done|]. apply IH. rewrite length_drop. simpl. lia.
  - apply Hnone; [done|]. apply IH. simpl. lia.
Qed.

(** ** [strip_html] on every input *)

Lemma strip_html_chars html :
  Text.strip_html html =
  Py.rstrip (Py.lstrip
    (Re.sub_go re_blank [line_break; line_break] 0
       (Re.sub_go re_tag [] 0
          (Re.sub_go re_br [line_break] 0
             (Re.sub_go re_li [Re.code "-"; Re.code " "] 0 html))))).
Proof. reflexivity. Qed.

Lemma lstrip_suffix s : exists t, s = t ++ Py.lstrip s.
Proof.
  induction s as [|c s IH]; [by exists []|].
  cbn [Py.lstrip]. destruct (Py.isspace c).
  - destruct IH as [t Ht]. exists (c :: t). simpl. by rewrite <- Ht.
  - by exists [].
Qed.

Lemma rstrip_prefix s : exists t, s = Py.rstrip s ++ t.
Proof.
  unfold Py.rstrip. destruct (lstrip_suffix (rev s)) as [t Ht].
  exists (rev t). rewrite <- rev_app_distr, <- Ht. by rewrite rev_involutive.
Qed.

Lemma lstrip_head c s1 s : Py.lstrip s = c :: s1 -> Py.isspace c = false.
Proof.
  induction s as [|d s IH]; [done|]. cbn [Py.lstrip].
  destruct (Py.isspace d) eqn:Hd; [done|]. by intros [= <- _].
Qed.

Lemma lstrip_fixed c s1 : Py.isspace c = false -> Py.lstrip (c :: s1) = c :: s1.
Proof. intros H. cbn [Py.lstrip]. by rewrite H. Qed.

(** What [strip] leaves neither begins nor ends with white space. *)
Lemma strip_ends s : trimmed (Py.rstrip (Py.lstrip s)).
Proof.
  unfold trimmed.
  destruct (Py.lstrip s) as [|c s1] eqn:Hl; [done|].
  pose proof (lstrip_head _ _ _ Hl) as Hc.
  unfold Py.rstrip.
  destruct (Py.lstrip (rev (c :: s1))) as [|d t] eqn:Hr.
  - done.
  - pose proof (lstrip_head _ _ _ Hr) as Hd.
    destruct (lstrip_suffix (rev (c :: s1))) as [u Hu]. rewrite Hr in Hu.
    assert (c :: s1 = rev t ++ d :: rev u) as Hshape.
    { rewrite <- (rev_involutive (c :: s1)), Hu, rev_app_distr. simpl.
      by rewrite <- app_assoc. }
    simpl rev. destruct (rev t) as [|e t'] eqn:Ht.
    + simpl in *. injection Hshape as -> _. done.
    + simpl in Hshape. injection Hshape as -> _. split; [done|].
      change (e :: t' ++ [d]) with ((e :: t') ++ [d]). by rewrite List.last_last.
Qed.

(** *** Runs of line breaks *)

Lemma has_blank_run_cons a s1 :
  has_blank_run_go (a :: s1) =
  (3 <=? run_len (N.eqb line_break) (a :: s1))%nat || has_blank_run_go s1.
Proof.
  cbn [has_blank_run_go run_len].
  rewrite (N.eqb_sym a line_break).
  destruct s1 as [|b [|c s3]]; cbn [run_len].
  - by destruct (N.eqb line_break a).
  - by destruct (N.eqb line_break a), (N.eqb line_break b).
  - rewrite (N.eqb_sym b line_break), (N.eqb_sym c line_break).
    by destruct (N.eqb line_break a), (N.eqb line_break b), (N.eqb line_break c).
Qed.

Lemma has_blank_run_tail a s1 :
  has_blank_run_go (a :: s1) = false -> has_blank_run_go s1 = false.
Proof. rewrite has_blank_run_cons. by intros [_ ?]%orb_false_elim. Qed.

Lemma has_blank_run_suffix t s :
  has_blank_run_go (t ++ s) = false -> has_blank_run_go s = false.
Proof.
  induction t as [|a t IH]; [done|]. simpl app. intros H.
  by apply IH, (has_blank_run_tail a).
Qed.

Lemma run_len_app_le p s t : (run_len p s <= run_len p (s ++ t))%nat.
Proof.
  induction s as [|c s IH]; cbn [run_len app]; [lia|]. destruct (p c); lia.
Qed.

Lemma has_blank_run_prefix s t :
  has_blank_run_go (s ++ t) = false -> has_blank_run_go s = false.
Proof.
  induction s as [|a s IH]; [done|].
  change ((a :: s) ++ t) with (a :: (s ++ t)). rewrite !has_blank_run_cons.
  intros [Hrun Htail]%orb_false_elim. apply orb_false_intro; [|by apply IH].
  apply Nat.leb_gt. apply Nat.leb_gt in Hrun.
  pose proof (run_len_app_le (N.eqb line_break) (a :: s) t). simpl app in *. lia.
Qed.

Lemma run_len_drop p s : run_len p (drop (run_len p s) s) = 0%nat.
Proof.
  induction s as [|c s IH]; [done|]. cbn [run_len].
  destruct (p c) eqn:Hc; [done|]. cbn [drop run_len]. by rewrite Hc.
Qed.

(** After the substitution of [\n{3,}] a run of line breaks is the run of
    the input, cut to two. *)
Lemma sub_blank_run s :
  run_len (N.eqb line_break) (Re.sub_go re_blank [line_break; line_break] 0 s)
  = Nat.min 2 (run_len (N.eqb line_break) s) /\
  has_blank_run_go (Re.sub_go re_blank [line_break; line_break] 0 s) = false.
Proof.
  apply (sub_go_ind re_blank [line_break; line_break]
           (fun s o => run_len (N.eqb line_break) o
                       = Nat.min 2 (run_len (N.eqb line_break) s) /\
                       has_blank_run_go o = false)).
  - done.
  - intros c s1 Hm [Hrun Hno]. rewrite match_len_blank in Hm.
    destruct (3 <=? _)%nat eqn:Hle; [done|]. apply Nat.leb_gt in Hle.
    assert (run_len (N.eqb line_break) (c :: Re.sub_go re_blank [line_break; line_break] 0 s1)
            = Nat.min 2 (run_len (N.eqb line_break) (c :: s1))) as Hr.
    { cbn [run_len] in *. destruct (N.eqb line_break c); [|done]. rewrite Hrun. lia. }
    split; [done|]. rewrite has_blank_run_cons, Hr, Hno.
    apply orb_false_intro; [|done]. apply Nat.leb_gt. lia.
  - intros c s1 Hm _. rewrite match_len_blank in Hm.
    destruct (3 <=? _)%nat eqn:Hle; [|done]. apply Nat.leb_le in Hle.
    assert (run_len (N.eqb line_break) (c :: s1) = 0%nat) by congruence. lia.
  - intros c s1 k Hm [Hrun Hno]. rewrite match_len_blank in Hm.
    destruct (3 <=? _)%nat eqn:Hle; [|done]. apply Nat.leb_le in Hle.
    assert (run_len (N.eqb line_break) (c :: s1) = S k) as Hk by congruence.
    assert (run_len (N.eqb line_break) (drop k s1) = 0%nat) as Hzero.
    { change (drop k s1) with (drop (S k) (c :: s1)). rewrite <- Hk.
      apply run_len_drop. }
    rewrite Hzero in Hrun.
    set (o := Re.sub_go re_blank [line_break; line_break] 0 (drop k s1)) in *.
    assert (run_len (N.eqb line_break) ([line_break; line_break] ++ o) = 2%nat) as Hr.
    { cbn [app run_len]. rewrite N.eqb_refl, Hrun. done. }
    split; [rewrite Hr; lia|].
    change ([line_break; line_break] ++ o) with (line_break :: line_break :: o).
    rewrite has_blank_run_cons.
    change (line_break :: line_break :: o) with ([line_break; line_break] ++ o). rewrite Hr.
    rewrite has_blank_run_cons. cbn [run_len]. rewrite N.eqb_refl, Hrun, Hno. done.
Qed.

Lemma strip_chars_no_blank_run html :
  has_blank_run_go (Text.strip_html html) = false.
Proof.
  rewrite strip_html_chars.
  set (t := Re.sub_go re_blank _ 0 _).
  destruct (rstrip_prefix (Py.lstrip t)) as [u Hu].
  destruct (lstrip_suffix t) as [v Hv].
  apply (has_blank_run_prefix _ u). rewrite <- Hu.
  apply (has_blank_run_suffix v). rewrite <- Hv.
  apply sub_blank_run.
Qed.

Lemma strip_chars_trimmed html : trimmed (Text.strip_html html).
Proof. rewrite strip_html_chars. apply strip_ends. Qed.

(** *** Tags *)

Lemma rep_tag_shorter min s r :
  rep_chr (fun c => negb (N.eqb c gt_sign))
    (fun t => Re.matchk (Re.lit ">") t Some) min s = Some r ->
  (length r < length s)%nat.
Proof.
  revert min r. induction s as [|c s1 IH]; intros min r.
  - by destruct min.
  - cbn [rep_chr]. unfold Re.lit. rewrite matchk_chr_cons.
    assert (forall o : option (list N),
              match min with O => if N.eqb gt_sign c then Some s1 else None | S _ => None end
              = o -> o = Some r -> (length r < length (c :: s1))%nat) as Hstop.
    { intros o <- Ho. destruct min; [|done]. destruct (N.eqb gt_sign c); [|done].
      injection Ho as <-. simpl. lia. }
    destruct (negb (N.eqb c gt_sign)).
    + destruct (rep_chr _ _ (Nat.pred min) s1) as [r'|] eqn:Hin.
      * intros [= <-]. apply IH in Hin. simpl. lia.
      * by apply Hstop.
    + by apply Hstop.
Qed.

Lemma match_len_tag_pos c s1 : Re.match_len re_tag (c :: s1) <> Some O.
Proof.
  rewrite match_len_tag. destruct (N.eqb lt_sign c); [|done].
  destruct (rep_chr _ _ 1 s1) as [r|] eqn:Hr; [|done].
  apply rep_tag_shorter in Hr. intros [= H]. simpl in H. lia.
Qed.

Lemma elem_of_drop_list {A} (x : A) n (l : list A) : x ∈ drop n l -> x ∈ l.
Proof. intros H. rewrite <- (take_drop n l). apply elem_of_app. by right. Qed.

(** Once the tags are taken out, no [<] opens a tag. *)
Lemma sub_tag_free s :
  tag_free (Re.sub_go re_tag [] 0 s) /\
  (forall x, x ∈ Re.sub_go re_tag [] 0 s -> x ∈ s) /\
  (forall s2, s = gt_sign :: s2 -> exists o2, Re.sub_go re_tag [] 0 s = gt_sign :: o2).
Proof.
  apply (sub_go_ind re_tag []
           (fun s o => tag_free o /\ (forall x, x ∈ o -> x ∈ s) /\
                       (forall s2, s = gt_sign :: s2 -> exists o2, o = gt_sign :: o2))).
  - done.
  - intros c s1 Hm (Hfree & Hsub & Hgt). split; [|split].
    + cbn [tag_free]. split; [|done]. intros Hc.
      destruct (proj1 (match_len_tag_none c s1) Hm Hc) as [[s2 ->] | Hno].
      * left. by apply (Hgt s2).
      * right. intros Hin. by apply Hno, Hsub.
    + intros x [->|Hx]%elem_of_cons; [left|right; by apply Hsub].
    + intros s2 [= -> _]. by eexists.
  - intros c s1 Hm _. by apply match_len_tag_pos in Hm.
  - intros c s1 k Hm (Hfree & Hsub & _). simpl app. split; [done|]. split.
    + intros x Hx. right. by apply (elem_of_drop_list x k), Hsub.
    + intros s2 [= -> _]. by rewrite match_len_tag_lt in Hm.
Qed.

Lemma drops_newlines_elem s o x : drops_newlines s o -> x ∈ o -> x ∈ s.
Proof.
  induction 1 as [|c s o _ IH|s o _ IH]; [done| |].
  - intros [->|Hx]%elem_of_cons; [left | right; by apply IH].
  - intros Hx. right. by apply IH.
Qed.

Lemma drops_newlines_tag_free s o : drops_newlines s o -> tag_free s -> tag_free o.
Proof.
  induction 1 as [|c s o Hd IH|s o Hd IH]; [done| |].
  - cbn [tag_free]. intros [Hc Hfree]. split; [|by apply IH].
    intros Heq. destruct (Hc Heq) as [[s2 ->] | Hno].
    + left. inversion Hd; subst; by eexists.
    + right. intros Hin. by apply Hno, (drops_newlines_elem s o).
  - cbn [tag_free]. intros [_ Hfree]. by apply IH.
Qed.

Lemma drops_leading_newlines n s o :
  (n <= run_len (N.eqb line_break) s)%nat ->
  drops_newlines (drop n s) o -> drops_newlines s o.
Proof.
  revert s. induction n as [|n IH]; intros s Hn Hd; [done|].
  destruct s as [|c s1]; [simpl in Hn; lia|]. cbn [run_len drop] in *.
  destruct (N.eqb line_break c) eqn:Hc; [|lia].
  apply N.eqb_eq in Hc as <-. apply drops_drop, IH; [lia|done].
Qed.

(** The substitution of [\n{3,}] only takes line breaks out. *)
Lemma sub_blank_drops s :
  drops_newlines s (Re.sub_go re_blank [line_break; line_break] 0 s).
Proof.
  apply (sub_go_ind re_blank [line_break; line_break] drops_newlines).
  - constructor.
  - intros c s1 _ Hd. by constructor.
  - intros c s1 Hm _. rewrite match_len_blank in Hm.
    destruct (3 <=? _)%nat eqn:Hle; [|done]. apply Nat.leb_le in Hle.
    assert (run_len (N.eqb line_break) (c :: s1) = 0%nat) by congruence. lia.
  - intros c s1 k Hm Hd. rewrite match_len_blank in Hm.
    destruct (3 <=? _)%nat eqn:Hle; [|done]. apply Nat.leb_le in Hle.
    assert (run_len (N.eqb line_break) (c :: s1) = S k) as Hk by congruence.
    assert (2 <= k)%nat as Hk2 by lia. clear Hm Hle.
    cbn [run_len] in Hk. destruct (N.eqb line_break c) eqn:Hc; [|done].
    apply N.eqb_eq in Hc as <-. apply (inj S) in Hk.
    destruct s1 as [|d s2]; [simpl in Hk; lia|]. cbn [run_len] in Hk.
    destruct (N.eqb line_break d) eqn:Hd'; [|lia].
    apply N.eqb_eq in Hd' as <-.
    destruct k as [|k]; [lia|]. simpl app. cbn [drop] in Hd.
    do 2 apply drops_keep. apply (drops_leading_newlines k); [lia|done].
Qed.

Lemma tag_free_suffix t s : tag_free (t ++ s) -> tag_free s.
Proof. induction t as [|c t IH]; [done|]. simpl. intros [_ H]. by apply IH. Qed.

Lemma tag_free_prefix s t : tag_free (s ++ t) -> tag_free s.
Proof.
  induction s as [|c s IH]; [done|]. simpl. intros [Hc Hfree]. split; [|by apply IH].
  intros Heq. destruct (Hc Heq) as [[s2 Hs2] | Hno].
  - destruct s as [|d s']; [right; set_solver|]. simpl in Hs2. injection Hs2 as -> _.
    left. by eexists.
  - right. set_solver.
Qed.

Lemma tag_free_no_tag s : tag_free s -> has_tag_go s = false.
Proof.
  induction s as [|c s1 IH]; [done|]. cbn [tag_free]. intros [Hc Hfree].
  cbn [has_tag_go]. rewrite (proj2 (match_len_tag_none c s1) Hc). by apply IH.
Qed.

Lemma strip_chars_tag_free html : tag_free (Text.strip_html html).
Proof.
  rewrite strip_html_chars.
  set (t := Re.sub_go re_tag [] 0 _).
  set (b := Re.sub_go re_blank _ 0 t).
  destruct (rstrip_prefix (Py.lstrip b)) as [u Hu].
  destruct (lstrip_suffix b) as [v Hv].
  apply (tag_free_prefix _ u). rewrite <- Hu.
  apply (tag_free_suffix v). rewrite <- Hv.
  apply (drops_newlines_tag_free t); [apply sub_blank_drops | apply sub_tag_free].
Qed.

(** *** Text without markup *)

Lemma sub_go_without_lt r repl s :
  (forall c s1, c <> lt_sign -> Re.match_len r (c :: s1) = None) ->
  Re.match_len r [] = None ->
  lt_sign ∉ s ->
  Re.sub_go r repl 0 s = s.
Proof.
  intros Hhead Hnil. induction s as [|c s1 IH]; intros Hno.
  - cbn [Re.sub_go]. by rewrite Hnil.
  - cbn [Re.sub_go]. rewrite Hhead by set_solver. f_equal. apply IH. set_solver.
Qed.

Lemma sub_blank_without_run s :
  has_blank_run_go s = false -> Re.sub_go re_blank [line_break; line_break] 0 s = s.
Proof.
  induction s as [|c s1 IH]; intros Hno.
  - done.
  - rewrite has_blank_run_cons in Hno. apply orb_false_elim in Hno as [Hrun Htail].
    cbn [Re.sub_go]. rewrite match_len_blank, Hrun. f_equal. by apply IH.
Qed.

Lemma strip_chars_plain_text html :
  lt_sign ∉ html -> has_blank_run_go html = false ->
  Text.strip_html html = Py.strip html.
Proof.
  intros Hlt Hrun. rewrite strip_html_chars.
  rewrite (sub_go_without_lt re_li) by (done || apply match_len_li_lt).
  rewrite (sub_go_without_lt re_br) by (done || apply match_len_br_lt).
  rewrite (sub_go_without_lt re_tag) by (done || apply match_len_tag_lt).
  by rewrite sub_blank_without_run.
Qed.


(** ** Stripping twice *)

Lemma rep_chr_none_without_gt p k min s :
  (forall t, gt_sign ∉ t -> k t = None) ->
  gt_sign ∉ s -> rep_chr p k min s = None.
Proof.
  intros Hk. revert min. induction s as [|c s1 IH]; intros min Hno.
  - cbn [rep_chr]. destruct min; [by apply Hk|done].
  - cbn [rep_chr]. rewrite IH by set_solver. rewrite (Hk (c :: s1)) by done.
    by destruct (p c), min.
Qed.

Lemma match_lit_gt_none t :
  gt_sign ∉ t -> Re.matchk (Re.lit ">") t Some = None.
Proof.
  destruct t as [|c t]; [done|]. intros Hno. unfold Re.lit. rewrite matchk_chr_cons.
  assert (N.eqb gt_sign c = false) as ->; [|done].
  apply N.eqb_neq. set_solver.
Qed.

Lemma matchk_opt r1 s k :
  Re.matchk (Re.Opt r1) s k =
  match Re.matchk r1 s k with Some rest => Some rest | None => k s end.
Proof. reflexivity. Qed.

Lemma match_br_tail_none t :
  gt_sign ∉ t ->
  Re.matchk (Re.Cat (Re.Opt (Re.lit "/")) (Re.lit ">")) t Some = None.
Proof.
  intros Ht. rewrite matchk_cat, matchk_opt. rewrite (match_lit_gt_none t Ht).
  destruct t as [|d t1]; [done|]. unfold Re.lit at 1. rewrite matchk_chr_cons.
  destruct (N.eqb (Re.code "/") d); [|done]. rewrite match_lit_gt_none; [done|set_solver].
Qed.

Lemma match_len_li_without_gt s1 :
  gt_sign ∉ s1 -> Re.match_len re_li (lt_sign :: s1) = None.
Proof.
  intros Hno. unfold Re.match_len, re_li. cbn [Re.lits].
  rewrite matchk_cat. unfold Re.lit at 1. rewrite matchk_chr_cons, N.eqb_refl.
  destruct s1 as [|a s2]; [done|].
  rewrite matchk_cat. unfold Re.lit at 1. rewrite matchk_chr_cons.
  destruct (N.eqb (Re.code "l") a); [|done].
  destruct s2 as [|b s3]; [done|].
  rewrite matchk_cat. unfold Re.lit at 1. rewrite matchk_chr_cons.
  destruct (N.eqb (Re.code "i") b); [|done].
  destruct s3 as [|c s4]; [done|].
  rewrite matchk_cat. unfold Re.lit at 1. rewrite matchk_chr_cons.
  assert (N.eqb gt_sign c = false) as ->; [|done].
  apply N.eqb_neq. set_solver.
Qed.

Lemma match_len_br_without_gt s1 :
  gt_sign ∉ s1 -> Re.match_len re_br (lt_sign :: s1) = None.
Proof.
  intros Hno. unfold Re.match_len, re_br. cbn [Re.lits].
  rewrite matchk_cat. unfold Re.lit at 1. rewrite matchk_chr_cons, N.eqb_refl.
  destruct s1 as [|a s2]; [done|].
  rewrite matchk_cat. unfold Re.lit at 1. rewrite matchk_chr_cons.
  destruct (N.eqb (Re.code "b") a); [|done].
  destruct s2 as [|b s3]; [done|].
  rewrite matchk_cat. unfold Re.lit at 1. rewrite matchk_chr_cons.
  destruct (N.eqb (Re.code "r") b); [|done].
  rewrite matchk_cat, matchk_rep_chr.
  rewrite rep_chr_none_without_gt; [done|apply match_br_tail_none|set_solver].
Qed.

Lemma match_len_li_lt_gt s2 : Re.match_len re_li (lt_sign :: gt_sign :: s2) = None.
Proof. done. Qed.

Lemma match_len_br_lt_gt s2 : Re.match_len re_br (lt_sign :: gt_sign :: s2) = None.
Proof. done. Qed.

(** On a text where no [<] opens a tag, none of the three tag patterns
    matches anywhere. *)
Lemma sub_go_tag_free r repl s :
  (forall c s1, c <> lt_sign -> Re.match_len r (c :: s1) = None) ->
  (forall s2, Re.match_len r (lt_sign :: gt_sign :: s2) = None) ->
  (forall s1, gt_sign ∉ s1 -> Re.match_len r (lt_sign :: s1) = None) ->
  Re.match_len r [] = None ->
  tag_free s -> Re.sub_go r repl 0 s = s.
Proof.
  intros Hother Hgt Hno Hnil. induction s as [|c s1 IH]; intros Hfree.
  - cbn [Re.sub_go]. by rewrite Hnil.
  - cbn [tag_free] in Hfree. destruct Hfree as [Hc Hfree].
    cbn [Re.sub_go].
    assert (Re.match_len r (c :: s1) = None) as ->.
    { destruct (decide (c = lt_sign)) as [->|Hne]; [|by apply Hother].
      destruct (Hc eq_refl) as [[s2 ->] | Hs1]; [apply Hgt | by apply Hno]. }
    f_equal. by apply IH.
Qed.

Lemma lstrip_rstrip_fixed s : trimmed s -> Py.rstrip (Py.lstrip s) = s.
Proof.
  destruct s as [|c s1]; [done|]. intros [Hc Hlast].
  rewrite lstrip_fixed by done. unfold Py.rstrip.
  destruct (rev (c :: s1)) as [|d t] eqn:Hrev.
  { apply (f_equal (@rev N)) in Hrev. rewrite rev_involutive in Hrev. done. }
  assert (c :: s1 = rev t ++ [d]) as Hshape.
  { rewrite <- (rev_involutive (c :: s1)), Hrev. done. }
  rewrite Hshape in Hlast. rewrite List.last_last in Hlast.
  rewrite lstrip_fixed by done. by rewrite <- Hrev, rev_involutive.
Qed.

Lemma strip_chars_idempotent html :
  Text.strip_html (Text.strip_html html) = Text.strip_html html.
Proof.
  rewrite (strip_html_chars (Text.strip_html html)).
  set (o := Text.strip_html html).
  assert (tag_free o) as Hfree by apply strip_chars_tag_free.
  rewrite (sub_go_tag_free re_li) by
    (done || apply match_len_li_lt || apply match_len_li_without_gt).
  rewrite (sub_go_tag_free re_br) by
    (done || apply match_len_br_lt || apply match_len_br_without_gt).
  rewrite (sub_go_tag_free re_tag);
    [|apply match_len_tag_lt
     |intros s2; apply match_len_tag_none; intros _; left; by eexists
     |intros s1 Hs1; apply match_len_tag_none; intros _; by right
     |done|done].
  rewrite sub_blank_without_run by apply strip_chars_no_blank_run.
  apply lstrip_rstrip_fixed. apply strip_chars_trimmed.
Qed.

(** ** The encoding of texts *)

Local Ltac div_lia := zify; Z.to_euclidean_division_equations; lia.

Lemma encode_cp_decoded c rest :
  (c < 2097152)%N ->
  Utf8.decode_go 0 0 (Utf8.encode_cp c ++ rest) = c :: Utf8.decode_go 0 0 rest.
Proof.
  intros Hc. unfold Utf8.encode_cp.
  destruct (N.ltb_spec c 128) as [H1|H1].
  { cbn [app Utf8.decode_go]. unfold Utf8.lead.
    destruct (N.ltb_spec c 128); [done|div_lia]. }
  destruct (N.ltb_spec c 2048) as [H2|H2].
  { cbn [app Utf8.decode_go]. unfold Utf8.lead.
    destruct (N.ltb_spec (192 + c / 64) 128); [div_lia|].
    destruct (N.ltb_spec (192 + c / 64) 224); [|div_lia].
    f_equal. div_lia. }
  destruct (N.ltb_spec c 65536) as [H3|H3].
  { cbn [app Utf8.decode_go]. unfold Utf8.lead.
    destruct (N.ltb_spec (224 + c / 4096) 128); [div_lia|].
    destruct (N.ltb_spec (224 + c / 4096) 224); [div_lia|].
    destruct (N.ltb_spec (224 + c / 4096) 240); [|div_lia].
    f_equal. div_lia. }
  cbn [app Utf8.decode_go]. unfold Utf8.lead.
  destruct (N.ltb_spec (240 + c / 262144) 128); [div_lia|].
  destruct (N.ltb_spec (240 + c / 262144) 224); [div_lia|].
  destruct (N.ltb_spec (240 + c / 262144) 240); [div_lia|].
  f_equal. div_lia.
Qed.

Lemma encode_cp_bytes c :
  (c < 2097152)%N -> Forall (fun b => (b < 256)%N) (Utf8.encode_cp c).
Proof.
  intros Hc. unfold Utf8.encode_cp.
  destruct (N.ltb_spec c 128); [|destruct (N.ltb_spec c 2048);
    [|destruct (N.ltb_spec c 65536)]];
    repeat (apply Forall_cons; split; [div_lia|]); apply Forall_nil_2.
Qed.

Lemma bytes_of_ascii_of_bytes bs :
  Forall (fun b => (b < 256)%N) bs -> N_of_ascii <$> (ascii_of_N <$> bs) = bs.
Proof.
  induction 1 as [|b bs Hb _ IH]; [done|].
  cbn [fmap list_fmap]. rewrite N_ascii_embedding by done. f_equal. exact IH.
Qed.

Lemma decode_go_encoded l :
  Utf8.valid l -> Utf8.decode_go 0 0 (l ≫= Utf8.encode_cp) = l.
Proof.
  induction 1 as [|c l Hc _ IH]; [done|].
  rewrite bind_cons, encode_cp_decoded by done. by rewrite IH.
Qed.

(** Every text is what its encoding decodes to. *)
Lemma decode_encode l : Utf8.valid l -> Utf8.decode (Utf8.encode l) = l.
Proof.
  intros Hl. unfold Utf8.decode, Utf8.encode.
  rewrite list_ascii_of_string_of_list_ascii, bytes_of_ascii_of_bytes.
  - by apply decode_go_encoded.
  - apply Forall_bind. eapply Forall_impl; [exact Hl|]. apply encode_cp_bytes.
Qed.

Lemma lead_room b : room (Utf8.lead b).1 (Utf8.lead b).2 /\
  ((Utf8.lead b).1 = 0%nat -> ((Utf8.lead b).2 < 128)%N).
Proof.
  unfold Utf8.lead.
  destruct (N.ltb_spec b 128); [|destruct (N.ltb_spec b 224);
    [|destruct (N.ltb_spec b 240)]]; cbn [fst snd room]; split; try done; div_lia.
Qed.

Lemma decode_go_valid s : forall need acc,
  room need acc -> Utf8.valid (Utf8.decode_go need acc s).
Proof.
  unfold Utf8.valid.
  induction s as [|b s IH]; intros need acc Hroom; [apply Forall_nil_2|].
  cbn [Utf8.decode_go]. destruct need as [|n].
  - destruct (lead_room b) as [Hr H0]. destruct (Utf8.lead b) as [[|m] c]; cbn [fst snd] in *.
    + apply Forall_cons. split; [specialize (H0 eq_refl); lia|by apply IH].
    + by apply IH.
  - destruct n as [|[|[|n]]]; cbn [room] in Hroom; [| | |done].
    + apply Forall_cons. split; [div_lia|by apply IH].
    + apply IH. cbn [room]. div_lia.
    + apply IH. cbn [room]. div_lia.
Qed.

Lemma decode_valid s : Utf8.valid (Utf8.decode s).
Proof. by apply decode_go_valid. Qed.

(** Substitution and stripping only keep or insert code points. *)
Lemma sub_go_elem r repl x s : forall k,
  x ∈ Re.sub_go r repl k s -> x ∈ repl \/ x ∈ s.
Proof.
  induction s as [|c s IH]; intros k.
  - cbn [Re.sub_go]. destruct k, (Re.match_len r []); set_solver.
  - cbn [Re.sub_go]. destruct k as [|k].
    + destruct (Re.match_len r (c :: s)) as [[|m]|].
      * intros [?|[->|Hx]%elem_of_cons]%elem_of_app; [by left|right; left|].
        destruct (IH _ Hx); [by left|right; by right].
      * intros [?|Hx]%elem_of_app; [by left|].
        destruct (IH _ Hx); [by left|right; by right].
      * intros [->|Hx]%elem_of_cons; [right; left|].
        destruct (IH _ Hx); [by left|right; by right].
    + intros Hx. destruct (IH _ Hx); [by left|right; by right].
Qed.

Lemma sub_go_valid r repl s :
  Utf8.valid repl -> Utf8.valid s -> Utf8.valid (Re.sub_go r repl 0 s).
Proof.
  unfold Utf8.valid. rewrite !Forall_forall. intros Hrepl Hs x Hx.
  destruct (sub_go_elem _ _ _ _ _ Hx); auto.
Qed.

Lemma strip_valid s : Utf8.valid s -> Utf8.valid (Py.rstrip (Py.lstrip s)).
Proof.
  unfold Utf8.valid. intros Hs.
  destruct (lstrip_suffix s) as [t Ht].
  destruct (rstrip_prefix (Py.lstrip s)) as [u Hu].
  rewrite Ht, Hu in Hs. by apply Forall_app in Hs as [_ [? _]%Forall_app].
Qed.

Lemma strip_html_valid html : Utf8.valid html -> Utf8.valid (Text.strip_html html).
Proof.
  intros Hv. rewrite strip_html_chars.
  apply strip_valid. repeat apply sub_go_valid; try done;
    unfold Utf8.valid; repeat (apply Forall_cons; split; [by vm_compute|]);
    apply Forall_nil_2.
Qed.

(** The encoded [strip_html] holds the text that [strip_html] gives on the
    code points. *)
Lemma strip_html_decode s :
  Utf8.decode (strip_html s) = Text.strip_html (Utf8.decode s).
Proof. apply decode_encode, strip_html_valid, decode_valid. Qed.

(** A Hangul syllable whose encoding ends in the byte [0xA0] is no white
    space, while the no-break space U+00A0 and the ideographic space
    U+3000 are. *)
Lemma strip_html_keeps_hangul :
  Utf8.decode "날" = [45216%N] /\
  strip_html "<li> 날</li>　" = "- 날".
Proof. split; by vm_compute. Qed.

(** ** Identifiers of the ranked source *)

(** X6.  Every identifier the ranked source takes as new is the numeral of
    an id of the ranking, is not in the seen-sequence, and [int] gives the
    id back, so the detail fetched for it is that of the ranked item. *)
Theorem hackernews_new_ids_round_trip (seen : list string) (top_ids : list Z) (s : string) :
  s ∈ hackernews_new_ids seen top_ids ->
  (s ∉ seen) /\ (Py.int s ∈ top_ids) /\ Py.str (Py.int s) = s.
Proof.
  unfold hackernews_new_ids. intros [Hnew Hin]%list_elem_of_filter.
  apply list_elem_of_fmap in Hin as (z & -> & Hz).
  rewrite int_str. split; [set_solver|]. by split.
Qed.

Lemma hackernews_new_ids_round_trip_witness :
  ("103" ∉ ["7"]) /\ (Py.int "103" ∈ [101; 102; 103; 104]) /\
  Py.str (Py.int "103") = "103".
Proof.
  apply (hackernews_new_ids_round_trip ["7"] [101; 102; 103; 104] "103").
  apply (bool_decide_unpack _). by vm_compute.
Defined.

(** ** A cycle of the feed source, call by call *)

Section FeedCycle.

Variable cfg : config.
Variable net : network.

Lemma geeknews_deliver_world e sl w :
  clock (geeknews_deliver cfg net e sl w).2 = S (clock w) /\
  files (geeknews_deliver cfg net e sl w).2 = files w.
Proof. by rewrite geeknews_deliver_eq, send_to_mattermost_eq. Qed.

Lemma geeknews_loop_trace l sl w :
  exists posts,
    outbox (for_each (geeknews_deliver cfg net) l sl w).2 = outbox w ++ posts /\
    p_text <$> posts = format_geeknews <$> l /\
    Forall (fun p => p_url p = GEEKNEWS_WEBHOOK cfg) posts /\
    (for_each (geeknews_deliver cfg net) l sl w).1 = sl ++ delivered_ids l posts /\
    clock (for_each (geeknews_deliver cfg net) l sl w).2 = (clock w + length l)%nat /\
    files (for_each (geeknews_deliver cfg net) l sl w).2 = files w.
Proof.
  revert sl w. induction l as [|e l IH]; intros sl w.
  - exists []. simpl. rewrite !app_nil_r. repeat split; [constructor | lia].
  - rewrite for_each_cons.
    destruct (IH (geeknews_deliver cfg net e sl w).1 (geeknews_deliver cfg net e sl w).2)
      as (posts & Hout & Htext & Hurl & Hsl & Hclock & Hfiles).
    destruct (geeknews_deliver_world e sl w) as [Hc Hf].
    exists (posted (GEEKNEWS_WEBHOOK cfg) (format_geeknews e)
              (send_to_mattermost net (GEEKNEWS_WEBHOOK cfg) (format_geeknews e) w).1
            :: posts).
    rewrite Hout, Hsl, Hclock, Hfiles, Hc, Hf, geeknews_deliver_outbox.
    rewrite geeknews_deliver_eq. cbn [fst].
    repeat split.
    + by rewrite <- app_assoc.
    + by rewrite !fmap_cons, Htext.
    + by constructor.
    + cbn [delivered_ids posted p_ok].
      destruct (send_to_mattermost _ _ _ _).1; by rewrite <- ?app_assoc.
    + simpl. lia.
Qed.

Lemma geeknews_steady_effects
    (state : gmap string (list string)) (w : world) (f : feed) (seen : list string) :
  state !! GEEKNEWS_FEED_URL = Some seen ->
  net_feed net (clock w) GEEKNEWS_FEED_URL = Some f ->
  geeknews_new_entries seen (entries f) <> [] ->
  exists posts,
    outbox (poll_geeknews cfg net state w).2 = outbox w ++ posts /\
    Forall (fun p => p_url p = GEEKNEWS_WEBHOOK cfg) posts /\
    files (poll_geeknews cfg net state w).2 = files w.
Proof.
  intros Hst Hf Hne.
  rewrite (poll_geeknews_steady cfg net state w f seen Hst Hf Hne). cbn [snd].
  destruct (geeknews_loop_trace (reverse (geeknews_new_entries seen (entries f))) seen (tick w))
    as (posts & Hout & _ & Hurl & _ & _ & Hfiles).
  by exists posts.
Qed.

(** X7.  In its steady state a poll of the feed source makes one webhook
    call per new entry and no other, in the reverse of the feed order, to
    the webhook of that source, with the formatted entry as text; it
    stores, under the cap, the old sequence followed by the identifiers of
    the entries whose call succeeded, in that order; it makes one network
    call for the feed and one per new entry, and touches no file. *)
Theorem geeknews_cycle_trace
    (state : gmap string (list string)) (w : world) (f : feed) (seen : list string) :
  state !! GEEKNEWS_FEED_URL = Some seen ->
  net_feed net (clock w) GEEKNEWS_FEED_URL = Some f ->
  geeknews_new_entries seen (entries f) <> [] ->
  exists posts,
    outbox (poll_geeknews cfg net state w).2 = outbox w ++ posts /\
    p_text <$> posts = format_geeknews <$> reverse (geeknews_new_entries seen (entries f)) /\
    Forall (fun p => p_url p = GEEKNEWS_WEBHOOK cfg) posts /\
    (poll_geeknews cfg net state w).1 =
      <[GEEKNEWS_FEED_URL :=
          Py.last_n MAX_IDS_PER_FEED
            (seen ++ delivered_ids (reverse (geeknews_new_entries seen (entries f))) posts)]>
        state /\
    clock (poll_geeknews cfg net state w).2 =
      (S (clock w) + length (geeknews_new_entries seen (entries f)))%nat /\
    files (poll_geeknews cfg net state w).2 = files w.
Proof.
  intros Hst Hf Hne.
  rewrite (poll_geeknews_steady cfg net state w f seen Hst Hf Hne). cbn [fst snd].
  destruct (geeknews_loop_trace (reverse (geeknews_new_entries seen (entries f))) seen (tick w))
    as (posts & Hout & Htext & Hurl & Hsl & Hclock & Hfiles).
  exists posts. rewrite Hout, Hsl, Hclock, Hfiles, length_reverse. done.
Qed.

End FeedCycle.

Lemma geeknews_cycle_trace_witness :
  exists posts,
    outbox (poll_geeknews example_cfg dup_flaky_net feed_before example_world).2
    = [] ++ posts /\
    p_text <$> posts =
      [format_geeknews (feed_entry "a" "Again");
       format_geeknews (feed_entry "b" "Other");
       format_geeknews (feed_entry "a" "First")] /\
    (poll_geeknews example_cfg dup_flaky_net feed_before example_world).1
      !! GEEKNEWS_FEED_URL
    = Some (Py.last_n MAX_IDS_PER_FEED
              (["z"] ++ delivered_ids
                          [feed_entry "a" "Again"; feed_entry "b" "Other";
                           feed_entry "a" "First"] posts)).
Proof.
  destruct (geeknews_cycle_trace example_cfg dup_flaky_net feed_before example_world dup_feed ["z"])
    as (posts & Hout & Htext & _ & Hst & _).
  - reflexivity.
  - reflexivity.
  - discriminate.
  - exists posts. split; [exact Hout|]. split; [exact Htext|].
    rewrite Hst. apply lookup_insert_eq.
Defined.

(** ** The feed source when the webhook is down, and when it is up *)

Lemma geeknews_loop_outage cfg net l sl w :
  (forall n text, net_post net n (GEEKNEWS_WEBHOOK cfg) text = RequestException) ->
  (for_each (geeknews_deliver cfg net) l sl w).1 = sl.
Proof.
  intros Hdown. revert sl w. induction l as [|e l IH]; intros sl w; [done|].
  rewrite for_each_cons, IH, geeknews_deliver_eq, send_to_mattermost_eq.
  cbn [fst]. by rewrite Hdown.
Qed.

Lemma geeknews_loop_all_delivered cfg net l sl w :
  (forall n text, net_post net n (GEEKNEWS_WEBHOOK cfg) text = Response tt) ->
  (for_each (geeknews_deliver cfg net) l sl w).1 = sl ++ (entry_id <$> l).
Proof.
  intros Hup. revert sl w. induction l as [|e l IH]; intros sl w.
  - simpl. by rewrite app_nil_r.
  - rewrite for_each_cons, IH, geeknews_deliver_eq, send_to_mattermost_eq.
    cbn [fst]. rewrite Hup, fmap_cons. by rewrite <- app_assoc.
Qed.

(** X8.  While every call to its webhook fails, a poll of the feed source
    in its steady state leaves the state as it is, whatever the feed
    holds: nothing is marked seen. *)
Theorem geeknews_outage_marks_nothing
    (cfg : config) (net : network) (state : gmap string (list string)) (w : world)
    (seen : list string) :
  (forall n text, net_post net n (GEEKNEWS_WEBHOOK cfg) text = RequestException) ->
  state !! GEEKNEWS_FEED_URL = Some seen ->
  (length seen <= MAX_IDS_PER_FEED)%nat ->
  (poll_geeknews cfg net state w).1 = state.
Proof.
  intros Hdown Hst Hlen.
  destruct (net_feed net (clock w) GEEKNEWS_FEED_URL) as [f|] eqn:Hf.
  2:{ by rewrite poll_geeknews_parse_raised. }
  destruct (decide (geeknews_new_entries seen (entries f) = [])) as [Hnew|Hnew].
  { rewrite (poll_geeknews_nothing_new cfg net state w f Hf); [done|]. by rewrite Hst. }
  rewrite (poll_geeknews_steady cfg net state w f seen Hst Hf Hnew). cbn [fst].
  rewrite geeknews_loop_outage by done. rewrite last_n_short by done.
  by apply insert_id.
Qed.

Lemma geeknews_outage_marks_nothing_witness :
  (poll_geeknews example_cfg
     {| net_feed := fun _ _ => Some dup_feed;
        net_topstories := fun _ => RequestException;
        net_item := fun _ _ => RequestException;
        net_post := fun _ _ _ => RequestException |}
     feed_before example_world).1 = feed_before.
Proof.
  apply (geeknews_outage_marks_nothing example_cfg _ feed_before example_world ["z"]).
  - reflexivity.
  - reflexivity.
  - unfold MAX_IDS_PER_FEED. simpl. lia.
Defined.

Lemma geeknews_new_entries_all_seen seen l :
  (forall e, e ∈ l -> entry_id e ∈ seen) -> geeknews_new_entries seen l = [].
Proof.
  intros Hall. unfold geeknews_new_entries. induction l as [|e l IH]; [done|].
  rewrite filter_cons_False.
  - apply IH. intros e' He'. apply Hall. by right.
  - intros Hno. apply Hno, elem_of_list_to_set, Hall. by left.
Qed.

Lemma geeknews_new_entries_length seen l :
  (length (geeknews_new_entries seen l) <= length l)%nat.
Proof. unfold geeknews_new_entries. apply length_filter. Qed.

Lemma geeknews_new_or_seen seen l e :
  e ∈ l -> entry_id e ∈ seen \/ e ∈ geeknews_new_entries seen l.
Proof.
  intros He. destruct (decide (entry_id e ∈ seen)) as [Hs|Hs]; [by left|].
  right. unfold geeknews_new_entries. apply list_elem_of_filter. split; [|done].
  by rewrite elem_of_list_to_set.
Qed.

(** X9.  When the webhook accepts every call and the cap is not reached, a
    second poll that finds the same feed does nothing: it posts nothing
    and returns the state of the first poll.  This holds for a first poll
    of the source as well as in its steady state. *)
Theorem geeknews_same_feed_not_redelivered
    (cfg : config) (net : network) (state : gmap string (list string)) (w : world)
    (f : feed) :
  (forall n text, net_post net n (GEEKNEWS_WEBHOOK cfg) text = Response tt) ->
  net_feed net (clock w) GEEKNEWS_FEED_URL = Some f ->
  net_feed net (clock (poll_geeknews cfg net state w).2) GEEKNEWS_FEED_URL = Some f ->
  (length (default [] (state !! GEEKNEWS_FEED_URL)) + length (entries f)
   <= MAX_IDS_PER_FEED)%nat ->
  poll_geeknews cfg net (poll_geeknews cfg net state w).1 (poll_geeknews cfg net state w).2
  = ((poll_geeknews cfg net state w).1, tick (poll_geeknews cfg net state w).2).
Proof.
  intros Hup Hf Hf2 Hlen.
  apply (poll_geeknews_nothing_new cfg net _ _ f Hf2).
  destruct (decide (geeknews_new_entries (default [] (state !! GEEKNEWS_FEED_URL))
                      (entries f) = [])) as [Hnew|Hnew].
  { by rewrite (poll_geeknews_nothing_new cfg net state w f Hf Hnew). }
  destruct (state !! GEEKNEWS_FEED_URL) as [seen|] eqn:Hst;
    cbn [default from_option] in *.
  - change (id seen) with seen in *.
    rewrite (poll_geeknews_steady cfg net state w f seen Hst Hf Hnew). cbn [fst].
    rewrite lookup_insert_eq. cbn [default from_option]. unfold id at 1.
    rewrite geeknews_loop_all_delivered by done.
    rewrite last_n_short.
    2:{ rewrite length_app, length_fmap, length_reverse.
        pose proof (geeknews_new_entries_length seen (entries f)). lia. }
    apply geeknews_new_entries_all_seen. intros e He.
    apply elem_of_app. destruct (geeknews_new_or_seen seen (entries f) e He) as [Hs|Hn].
    + by left.
    + right. apply list_elem_of_fmap. exists e. split; [done|]. by apply elem_of_reverse.
  - assert (entries f <> []) as Hne.
    { intros E. apply Hnew. by rewrite E. }
    rewrite (poll_geeknews_first_run cfg net state w f Hst Hf Hne). cbn [fst].
    rewrite lookup_insert_eq. cbn [default].
    rewrite last_n_short by (rewrite length_fmap; cbn [length] in Hlen; lia).
    apply geeknews_new_entries_all_seen. intros e He.
    apply list_elem_of_fmap. by exists e.
Qed.

Lemma geeknews_same_feed_not_redelivered_witness :
  poll_geeknews example_cfg dup_net
    (poll_geeknews example_cfg dup_net feed_before example_world).1
    (poll_geeknews example_cfg dup_net feed_before example_world).2
  = ((poll_geeknews example_cfg dup_net feed_before example_world).1,
     tick (poll_geeknews example_cfg dup_net feed_before example_world).2).
Proof.
  apply (geeknews_same_feed_not_redelivered example_cfg dup_net feed_before
           example_world dup_feed).
  - reflexivity.
  - reflexivity.
  - reflexivity.
  - vm_compute. lia.
Defined.

(** ** No identifier twice in a seen-sequence *)

Lemma NoDup_last_n {A} (n : nat) (l : list A) : NoDup l -> NoDup (Py.last_n n l).
Proof. intros H. apply (sublist_NoDup _ l); [done|]. apply sublist_drop. Qed.

Lemma NoDup_fmap_filter {A B} (g : A -> B) (P : A -> Prop) `{!forall x, Decision (P x)}
    (l : list A) :
  NoDup (g <$> l) -> NoDup (g <$> filter P l).
Proof.
  induction l as [|x l IH]; [done|]. rewrite fmap_cons.
  intros [Hx Hl]%NoDup_cons. rewrite filter_cons. destruct (decide (P x)); [|by apply IH].
  rewrite fmap_cons. apply NoDup_cons. split; [|by apply IH].
  intros Hin. apply Hx. apply list_elem_of_fmap in Hin as (y & -> & Hy).
  apply list_elem_of_fmap. exists y. split; [done|].
  by apply list_elem_of_filter in Hy as [_ ?].
Qed.

Lemma NoDup_seen_appended (seen app ids : list string) :
  NoDup seen -> NoDup ids -> sublist app ids -> (forall x, x ∈ ids -> x ∉ seen) ->
  NoDup (seen ++ app).
Proof.
  intros Hseen Hids Hsub Hnew. apply NoDup_app. split; [done|]. split.
  - intros x Hx Happ. apply (Hnew x); [|done]. by eapply elem_of_sublist.
  - by apply (sublist_NoDup _ ids).
Qed.

(** X10.  A poll keeps a seen-sequence free of duplicates when the fetched
    batch names no identifier twice. *)
Theorem seen_sequence_stays_duplicate_free
    (cfg : config) (net : network) (state : gmap string (list string)) (w : world) :
  ((forall f, net_feed net (clock w) GEEKNEWS_FEED_URL = Some f ->
              NoDup (entry_id <$> entries f)) ->
   (forall l, state !! GEEKNEWS_FEED_URL = Some l -> NoDup l) ->
   forall l', (poll_geeknews cfg net state w).1 !! GEEKNEWS_FEED_URL = Some l' ->
              NoDup l') /\
  (NoDup (fetch_hn_top_ids net w).1 ->
   (forall l, state !! HN_STATE_KEY = Some l -> NoDup l) ->
   forall l', (poll_hackernews cfg net state w).1 !! HN_STATE_KEY = Some l' ->
              NoDup l').
Proof.
  split.
  - intros Hbatch Hseen l' Hl'.
    destruct (net_feed net (clock w) GEEKNEWS_FEED_URL) as [f|] eqn:Hf.
    2:{ rewrite poll_geeknews_parse_raised in Hl' by done. by apply Hseen. }
    specialize (Hbatch f eq_refl).
    destruct (decide (geeknews_new_entries (default [] (state !! GEEKNEWS_FEED_URL))
                        (entries f) = [])) as [Hnew|Hnew].
    { rewrite (poll_geeknews_nothing_new cfg net state w f Hf Hnew) in Hl'.
      by apply Hseen. }
    destruct (state !! GEEKNEWS_FEED_URL) as [seen|] eqn:Hst;
      cbn [default from_option] in Hnew.
    + change (id seen) with seen in Hnew.
      rewrite (poll_geeknews_steady cfg net state w f seen Hst Hf Hnew) in Hl'.
      cbn [fst] in Hl'. rewrite lookup_insert_eq in Hl'. apply (inj Some) in Hl' as <-.
      destruct (for_each_appends entry_id _ (geeknews_deliver_appends cfg net)
                  (reverse (geeknews_new_entries seen (entries f))) seen (tick w))
        as (app & -> & Hsub).
      apply NoDup_last_n.
      apply (NoDup_seen_appended seen app
               (entry_id <$> reverse (geeknews_new_entries seen (entries f))));
        [by apply Hseen| |exact Hsub|].
      * rewrite fmap_reverse, reverse_Permutation. unfold geeknews_new_entries.
        by apply NoDup_fmap_filter.
      * intros x Hx. apply list_elem_of_fmap in Hx as (e & -> & He).
        rewrite elem_of_reverse in He. unfold geeknews_new_entries in He.
        apply list_elem_of_filter in He as [He _]. set_solver.
    + assert (entries f <> []) as Hne.
      { intros E. apply Hnew. by rewrite E. }
      rewrite (poll_geeknews_first_run cfg net state w f Hst Hf Hne) in Hl'.
      cbn [fst] in Hl'. rewrite lookup_insert_eq in Hl'. apply (inj Some) in Hl' as <-.
      by apply NoDup_last_n.
  - intros Hbatch Hseen l' Hl'.
    assert (NoDup (Py.str <$> (fetch_hn_top_ids net w).1)) as Hstr.
    { apply NoDup_fmap_2_strong; [|done]. intros x y _ _. apply str_inj. }
    destruct (decide (hackernews_new_ids (default [] (state !! HN_STATE_KEY))
                        (fetch_hn_top_ids net w).1 = [])) as [Hnew|Hnew].
    { rewrite (poll_hackernews_nothing_new cfg net state w Hnew) in Hl'.
      by apply Hseen. }
    destruct (state !! HN_STATE_KEY) as [seen|] eqn:Hst;
      cbn [default from_option] in Hnew.
    + change (id seen) with seen in Hnew.
      rewrite (poll_hackernews_steady cfg net state w seen Hst Hnew) in Hl'.
      cbn [fst] in Hl'. rewrite lookup_insert_eq in Hl'. apply (inj Some) in Hl' as <-.
      destruct (for_each_appends (fun s => s) _ (hackernews_process_appends cfg net)
                  (reverse (hackernews_new_ids seen (fetch_hn_top_ids net w).1)) seen
                  (tick w)) as (app & -> & Hsub).
      rewrite list_fmap_id in Hsub.
      apply NoDup_last_n.
      apply (NoDup_seen_appended seen app
               (reverse (hackernews_new_ids seen (fetch_hn_top_ids net w).1)));
        [by apply Hseen| |exact Hsub|].
      * rewrite reverse_Permutation. unfold hackernews_new_ids. by apply NoDup_filter.
      * intros x Hx. rewrite elem_of_reverse in Hx. unfold hackernews_new_ids in Hx.
        apply list_elem_of_filter in Hx as [Hx _]. set_solver.
    + assert ((fetch_hn_top_ids net w).1 <> []) as Hne.
      { intros E. apply Hnew. by rewrite E. }
      rewrite (poll_hackernews_first_run cfg net state w Hst Hne) in Hl'.
      cbn [fst] in Hl'. rewrite lookup_insert_eq in Hl'. apply (inj Some) in Hl' as <-.
      by apply NoDup_last_n.
Qed.

Lemma seen_sequence_stays_duplicate_free_witness :
  NoDup ["7"; "104"; "103"; "102"].
Proof.
  apply (proj2 (seen_sequence_stays_duplicate_free example_cfg ranked_net ranked_before
                  example_world)).
  - apply (bool_decide_unpack _). by vm_compute.
  - intros l H. unfold ranked_before in H.
    apply lookup_singleton_Some in H as [_ <-].
    apply (bool_decide_unpack _). by vm_compute.
  - reflexivity.
Defined.

(** ** Network calls of the ranked source *)

Section RankedCycle.

Variable cfg : config.
Variable net : network.

Lemma send_to_mattermost_world url text w :
  outbox (send_to_mattermost net url text w).2 =
    outbox w ++ [posted url text (send_to_mattermost net url text w).1] /\
  clock (send_to_mattermost net url text w).2 = S (clock w) /\
  files (send_to_mattermost net url text w).2 = files w.
Proof. by rewrite send_to_mattermost_eq. Qed.

Lemma hackernews_process_calls str_id sl w :
  exists posts,
    outbox (hackernews_process cfg net str_id sl w).2 = outbox w ++ posts /\
    Forall (fun p => p_url p = HACKERNEWS_WEBHOOK cfg) posts /\
    (length posts <= 1)%nat /\
    clock (hackernews_process cfg net str_id sl w).2 = (S (clock w) + length posts)%nat /\
    files (hackernews_process cfg net str_id sl w).2 = files w.
Proof.
  destruct (unavailable (fetch_hn_item net (Py.int str_id) w).1) eqn:Hun.
  { rewrite hackernews_process_unavailable by done. exists []. simpl.
    rewrite app_nil_r. repeat split; [constructor | lia | lia]. }
  destruct (fetch_hn_item net (Py.int str_id) w).1 as [it|] eqn:Hit; [|done].
  destruct (Z.lt_ge_cases (default 0 (it_score it) + default 0 (it_descendants it))
              (HN_MIN_SCORE_COMMENTS cfg)) as [Hlt|Hge].
  - rewrite (hackernews_process_below cfg net str_id sl w it Hit Hun Hlt). exists [].
    simpl. rewrite app_nil_r. repeat split; [constructor | lia | lia].
  - rewrite (hackernews_process_relevant cfg net str_id sl w it Hit Hun Hge). cbn [snd].
    destruct (send_to_mattermost_world (HACKERNEWS_WEBHOOK cfg) (format_hackernews it)
                (tick w)) as (Hout & Hclock & Hfiles).
    eexists. split; [exact Hout|]. rewrite Hclock, Hfiles.
    repeat split; [by repeat constructor | simpl; lia | simpl; lia].
Qed.

Lemma hackernews_loop_calls l sl w :
  exists posts,
    outbox (for_each (hackernews_process cfg net) l sl w).2 = outbox w ++ posts /\
    Forall (fun p => p_url p = HACKERNEWS_WEBHOOK cfg) posts /\
    (length posts <= length l)%nat /\
    clock (for_each (hackernews_process cfg net) l sl w).2
      = (clock w + length l + length posts)%nat /\
    files (for_each (hackernews_process cfg net) l sl w).2 = files w.
Proof.
  revert sl w. induction l as [|x l IH]; intros sl w.
  - exists []. simpl. rewrite app_nil_r. repeat split; [constructor | lia | lia].
  - rewrite for_each_cons.
    destruct (hackernews_process_calls x sl w) as (p1 & Ho1 & Hu1 & Hl1 & Hc1 & Hf1).
    destruct (IH (hackernews_process cfg net x sl w).1 (hackernews_process cfg net x sl w).2)
      as (p2 & Ho2 & Hu2 & Hl2 & Hc2 & Hf2).
    exists (p1 ++ p2). rewrite Ho2, Ho1, Hc2, Hc1, Hf2, Hf1, length_app.
    repeat split.
    + by rewrite <- app_assoc.
    + by apply Forall_app.
    + simpl. lia.
    + simpl. lia.
Qed.

(** X11.  In its steady state a poll of the ranked source makes one call
    for the ranking, one detail fetch per identifier that is not yet seen
    and one webhook call per post, and no other network call; the posts, at
    most one per new identifier, all go to the webhook of that source; no
    file is touched. *)
Theorem hackernews_cycle_calls
    (state : gmap string (list string)) (w : world) (seen : list string) :
  state !! HN_STATE_KEY = Some seen ->
  hackernews_new_ids seen (fetch_hn_top_ids net w).1 <> [] ->
  exists posts,
    outbox (poll_hackernews cfg net state w).2 = outbox w ++ posts /\
    Forall (fun p => p_url p = HACKERNEWS_WEBHOOK cfg) posts /\
    (length posts <= length (hackernews_new_ids seen (fetch_hn_top_ids net w).1))%nat /\
    clock (poll_hackernews cfg net state w).2
      = (S (clock w) + length (hackernews_new_ids seen (fetch_hn_top_ids net w).1)
         + length posts)%nat /\
    files (poll_hackernews cfg net state w).2 = files w.
Proof.
  intros Hst Hnew. rewrite (poll_hackernews_steady cfg net state w seen Hst Hnew).
  cbn [snd].
  destruct (hackernews_loop_calls
              (reverse (hackernews_new_ids seen (fetch_hn_top_ids net w).1)) seen (tick w))
    as (posts & Hout & Hurl & Hlen & Hclock & Hfiles).
  exists posts. rewrite Hout, Hclock, Hfiles. rewrite length_reverse in *. done.
Qed.

End RankedCycle.

Lemma hackernews_cycle_calls_witness :
  exists posts,
    outbox (poll_hackernews example_cfg ranked_net ranked_before example_world).2
    = [] ++ posts /\
    (length posts <= 4)%nat /\
    clock (poll_hackernews example_cfg ranked_net ranked_before example_world).2
    = (1 + 4 + length posts)%nat.
Proof.
  destruct (hackernews_cycle_calls example_cfg ranked_net ranked_before example_world ["7"])
    as (posts & Hout & _ & Hlen & Hclock & _).
  - reflexivity.
  - discriminate.
  - exists posts. split; [exact Hout|]. split; [exact Hlen | exact Hclock].
Defined.

(** ** What a poll does to the outbox and the files, in every case *)

Section Effects.

Variable cfg : config.
Variable net : network.

Lemma poll_geeknews_fresh state w :
  state !! GEEKNEWS_FEED_URL = None ->
  (poll_geeknews cfg net state w).2 = tick w.
Proof.
  intros Hst.
  destruct (net_feed net (clock w) GEEKNEWS_FEED_URL) as [f|] eqn:Hf.
  2:{ by rewrite poll_geeknews_parse_raised. }
  destruct (decide (entries f = [])) as [He|He].
  - rewrite (poll_geeknews_nothing_new cfg net state w f Hf); [done|]. by rewrite He.
  - by rewrite (poll_geeknews_first_run cfg net state w f Hst Hf He).
Qed.

Lemma poll_hackernews_fresh state w :
  state !! HN_STATE_KEY = None ->
  (poll_hackernews cfg net state w).2 = tick w.
Proof.
  intros Hst. destruct (decide ((fetch_hn_top_ids net w).1 = [])) as [He|He].
  - by rewrite poll_hackernews_no_ids.
  - by rewrite (poll_hackernews_first_run cfg net state w Hst He).
Qed.

Lemma poll_geeknews_effects state w :
  exists posts,
    outbox (poll_geeknews cfg net state w).2 = outbox w ++ posts /\
    Forall (fun p => p_url p = GEEKNEWS_WEBHOOK cfg) posts /\
    files (poll_geeknews cfg net state w).2 = files w.
Proof.
  destruct (state !! GEEKNEWS_FEED_URL) as [seen|] eqn:Hst.
  2:{ rewrite poll_geeknews_fresh by done. exists []. simpl. by rewrite app_nil_r. }
  destruct (net_feed net (clock w) GEEKNEWS_FEED_URL) as [f|] eqn:Hf.
  2:{ rewrite poll_geeknews_parse_raised by done. exists []. simpl. by rewrite app_nil_r. }
  destruct (decide (geeknews_new_entries seen (entries f) = [])) as [Hnew|Hnew].
  { rewrite (poll_geeknews_nothing_new cfg net state w f Hf) by (by rewrite Hst).
    exists []. simpl. by rewrite app_nil_r. }
  destruct (geeknews_steady_effects cfg net state w f seen Hst Hf Hnew)
    as (posts & Hout & Hurl & Hfiles).
  by exists posts.
Qed.

Lemma poll_hackernews_effects state w :
  exists posts,
    outbox (poll_hackernews cfg net state w).2 = outbox w ++ posts /\
    Forall (fun p => p_url p = HACKERNEWS_WEBHOOK cfg) posts /\
    files (poll_hackernews cfg net state w).2 = files w.
Proof.
  destruct (state !! HN_STATE_KEY) as [seen|] eqn:Hst.
  2:{ rewrite poll_hackernews_fresh by done. exists []. simpl. by rewrite app_nil_r. }
  destruct (decide (hackernews_new_ids seen (fetch_hn_top_ids net w).1 = [])) as [Hnew|Hnew].
  { rewrite poll_hackernews_nothing_new by (by rewrite Hst).
    exists []. simpl. by rewrite app_nil_r. }
  rewrite (poll_hackernews_steady cfg net state w seen Hst Hnew). cbn [snd].
  destruct (hackernews_loop_calls cfg net
              (reverse (hackernews_new_ids seen (fetch_hn_top_ids net w).1)) seen (tick w))
    as (posts & Hout & Hurl & _ & _ & Hfiles).
  by exists posts.
Qed.

End Effects.

(** ** A whole cycle, and the loop *)

Section Cycle.

Variable cfg : config.
Variable net : network.
Variable json_dump : gmap string (list string) -> list string.

Lemma poll_once_world state w :
  let r1 := if Py.truthy (GEEKNEWS_WEBHOOK cfg)
            then poll_geeknews cfg net state w else (state, w) in
  let r2 := if Py.truthy (HACKERNEWS_WEBHOOK cfg)
            then poll_hackernews cfg net r1.1 r1.2 else r1 in
  poll_once cfg net json_dump state w =
  (r2.1, with_files r2.2 (fs_run (save_state_ops cfg json_dump r2.1) (files r2.2))).
Proof.
  unfold poll_once, bind, ret, save_state, with_files.
  by destruct (Py.truthy (GEEKNEWS_WEBHOOK cfg)), (Py.truthy (HACKERNEWS_WEBHOOK cfg)).
Qed.

Lemma save_ops_done state fs :
  fs_run (save_state_ops cfg json_dump state) fs !! STATE_FILE cfg
  = Some (json_text (json_dump state)).
Proof.
  rewrite save_state_ops_split, fs_run_app.
  apply fs_run_replace, before_rename_tmp_complete.
Qed.

Lemma save_ops_prefix state fs n :
  (n < length (save_state_ops cfg json_dump state))%nat ->
  fs_run (take n (save_state_ops cfg json_dump state)) fs !! STATE_FILE cfg
  = fs !! STATE_FILE cfg.
Proof.
  intros Hn. rewrite save_state_ops_length in Hn.
  apply (fs_run_other (with_suffix (STATE_FILE cfg) ".tmp")); [|apply tmp_not_canonical].
  rewrite save_state_ops_split, take_app_le.
  - apply Forall_take, before_rename_only_tmp.
  - rewrite length_app, length_fmap. simpl. lia.
Qed.

Lemma poll_once_effects state w :
  exists posts,
    outbox (poll_once cfg net json_dump state w).2 = outbox w ++ posts /\
    Forall (fun p => Py.truthy (p_url p) = true /\
                     (p_url p = GEEKNEWS_WEBHOOK cfg \/ p_url p = HACKERNEWS_WEBHOOK cfg))
      posts.
Proof.
  rewrite poll_once_world. cbv zeta. cbn [snd with_files outbox].
  destruct (Py.truthy (GEEKNEWS_WEBHOOK cfg)) eqn:Hg,
           (Py.truthy (HACKERNEWS_WEBHOOK cfg)) eqn:Hh; cbn [fst snd].
  - destruct (poll_geeknews_effects cfg net state w) as (p1 & Ho1 & Hu1 & _).
    destruct (poll_hackernews_effects cfg net (poll_geeknews cfg net state w).1
                (poll_geeknews cfg net state w).2) as (p2 & Ho2 & Hu2 & _).
    exists (p1 ++ p2). rewrite Ho2, Ho1, <- app_assoc. split; [done|].
    apply Forall_app. split.
    + eapply Forall_impl; [exact Hu1|]. intros p ->. auto.
    + eapply Forall_impl; [exact Hu2|]. intros p ->. auto.
  - destruct (poll_geeknews_effects cfg net state w) as (p1 & Ho1 & Hu1 & _).
    exists p1. split; [done|]. eapply Forall_impl; [exact Hu1|]. intros p ->. auto.
  - destruct (poll_hackernews_effects cfg net state w) as (p2 & Ho2 & Hu2 & _).
    exists p2. split; [done|]. eapply Forall_impl; [exact Hu2|]. intros p ->. auto.
  - exists []. by rewrite app_nil_r.
Qed.

(** X13.  Over any number of cycles the outbox only grows, and every post
    added goes to one of the two configured webhooks, never to an unset
    one. *)
Theorem posts_only_to_configured_webhooks
    (n : nat) (state : gmap string (list string)) (w : world) :
  exists posts,
    outbox (run_cycles cfg net json_dump n state w).2 = outbox w ++ posts /\
    Forall (fun p => Py.truthy (p_url p) = true /\
                     (p_url p = GEEKNEWS_WEBHOOK cfg \/ p_url p = HACKERNEWS_WEBHOOK cfg))
      posts.
Proof.
  revert state w. induction n as [|n IH]; intros state w.
  - exists []. simpl. by rewrite app_nil_r.
  - simpl. rewrite bind_eq.
    destruct (poll_once_effects state w) as (p1 & Ho1 & Hu1).
    destruct (IH (poll_once cfg net json_dump state w).1
                (poll_once cfg net json_dump state w).2) as (p2 & Ho2 & Hu2).
    exists (p1 ++ p2). rewrite Ho2, Ho1, <- app_assoc. split; [done|].
    by apply Forall_app.
Qed.

(** X14.  A source whose webhook is not set is never polled: over any
    number of cycles its entry in the state stays what it was. *)
Theorem disabled_source_untouched
    (n : nat) (state : gmap string (list string)) (w : world) :
  (Py.truthy (GEEKNEWS_WEBHOOK cfg) = false ->
   (run_cycles cfg net json_dump n state w).1 !! GEEKNEWS_FEED_URL
   = state !! GEEKNEWS_FEED_URL) /\
  (Py.truthy (HACKERNEWS_WEBHOOK cfg) = false ->
   (run_cycles cfg net json_dump n state w).1 !! HN_STATE_KEY
   = state !! HN_STATE_KEY).
Proof.
  revert state w. induction n as [|n IH]; intros state w; [done|].
  simpl. rewrite bind_eq.
  destruct (IH (poll_once cfg net json_dump state w).1
              (poll_once cfg net json_dump state w).2) as [IHg IHh].
  split; intros Hoff.
  - rewrite IHg by done. rewrite poll_once_state, Hoff. cbv zeta. cbn [fst snd].
    destruct (Py.truthy (HACKERNEWS_WEBHOOK cfg)); [|done].
    apply poll_hackernews_frame, state_keys_differ.
  - rewrite IHh by done. rewrite poll_once_state, Hoff. cbv zeta.
    destruct (Py.truthy (GEEKNEWS_WEBHOOK cfg)); [|done].
    apply poll_geeknews_frame. by intros E.
Qed.

(** X15.  A cycle ends with the state file holding the complete text of
    the state the cycle returns. *)
Theorem poll_once_persists_returned_state
    (state : gmap string (list string)) (w : world) :
  files (poll_once cfg net json_dump state w).2 !! STATE_FILE cfg
  = Some (json_text (json_dump (poll_once cfg net json_dump state w).1)).
Proof.
  rewrite poll_once_world. cbv zeta. cbn [fst snd with_files files].
  apply save_ops_done.
Qed.

(** X16.  [save_state] changes the state file only: the temporary file is
    gone once it returns, every other file is as before, and neither the
    clock nor the outbox moves. *)
Theorem save_state_touches_state_file_only
    (state : gmap string (list string)) (w : world) :
  files (save_state cfg json_dump state w).2 !! STATE_FILE cfg
  = Some (json_text (json_dump state)) /\
  files (save_state cfg json_dump state w).2 !! with_suffix (STATE_FILE cfg) ".tmp"
  = None /\
  (forall p, p <> STATE_FILE cfg -> p <> with_suffix (STATE_FILE cfg) ".tmp" ->
             files (save_state cfg json_dump state w).2 !! p = files w !! p) /\
  clock (save_state cfg json_dump state w).2 = clock w /\
  outbox (save_state cfg json_dump state w).2 = outbox w.
Proof.
  split; [apply save_ops_done|].
  cbn [save_state snd files clock outbox].
  rewrite save_state_ops_split, fs_run_app.
  set (tmp := with_suffix (STATE_FILE cfg) ".tmp").
  set (pre := fs_run _ (files w)).
  assert (pre !! tmp = Some (json_text (json_dump state))) as Htmp
    by apply before_rename_tmp_complete.
  assert (fs_run [Replace tmp (STATE_FILE cfg)] pre
          = <[STATE_FILE cfg := json_text (json_dump state)]> (delete tmp pre)) as ->.
  { unfold fs_run. simpl. by rewrite Htmp. }
  split; [|split; [|done]].
  - rewrite lookup_insert_ne by apply tmp_not_canonical. apply lookup_delete_eq.
  - intros p Hp Htmp'. rewrite lookup_insert_ne by done.
    rewrite lookup_delete_ne by done.
    apply (fs_run_other tmp); [apply before_rename_only_tmp | done].
Qed.

End Cycle.

Lemma disabled_source_untouched_witness :
  (run_cycles
     {| HN_MIN_SCORE_COMMENTS := 100; GEEKNEWS_WEBHOOK := "";
        HACKERNEWS_WEBHOOK := "https://chat.example/hooks/hackernews";
        POLL_INTERVAL := 300; DATA_DIR := "./data" |}
     dup_net example_dump 3 feed_before example_world).1 !! GEEKNEWS_FEED_URL
  = Some ["z"].
Proof.
  rewrite (proj1 (disabled_source_untouched _ dup_net example_dump 3 feed_before
                    example_world)); reflexivity.
Defined.

Lemma save_state_touches_state_file_only_witness :
  files (save_state example_cfg example_dump ∅ example_world).2
    !! {| parent := "./data"; name := "other.txt" |}
  = files example_world !! {| parent := "./data"; name := "other.txt" |}.
Proof.
  apply (save_state_touches_state_file_only example_cfg example_dump ∅ example_world).
  - discriminate.
  - discriminate.
Defined.

(** ** Loading the state *)

Section Loading.

Variable cfg : config.
Variable net : network.
Variable json_dump : gmap string (list string) -> list string.
Variable json_load : string -> option (gmap string (list string)).

Lemma load_state_eq w :
  load_state cfg json_load w =
  (match files w !! STATE_FILE cfg with
   | Some text => default ∅ (json_load text)
   | None => ∅
   end, w).
Proof. unfold load_state. by destruct (files w !! STATE_FILE cfg) as [text|]. Qed.

(** X17.  What [save_state] wrote, [load_state] reads back, when the parser
    undoes the serializer on that state. *)
Theorem save_then_load
    (state : gmap string (list string)) (w : world) :
  json_load (json_text (json_dump state)) = Some state ->
  (load_state cfg json_load (save_state cfg json_dump state w).2).1 = state.
Proof.
  intros Hrt. rewrite load_state_eq. cbn [fst].
  cbn [save_state snd files]. by rewrite save_ops_done, Hrt.
Qed.

(** X18.  If [save_state] is stopped after any number [n] of its file
    operations, a later [load_state] gives what it would have given
    before the save, or the state being saved; never anything else. *)
Theorem load_after_interrupted_save
    (state : gmap string (list string)) (w : world) (n : nat) :
  json_load (json_text (json_dump state)) = Some state ->
  (load_state cfg json_load
     (with_files w (fs_run (take n (save_state_ops cfg json_dump state)) (files w)))).1
  = (load_state cfg json_load w).1
  \/
  (load_state cfg json_load
     (with_files w (fs_run (take n (save_state_ops cfg json_dump state)) (files w)))).1
  = state.
Proof.
  intros Hrt. rewrite !load_state_eq. cbn [fst with_files files].
  destruct (decide (n < length (save_state_ops cfg json_dump state))%nat) as [Hlt|Hge].
  - left. by rewrite save_ops_prefix.
  - right. rewrite take_ge by lia. by rewrite save_ops_done, Hrt.
Qed.

(** X19.  With a state file that is missing or that the parser rejects,
    [run] starts from the empty state, so both sources are polled as
    new: the first cycle posts nothing. *)
Theorem unreadable_state_file_posts_nothing (w : world) :
  files w !! STATE_FILE cfg = None \/
  (exists text, files w !! STATE_FILE cfg = Some text /\ json_load text = None) ->
  load_state cfg json_load w = (∅, w) /\
  outbox (run cfg net json_dump json_load 1 w).2 = outbox w.
Proof.
  intros Hbad.
  assert (load_state cfg json_load w = (∅, w)) as Hload.
  { rewrite load_state_eq. destruct Hbad as [-> | (text & -> & ->)]; done. }
  split; [done|]. unfold run.
  destruct (negb _ && negb _); [done|].
  rewrite bind_eq, Hload. cbn [fst snd]. rewrite bind_eq. cbn [ret snd].
  cbn [run_cycles]. rewrite bind_eq. cbn [ret snd].
  rewrite poll_once_world. cbv zeta. cbn [snd with_files outbox].
  destruct (Py.truthy (GEEKNEWS_WEBHOOK cfg)), (Py.truthy (HACKERNEWS_WEBHOOK cfg));
    cbn [fst snd].
  - rewrite poll_hackernews_fresh by (by rewrite poll_geeknews_frame).
    by rewrite poll_geeknews_fresh.
  - by rewrite poll_geeknews_fresh.
  - by rewrite poll_hackernews_fresh.
  - done.
Qed.

End Loading.

Lemma save_then_load_witness :
  (load_state example_cfg sample_load
     (save_state example_cfg sample_dump ranked_before example_world).2).1
  = ranked_before.
Proof.
  apply (save_then_load example_cfg sample_dump sample_load ranked_before example_world).
  reflexivity.
Defined.

Lemma load_after_interrupted_save_witness :
  (load_state example_cfg sample_load
     (with_files example_world
        (fs_run (take 3 (save_state_ops example_cfg sample_dump ranked_before))
           (files example_world)))).1
  = (load_state example_cfg sample_load example_world).1
  \/
  (load_state example_cfg sample_load
     (with_files example_world
        (fs_run (take 3 (save_state_ops example_cfg sample_dump ranked_before))
           (files example_world)))).1
  = ranked_before.
Proof.
  apply (load_after_interrupted_save example_cfg sample_dump sample_load ranked_before
           example_world 3).
  reflexivity.
Defined.

Lemma unreadable_state_file_posts_nothing_witness :
  load_state example_cfg sample_load
    (with_files example_world example_files)
  = (∅, with_files example_world example_files) /\
  outbox (run example_cfg dup_net sample_dump sample_load 1
            (with_files example_world example_files)).2 = [].
Proof.
  apply (unreadable_state_file_posts_nothing example_cfg dup_net sample_dump sample_load
           (with_files example_world example_files)).
  right. exists "{old}". split; reflexivity.
Defined.

(** ** Items below the threshold stay pending *)





(** ** [strip_html] on every text *)

(** X1.  The stripped text neither begins nor ends with white space, for
    every text given as its code points and for every encoded text. *)
Theorem strip_html_trimmed :
  (forall html : list N, trimmed (Text.strip_html html)) /\
  (forall html : string, trimmed (Utf8.decode (strip_html html))).
Proof.
  split; intros html; [|rewrite strip_html_decode]; apply strip_chars_trimmed.
Qed.

(** X2.  No tag is left in the stripped text. *)
Theorem strip_html_no_tag :
  (forall html : list N, has_tag_go (Text.strip_html html) = false) /\
  (forall html : string, has_tag (strip_html html) = false).
Proof.
  split; intros html; [|unfold has_tag; rewrite strip_html_decode];
    apply tag_free_no_tag, strip_chars_tag_free.
Qed.

(** X3.  The stripped text never holds three line breaks in a row. *)
Theorem strip_html_no_blank_run :
  (forall html : list N, has_blank_run_go (Text.strip_html html) = false) /\
  (forall html : string, has_blank_run (strip_html html) = false).
Proof.
  split; intros html; [|unfold has_blank_run; rewrite strip_html_decode];
    apply strip_chars_no_blank_run.
Qed.

(** X4.  A text with no [<] and no three line breaks in a row is only
    trimmed: [strip_html] gives what [text.strip()] gives. *)
Theorem strip_html_plain_text (html : list N) :
  lt_sign ∉ html ->
  has_blank_run_go html = false ->
  Text.strip_html html = Py.strip html.
Proof. apply strip_chars_plain_text. Qed.

(** An ideographic space, a Hangul syllable whose encoding ends in the
    byte [0xA0], a space, the syllable again and a no-break space. *)
Lemma strip_html_plain_text_witness :
  Text.strip_html [12288; 45216; 32; 45216; 160]%N = [45216; 32; 45216]%N.
Proof.
  rewrite strip_html_plain_text.
  - reflexivity.
  - apply (bool_decide_unpack _). by vm_compute.
  - reflexivity.
Defined.

(** X5.  Stripping a stripped text changes nothing. *)
Theorem strip_html_idempotent :
  (forall html : list N,
     Text.strip_html (Text.strip_html html) = Text.strip_html html) /\
  (forall html : string, strip_html (strip_html html) = strip_html html).
Proof.
  split; intros html; [apply strip_chars_idempotent|].
  unfold strip_html at 1. by rewrite strip_html_decode, strip_chars_idempotent.
Qed.
